(** * MISP-tools: the CrowdStrike indicator import pipeline

A shallow embedding of [cs_misp_import/threaded_misp.py] (the retrying
transport [MISP._retry] and the counting methods of the client), of
[cs_misp_import/indicators.py] (the [IndicatorsImporter] class) and of
the clean-up and event import of [cs_misp_import/importer.py], with
the properties of the ingestion pipeline stated over it.

Python code is embedded in a state-and-exception monad: a method is a
function from the object's state to a result (a returned value or a
raised exception) and the new state.  What the class gets from outside
(the MISP server, the CrowdStrike feed, the helper modules of the
package, the clock) is gathered in the record [collaborators].  A
thread pool runs its tasks one after the other; the indicator workers
can also be interleaved, see [run_schedule]. *)

From Stdlib Require Import ZArith Lia Bool Ascii String List Sorted.
From stdpp Require Import base option list strings gmap.

Local Open Scope Z_scope.

(** ** Python results and exceptions *)

Module Py.

(** The exception classes the two modules raise or catch. *)
Inductive exn : Type :=
| StopIteration
| UnboundLocalError
| KeyError
| IndexError
| AttributeError
| TypeError
| ValueError
| SSLError
| ConnectionError
| MISPServerError
| PyMISPError
| NewAttributeError
| OtherError.

Definition exn_eqb (a b : exn) : bool :=
  match a, b with
  | StopIteration, StopIteration | UnboundLocalError, UnboundLocalError
  | KeyError, KeyError | IndexError, IndexError
  | AttributeError, AttributeError | TypeError, TypeError
  | ValueError, ValueError | SSLError, SSLError
  | ConnectionError, ConnectionError | MISPServerError, MISPServerError
  | PyMISPError, PyMISPError | NewAttributeError, NewAttributeError
  | OtherError, OtherError => true
  | _, _ => false
  end.

Definition exn_name (e : exn) : string :=
  match e with
  | StopIteration => "StopIteration"
  | UnboundLocalError => "UnboundLocalError"
  | KeyError => "KeyError"
  | IndexError => "IndexError"
  | AttributeError => "AttributeError"
  | TypeError => "TypeError"
  | ValueError => "ValueError"
  | SSLError => "SSLError"
  | ConnectionError => "ConnectionError"
  | MISPServerError => "MISPServerError"
  | PyMISPError => "PyMISPError"
  | NewAttributeError => "NewAttributeError"
  | OtherError => "Exception"
  end.

(** What a call does: it returns a value or raises. *)
Inductive result (A : Type) : Type :=
| Ret (a : A)
| Raise (e : exn).
Arguments Ret {A} a.
Arguments Raise {A} e.

Definition is_raise {A} (r : result A) : bool :=
  match r with Raise _ => true | Ret _ => false end.

(** A method over an object state [S]. *)
Definition M (S A : Type) : Type := S -> result A * S.

Definition ret {S A} (a : A) : M S A := fun s => (Ret a, s).
Definition raise {S A} (e : exn) : M S A := fun s => (Raise e, s).
Definition bind {S A B} (m : M S A) (k : A -> M S B) : M S B :=
  fun s => match m s with
           | (Ret a, s') => k a s'
           | (Raise e, s') => (Raise e, s')
           end.
Definition get {S} : M S S := fun s => (Ret s, s).
Definition modify {S} (f : S -> S) : M S unit := fun s => (Ret tt, f s).

(** [try: body except Exception as e: handler e].  Whatever the body did
    to the state before it raised stays done. *)
Definition try_except {S A} (body : M S A) (handler : exn -> M S A) : M S A :=
  fun s => match body s with
           | (Ret a, s') => (Ret a, s')
           | (Raise e, s') => handler e s'
           end.

(** [try: body except (E1, E2, ...): handler]: only the listed classes are
    caught, the others propagate. *)
Definition try_except_only {S A} (caught : list exn) (body : M S A)
           (handler : exn -> M S A) : M S A :=
  fun s => match body s with
           | (Ret a, s') => (Ret a, s')
           | (Raise e, s') =>
               if existsb (exn_eqb e) caught then handler e s' else (Raise e, s')
           end.

(** A [for] loop whose body may [return] from the enclosing function. *)
Inductive ctl (A : Type) : Type :=
| Continue
| Return (a : A).
Arguments Continue {A}.
Arguments Return {A} a.

(** A [for x in xs] loop with no early exit. *)
Fixpoint for_each {S X} (xs : list X) (body : X -> M S unit) : M S unit :=
  match xs with
  | [] => ret tt
  | x :: rest => bind (body x) (fun _ => for_each rest body)
  end.

(** A [for x in xs] loop that collects one value per round. *)
Fixpoint for_collect {S X Y} (xs : list X) (body : X -> M S Y) : M S (list Y) :=
  match xs with
  | [] => ret []
  | x :: rest =>
      bind (body x) (fun y => bind (for_collect rest body) (fun ys => ret (y :: ys)))
  end.

(** [m] leaves every state related by [R] to the state it started in:
    the frame conditions of the methods are stated with it. *)
Definition keeps {S A} (R : S -> S -> Prop) (m : M S A) : Prop :=
  forall s, R s (snd (m s)).

End Py.

Import Py.

Declare Scope py_scope.
Delimit Scope py_scope with py.
Notation "x <- c ;; k" := (bind c (fun x => k))
  (at level 100, c at next level, right associativity) : py_scope.
Notation "c ;;; k" := (bind c (fun _ => k))
  (at level 100, right associativity) : py_scope.
Local Open Scope py_scope.

(** ** Logging, shared by both modules *)

Inductive log_level : Type := DEBUG | INFO | WARNING | ERROR.

Record log_record : Type := LogRecord { level : log_level; message : string }.

Definition is_level (l : log_level) (r : log_record) : bool :=
  match l, level r with
  | DEBUG, DEBUG | INFO, INFO | WARNING, WARNING | ERROR, ERROR => true
  | _, _ => false
  end.

(** ** threaded_misp.py: the retrying transport *)

Module ThreadedMisp.

Definition MAX_RETRIES : nat := 3.

(** The [errors] entry of a response: [response["errors"][0]] is the status
    code; [dict(response['errors'])["message"]] may itself raise, which is
    [err_message = None]. *)
Record errors_payload : Type :=
  { err_code : Z; err_message : option string }.

Record response : Type :=
  { errors : option errors_payload; payload : string }.

(** What one invocation of the wrapped call [f] does. *)
Inductive outcome : Type :=
| Responds (r : response)
| Throws (e : exn).

(** What [_retry] does to the outside world, in order. *)
Inductive effect : Type :=
| Called (i : nat)
| Logged (r : log_record)
| Slept (milliseconds : Z).

Definition trace : Type := list effect.

Definition emit (e : effect) : M trace unit := modify (fun t => t ++ [e]).
Definition log_warning (msg : string) : M trace unit :=
  emit (Logged (LogRecord WARNING msg)).
Definition log_error (msg : string) : M trace unit :=
  emit (Logged (LogRecord ERROR msg)).

(** [timeout = 0.3 * 2 ** i] seconds, kept in milliseconds. *)
Definition timeout (i : nat) : Z := 300 * 2 ^ Z.of_nat i.

Definition call (f : nat -> outcome) (i : nat) : M trace response :=
  emit (Called i) ;;;
  match f i with
  | Responds r => ret r
  | Throws e => raise e
  end.

Definition exceeded : string := "Exceeded number of retries.".

(** The body of [for i in range(self.MAX_RETRIES)]. *)
Definition attempt (f : nat -> outcome) (i : nat) : M trace (ctl response) :=
  try_except
    (response <- call f i ;;
     match errors response with
     | None => ret (Return response)
     | Some errs =>
         if err_code errs =? 404 then ret (Return response)
         else if (i + 1 <? MAX_RETRIES)%nat then
           match err_message errs with
           | Some msg => log_warning msg
           | None => raise TypeError
           end ;;;
           log_warning "Retrying request." ;;;
           emit (Slept (timeout i)) ;;;
           ret Continue
         else raise PyMISPError
     end)
    (fun e =>
       if (i + 1 <? MAX_RETRIES)%nat then
         log_warning (exn_name e) ;;;
         log_warning "Retrying request." ;;;
         emit (Slept (timeout i)) ;;;
         ret Continue
       else
         log_error "Unresolvable error received from the MISP server." ;;;
         log_error (exn_name e) ;;;
         log_error exceeded ;;;
         ret Continue).

(** The loop; falling off its end is Python's implicit [return None]. *)
Fixpoint retry_loop (f : nat -> outcome) (rounds : list nat)
  : M trace (option response) :=
  match rounds with
  | [] => ret None
  | i :: rest =>
      c <- attempt f i ;;
      match c with
      | Return r => ret (Some r)
      | Continue => retry_loop f rest
      end
  end.

Definition _retry (f : nat -> outcome) : M trace (option response) :=
  retry_loop f (seq 0 MAX_RETRIES).

(** An attempt that [_retry] treats as failed: an exception, or an error
    payload whose code is not 404. *)
Definition failed (o : outcome) : bool :=
  match o with
  | Throws _ => true
  | Responds r =>
      match errors r with
      | Some errs => negb (err_code errs =? 404)
      | None => false
      end
  end.

(** A response carrying the "not found" code. *)
Definition not_found (o : outcome) : option response :=
  match o with
  | Responds r =>
      match errors r with
      | Some errs => if err_code errs =? 404 then Some r else None
      | None => None
      end
  | Throws _ => None
  end.

Definition calls (t : trace) : list nat :=
  omap (fun e => match e with Called i => Some i | _ => None end) t.

Definition logged (l : log_level) (msg : string) (t : trace) : bool :=
  existsb (fun e => match e with
                    | Logged r => is_level l r && String.eqb (message r) msg
                    | _ => false
                    end) t.

End ThreadedMisp.

(** *** The client object and the calls that go through [_retry] *)

Module MispClient.
Import ThreadedMisp.

(** The part of the [MISP] object the importer touches: the sightings
    counter, and the effects of its transport. *)
Record client : Type :=
  { added_sighting_count : nat; wire : trace }.

Definition on_wire {A} (m : M trace A) : M client A :=
  fun c => let (r, t) := m (wire c) in
           (r, {| added_sighting_count := added_sighting_count c; wire := t |}).

Definition count_sighting : M client unit :=
  modify (fun c => {| added_sighting_count := S (added_sighting_count c);
                      wire := wire c |}).

(** [MISP.add_sighting]: [self._retry(super().add_sighting, ...)], then
    ["errors" not in result], which raises [TypeError] when [_retry] gave
    [None]. *)
Definition add_sighting (f : nat -> outcome) : M client unit :=
  result <- on_wire (_retry f) ;;
  match result with
  | None => raise TypeError
  | Some r =>
      match errors r with
      | Some _ => ret tt
      | None =>
          c <- get ;;
          (if (added_sighting_count c mod 50 =? 0)%nat
              && negb (added_sighting_count c =? 0)%nat
           then on_wire (emit (Logged (LogRecord INFO "sightings added")))
           else ret tt) ;;;
          count_sighting
      end
  end.

End MispClient.

(** ** indicators.py: the data *)

Module Indicators.

Definition uuid : Type := nat.

(** A source record of the CrowdStrike feed: the keys of the dictionary
    that the importer reads.  [None] is a missing key (or [None]). *)
Record indicator : Type :=
  { ind_id : string;
    ind_indicator : option string;
    ind_type : option string;
    ind_last_updated : option Z;
    ind_published_date : option Z;
    ind_uuid : option uuid;
    ind_attribute_timestamp : option Z;
    ind_malware_families : list string;
    ind_labels : list string }.

(** Python truthiness of [ind.get(key)] for a string and for a number. *)
Definition truthy_str (v : option string) : bool :=
  match v with
  | Some s => negb (String.eqb s "")
  | None => false
  end.

Definition truthy_int (v : option Z) : bool :=
  match v with
  | Some z => negb (z =? 0)
  | None => false
  end.

Record MISPAttribute : Type :=
  { att_type : string;
    att_value : string;
    att_uuid : uuid;
    att_tags : list string;
    att_first_seen : option Z;
    att_last_seen : option Z }.

Record MISPObject : Type :=
  { obj_name : string; obj_value : string }.

Record MISPEvent : Type :=
  { info : string;
    event_uuid : uuid;
    attributes : list MISPAttribute;
    objects : list MISPObject;
    threat_level_id : Z }.

Record MISPSighting : Type :=
  { sight_value : string;
    sight_uuid : option uuid;
    sight_timestamp : option Z }.

(** One entry of the deduplication index. *)
Record dedup_entry : Type :=
  { de_uuid : uuid; de_event_uuid : uuid; de_timestamp : Z }.

(** The result of [calculate_seen]: the [first_seen] and [last_seen] keys
    are present only for a truthy source value. *)
Record seen : Type :=
  { first_seen : option Z; last_seen : option Z }.

(** What [gen_indicator] hands back: [False], a [MISPObject], a
    [MISPAttribute] (its type and value), or something else truthy. *)
Inductive generated : Type :=
| GenFalse
| GenObject (o : MISPObject)
| GenAttribute (type value : string)
| GenOther.

(** What the tag collaborators ([tag_attribute_actor] ...
    [tag_attribute_labels]) produce for an indicator: the tags and the
    updated missing-galaxy list, or an exception part of the way. *)
Inductive tagging : Type :=
| Tagged (tags : list string) (missing : option (list string))
| TaggingRaised (e : exn) (missing : option (list string)).

(** One try of [misp.update_event]: how it ended, and the seconds elapsed
    since [save_start] when it did (in milliseconds). *)
Record save_try : Type :=
  { save_error : option exn; elapsed_ms : Z }.

(** The configuration keys the importer reads. *)
Record Settings : Type :=
  { indicator_type_title : option string;
    ind_attribute_batch_size : option Z;
    event_save_memory_refresh_interval : option Z;
    log_duplicates_as_sightings : bool;
    force : bool;
    delete_outdated_indicators : bool;
    miss_track_file : option string }.

(** Everything the class gets from outside [indicators.py]: the helper
    modules of the package that are not part of this development, the two
    remote clients and the clock. *)
Record collaborators : Type :=
  { settings : Settings;
    (** [IndicatorType[NAME].value]; [None] is the [KeyError] of an
        unknown member. *)
    IndicatorType : string -> option string;
    (** [INDICATOR_TYPES.items()] *)
    INDICATOR_TYPES : list (string * string);
    gen_indicator : indicator -> generated;
    (** the title under which the family event of an indicator is looked
        up or created; [None] when the indicator has no family *)
    family_title : indicator -> option string;
    (** uuid and initial threat level of a family event created now *)
    new_family_event : indicator -> uuid * Z;
    check_and_set_threat_level : indicator -> Z -> Z;
    derive_tags : indicator -> option (list string) -> tagging;
    (** PyMISP's validation in [MISPEvent.add_attribute] *)
    attribute_accepted : string -> string -> bool;
    misp_search_attributes : string -> result (list (string * dedup_entry));
    misp_update_event : MISPEvent -> nat -> save_try;
    misp_search_event : uuid -> result (list MISPEvent);
    misp_get_attribute : uuid -> result (option uuid * Z);
    misp_add_sighting : MISPSighting -> nat -> ThreadedMisp.outcome;
    retrieve_or_create_feed_events : list MISPEvent -> list MISPEvent;
    retrieve_family_events : list MISPEvent -> list MISPEvent;
    get_indicators : Z -> bool -> list (list indicator);
    (** [datetime.today()] and [datetime.now()] of [process_indicators],
        in microseconds since the epoch *)
    today_us : Z;
    time_send_request_us : Z }.

(** The mutable state of an [IndicatorsImporter], with the two files it
    writes, the log and the client object. *)
Record importer : Type :=
  { feeds : list MISPEvent;
    dirty_feeds : gmap string nat;
    existing_indicators : gmap string dedup_entry;
    skipped : nat;
    batch_update : nat;
    MISSING_GALAXIES : option (list string);
    log : list log_record;
    timestamp_file : option Z;
    galaxy_miss_file : option (list string);
    sightings : list MISPSighting;
    misp : MispClient.client;
    uuid_source : uuid }.

Definition set_feeds (f : list MISPEvent -> list MISPEvent) (s : importer) : importer :=
  {| feeds := f (feeds s); dirty_feeds := dirty_feeds s;
     existing_indicators := existing_indicators s; skipped := skipped s;
     batch_update := batch_update s; MISSING_GALAXIES := MISSING_GALAXIES s;
     log := log s; timestamp_file := timestamp_file s;
     galaxy_miss_file := galaxy_miss_file s; sightings := sightings s;
     misp := misp s; uuid_source := uuid_source s |}.

Definition set_dirty_feeds (f : gmap string nat -> gmap string nat) (s : importer) : importer :=
  {| feeds := feeds s; dirty_feeds := f (dirty_feeds s);
     existing_indicators := existing_indicators s; skipped := skipped s;
     batch_update := batch_update s; MISSING_GALAXIES := MISSING_GALAXIES s;
     log := log s; timestamp_file := timestamp_file s;
     galaxy_miss_file := galaxy_miss_file s; sightings := sightings s;
     misp := misp s; uuid_source := uuid_source s |}.

Definition set_existing_indicators (f : gmap string dedup_entry -> gmap string dedup_entry)
           (s : importer) : importer :=
  {| feeds := feeds s; dirty_feeds := dirty_feeds s;
     existing_indicators := f (existing_indicators s); skipped := skipped s;
     batch_update := batch_update s; MISSING_GALAXIES := MISSING_GALAXIES s;
     log := log s; timestamp_file := timestamp_file s;
     galaxy_miss_file := galaxy_miss_file s; sightings := sightings s;
     misp := misp s; uuid_source := uuid_source s |}.

Definition set_skipped (f : nat -> nat) (s : importer) : importer :=
  {| feeds := feeds s; dirty_feeds := dirty_feeds s;
     existing_indicators := existing_indicators s; skipped := f (skipped s);
     batch_update := batch_update s; MISSING_GALAXIES := MISSING_GALAXIES s;
     log := log s; timestamp_file := timestamp_file s;
     galaxy_miss_file := galaxy_miss_file s; sightings := sightings s;
     misp := misp s; uuid_source := uuid_source s |}.

Definition set_batch_update (f : nat -> nat) (s : importer) : importer :=
  {| feeds := feeds s; dirty_feeds := dirty_feeds s;
     existing_indicators := existing_indicators s; skipped := skipped s;
     batch_update := f (batch_update s); MISSING_GALAXIES := MISSING_GALAXIES s;
     log := log s; timestamp_file := timestamp_file s;
     galaxy_miss_file := galaxy_miss_file s; sightings := sightings s;
     misp := misp s; uuid_source := uuid_source s |}.

Definition set_MISSING_GALAXIES (m : option (list string)) (s : importer) : importer :=
  {| feeds := feeds s; dirty_feeds := dirty_feeds s;
     existing_indicators := existing_indicators s; skipped := skipped s;
     batch_update := batch_update s; MISSING_GALAXIES := m;
     log := log s; timestamp_file := timestamp_file s;
     galaxy_miss_file := galaxy_miss_file s; sightings := sightings s;
     misp := misp s; uuid_source := uuid_source s |}.

Definition add_log (r : log_record) (s : importer) : importer :=
  {| feeds := feeds s; dirty_feeds := dirty_feeds s;
     existing_indicators := existing_indicators s; skipped := skipped s;
     batch_update := batch_update s; MISSING_GALAXIES := MISSING_GALAXIES s;
     log := log s ++ [r]; timestamp_file := timestamp_file s;
     galaxy_miss_file := galaxy_miss_file s; sightings := sightings s;
     misp := misp s; uuid_source := uuid_source s |}.

Definition set_timestamp_file (t : Z) (s : importer) : importer :=
  {| feeds := feeds s; dirty_feeds := dirty_feeds s;
     existing_indicators := existing_indicators s; skipped := skipped s;
     batch_update := batch_update s; MISSING_GALAXIES := MISSING_GALAXIES s;
     log := log s; timestamp_file := Some t;
     galaxy_miss_file := galaxy_miss_file s; sightings := sightings s;
     misp := misp s; uuid_source := uuid_source s |}.

Definition set_galaxy_miss_file (l : list string) (s : importer) : importer :=
  {| feeds := feeds s; dirty_feeds := dirty_feeds s;
     existing_indicators := existing_indicators s; skipped := skipped s;
     batch_update := batch_update s; MISSING_GALAXIES := MISSING_GALAXIES s;
     log := log s; timestamp_file := timestamp_file s;
     galaxy_miss_file := Some l; sightings := sightings s;
     misp := misp s; uuid_source := uuid_source s |}.

Definition add_sent_sighting (x : MISPSighting) (s : importer) : importer :=
  {| feeds := feeds s; dirty_feeds := dirty_feeds s;
     existing_indicators := existing_indicators s; skipped := skipped s;
     batch_update := batch_update s; MISSING_GALAXIES := MISSING_GALAXIES s;
     log := log s; timestamp_file := timestamp_file s;
     galaxy_miss_file := galaxy_miss_file s; sightings := sightings s ++ [x];
     misp := misp s; uuid_source := uuid_source s |}.

Definition set_misp (c : MispClient.client) (s : importer) : importer :=
  {| feeds := feeds s; dirty_feeds := dirty_feeds s;
     existing_indicators := existing_indicators s; skipped := skipped s;
     batch_update := batch_update s; MISSING_GALAXIES := MISSING_GALAXIES s;
     log := log s; timestamp_file := timestamp_file s;
     galaxy_miss_file := galaxy_miss_file s; sightings := sightings s;
     misp := c; uuid_source := uuid_source s |}.

Definition bump_uuid_source (s : importer) : importer :=
  {| feeds := feeds s; dirty_feeds := dirty_feeds s;
     existing_indicators := existing_indicators s; skipped := skipped s;
     batch_update := batch_update s; MISSING_GALAXIES := MISSING_GALAXIES s;
     log := log s; timestamp_file := timestamp_file s;
     galaxy_miss_file := galaxy_miss_file s; sightings := sightings s;
     misp := misp s; uuid_source := S (uuid_source s) |}.

(** The importer as [__init__] leaves it. *)
Definition fresh_importer (previous_timestamp : option Z) : importer :=
  {| feeds := []; dirty_feeds := ∅; existing_indicators := ∅; skipped := 0;
     batch_update := 0; MISSING_GALAXIES := None; log := [];
     timestamp_file := previous_timestamp; galaxy_miss_file := None;
     sightings := [];
     misp := {| MispClient.added_sighting_count := 0; MispClient.wire := [] |};
     uuid_source := 0%nat |}.

Definition log_at (l : log_level) (msg : string) : M importer unit :=
  modify (add_log (LogRecord l msg)).

Definition on_client {A} (m : M MispClient.client A) : M importer A :=
  fun s => let (r, c) := m (misp s) in (r, set_misp c s).

(** [str.upper()] on ASCII. *)
Definition upper_ascii (c : ascii) : ascii :=
  let n := nat_of_ascii c in
  if ((97 <=? n) && (n <=? 122))%nat then ascii_of_nat (n - 32) else c.

Fixpoint upper (s : string) : string :=
  match s with
  | EmptyString => EmptyString
  | String c rest => String (upper_ascii c) (upper rest)
  end.

(** A dictionary comprehension [{k: v for ...}]: a later pair with the same
    key replaces the earlier one. *)
Definition dict_of {V} (pairs : list (string * V)) : gmap string V :=
  list_to_map (reverse pairs).

Section Importer.

Variable env : collaborators.

(** *** The container registry *)

(** The events of [self.feeds] are referred to by position: workers only
    ever append to the list, so a position keeps naming the same
    object for as long as a worker holds it. *)
Fixpoint find_event (title : string) (evts : list MISPEvent) : option nat :=
  match evts with
  | [] => None
  | e :: rest =>
      if String.eqb title (info e) then Some 0%nat
      else S <$> find_event title rest
  end.

Definition event_at (pos : nat) (s : importer) : option MISPEvent :=
  feeds s !! pos.

Definition set_attributes (f : list MISPAttribute -> list MISPAttribute)
           (e : MISPEvent) : MISPEvent :=
  {| info := info e; event_uuid := event_uuid e; attributes := f (attributes e);
     objects := objects e; threat_level_id := threat_level_id e |}.

Definition set_objects (f : list MISPObject -> list MISPObject)
           (e : MISPEvent) : MISPEvent :=
  {| info := info e; event_uuid := event_uuid e; attributes := attributes e;
     objects := f (objects e); threat_level_id := threat_level_id e |}.

Definition set_threat_level (l : Z) (e : MISPEvent) : MISPEvent :=
  {| info := info e; event_uuid := event_uuid e; attributes := attributes e;
     objects := objects e; threat_level_id := l |}.

Definition update_event_at (pos : nat) (f : MISPEvent -> MISPEvent) : M importer unit :=
  modify (set_feeds (alter f pos)).

(** Modelled from the spec: [find_or_create_family_event] of
    [indicator_family.py], which is not part of this development.  The
    registry is "keyed by a human-readable title" and resolves a family
    container by lookup-or-create: the event with the family's title if
    [self.feeds] has one, else a new event without attributes appended
    to [self.feeds]. *)
Definition find_or_create_family_event (ind : indicator) : M importer (option nat) :=
  match family_title env ind with
  | None => ret None
  | Some title =>
      s <- get ;;
      match find_event title (feeds s) with
      | Some pos => ret (Some pos)
      | None =>
          let '(u, level) := new_family_event env ind in
          modify (set_feeds (fun evts =>
            evts ++ [ {| info := title; event_uuid := u; attributes := [];
                         objects := []; threat_level_id := level |} ])) ;;;
          ret (Some (length (feeds s)))
      end
  end.

(** [{iv.value: iv.uuid for iv in event.attributes}] *)
Definition value_index (e : MISPEvent) : gmap string uuid :=
  dict_of ((fun a => (att_value a, att_uuid a)) <$> attributes e).

Definition contains (d : gmap string uuid) (key : option string) : bool :=
  match key with
  | Some k => bool_decide (is_Some (d !! k))
  | None => false
  end.

(** *** [add_indicator_event], lines 513-535: resolve the containers and
    compute the duplicate flags *)

(** The local variables of [add_indicator_event] once the flags are
    computed. *)
Record flags : Type :=
  { event : option nat;
    mal_event : option nat;
    attribute_list : gmap string uuid;
    mal_attribute_list : gmap string uuid;
    evt_dupe : bool;
    mal_dupe : bool }.

Definition type_title (itype : string) : string :=
  default "Indicator Type:" (indicator_type_title (settings env)) +:+ " " +:+ itype.

Definition index_of (pos : option nat) (s : importer) : gmap string uuid :=
  match pos with
  | Some p => match event_at p s with
              | Some e => value_index e
              | None => ∅
              end
  | None => ∅
  end.

Definition compute_flags (ind : indicator) : M importer flags :=
  itype <- match ind_type ind with
           | None => raise AttributeError
           | Some t => match IndicatorType env (upper t) with
                       | None => raise KeyError
                       | Some v => ret v
                       end
           end ;;
  s0 <- get ;;
  let event := find_event (type_title itype) (feeds s0) in
  mal_event <- find_or_create_family_event ind ;;
  s <- get ;;
  let indicator_value := ind_indicator ind in
  let attribute_list := index_of event s in
  let mal_attribute_list := index_of mal_event s in
  ret {| event := event; mal_event := mal_event;
         attribute_list := attribute_list;
         mal_attribute_list := mal_attribute_list;
         evt_dupe := contains attribute_list indicator_value;
         mal_dupe := contains mal_attribute_list indicator_value |}.

(** *** Attaching attributes, tags and sightings *)

Definition calculate_seen (ind : indicator) : seen :=
  {| first_seen := if truthy_int (ind_published_date ind)
                   then ind_published_date ind else None;
     last_seen := if truthy_int (ind_last_updated ind)
                  then ind_last_updated ind else None |}.

(** [evt.add_attribute(type, value, **when)]: PyMISP builds the attribute
    under a new uuid and appends it to [evt.attributes], or raises. *)
Definition add_attribute (pos : nat) (type value : string) (when : seen)
  : M importer uuid :=
  if attribute_accepted env type value then
    s <- get ;;
    let u := uuid_source s in
    modify bump_uuid_source ;;;
    update_event_at pos (set_attributes (fun atts => atts ++
      [ {| att_type := type; att_value := value; att_uuid := u; att_tags := [];
           att_first_seen := first_seen when; att_last_seen := last_seen when |} ])) ;;;
    ret u
  else raise NewAttributeError.

Definition add_tag (tag : string) (a : MISPAttribute) : MISPAttribute :=
  {| att_type := att_type a; att_value := att_value a; att_uuid := att_uuid a;
     att_tags := att_tags a ++ [tag];
     att_first_seen := att_first_seen a; att_last_seen := att_last_seen a |}.

(** [evt.add_attribute_tag(tag, uuid)] *)
Definition add_attribute_tag (pos : nat) (tag : string) (u : uuid) : M importer unit :=
  update_event_at pos (set_attributes (fmap (fun a =>
    if (att_uuid a =? u)%nat then add_tag tag a else a))).

Definition mark_dirty (title : string) : M importer unit :=
  modify (set_dirty_feeds (fun d =>
    match d !! title with
    | None => <[title := 1%nat]> d
    | Some n => <[title := (n + 1)%nat]> d
    end)).

Definition log_exception (e : exn) : M importer unit :=
  log_at ERROR (exn_name e) ;;;
  log_at ERROR "exception type, line and file".

Definition process_attribute_tags (ind : indicator) (u : uuid) (pos : nat)
  : M importer unit :=
  try_except
    (s <- get ;;
     match derive_tags env ind (MISSING_GALAXIES s) with
     | TaggingRaised e missing =>
         modify (set_MISSING_GALAXIES missing) ;;; raise e
     | Tagged tagging_list missing =>
         modify (set_MISSING_GALAXIES missing) ;;;
         for_each tagging_list (fun tag => add_attribute_tag pos tag u) ;;;
         s <- get ;;
         match event_at pos s with
         | Some evt => mark_dirty (info evt)
         | None => ret tt
         end
     end)
    log_exception.

Definition add_and_tag_attribute (ind : indicator) (type value : string)
           (pos : nat) (when : seen) : M importer nat :=
  try_except
    (u <- add_attribute pos type value when ;;
     process_attribute_tags ind u pos ;;;
     log_at DEBUG "Added indicators to event" ;;;
     ret 1%nat)
    (fun oops =>
       log_exception oops ;;;
       log_at ERROR "Could not refresh event in memory" ;;;
       ret 0%nat).

(** [self.misp.add_sighting(sght, lock=tlock)] *)
Definition send_sighting (x : MISPSighting) : M importer unit :=
  modify (add_sent_sighting x) ;;;
  on_client (MispClient.add_sighting (misp_add_sighting env x)).

Definition as_int (v : option Z) : Z := default 0 v.

Definition add_sighting_to_attribute (att : option string)
           (att_list : gmap string uuid) (when : seen) : M importer unit :=
  try_except
    (key <- match att with
            | Some a => match att_list !! a with
                        | Some u => ret (a, u)
                        | None => raise KeyError
                        end
            | None => raise KeyError
            end ;;
     ind_obj <- (fun s => (misp_get_attribute env (snd key), s)) ;;
     if as_int (last_seen when) >? snd ind_obj then
       send_sighting {| sight_value := fst key; sight_uuid := fst ind_obj;
                        sight_timestamp := last_seen when |} ;;;
       log_at DEBUG "Adding sighting"
     else
       log_at DEBUG "Skipping addition as already present" ;;;
       modify (set_skipped S))
    (fun oops =>
       log_exception oops ;;;
       log_at ERROR "Could not add sighting").

Definition add_report_sighting (when : seen) (ind_value : string)
           (ind_uuid : option uuid) (ind_timestamp : Z) : M importer unit :=
  let last := as_int (last_seen when) in
  if negb (last =? 0) && negb (last =? ind_timestamp) then
    send_sighting {| sight_value := ind_value; sight_uuid := ind_uuid;
                     sight_timestamp := last_seen when |} ;;;
    log_at DEBUG "Adding sighting (report)"
  else ret tt.

Definition add_indicator_obj (obj : MISPObject) (evt mal : option nat)
  : M importer unit :=
  match evt with
  | Some p => update_event_at p (set_objects (fun os => os ++ [obj]))
  | None => ret tt
  end ;;;
  match mal with
  | Some p => update_event_at p (set_objects (fun os => os ++ [obj]))
  | None => ret tt
  end.

(** *** [add_indicator_event], lines 537-605: act on the flags *)

(** The [if event:] block, returning [feed_result] and [SIGHTED]. *)
Definition attach_to_event (ind : indicator) (fl : flags) (type value : string)
           (when : seen) (do_sightings : bool) : M importer (nat * bool) :=
  match event fl with
  | Some p =>
      if negb (evt_dupe fl) then
        feed_result <- add_and_tag_attribute ind type value p when ;;
        ret (feed_result, false)
      else if do_sightings then
        add_sighting_to_attribute (ind_indicator ind) (attribute_list fl) when ;;;
        ret (0%nat, true)
      else ret (0%nat, false)
  | None => ret (0%nat, false)
  end.

(** The [if mal_event:] block, returning [fam_result] and whether it set
    [SIGHTED]. *)
Definition attach_to_family (ind : indicator) (fl : flags) (type value : string)
           (when : seen) (do_sightings : bool) : M importer (nat * bool) :=
  match mal_event fl with
  | Some p =>
      update_event_at p (fun e =>
        set_threat_level (check_and_set_threat_level env ind (threat_level_id e)) e) ;;;
      if negb (mal_dupe fl) then
        fam_result <- add_and_tag_attribute ind type value p when ;;
        ret (fam_result, false)
      else if negb (contains (attribute_list fl) (ind_indicator ind)) && do_sightings then
        add_sighting_to_attribute (ind_indicator ind) (mal_attribute_list fl) when ;;;
        ret (0%nat, true)
      else ret (0%nat, false)
  | None => ret (0%nat, false)
  end.

Definition apply_flags (ind : indicator) (fl : flags) : M importer (nat * nat) :=
  let indicator_value := ind_indicator ind in
  let do_sightings := log_duplicates_as_sightings (settings env) in
  if negb do_sightings && (mal_dupe fl && evt_dupe fl) then
    modify (set_skipped S) ;;;
    ret (0%nat, 0%nat)
  else if truthy_str indicator_value then
    match gen_indicator env ind with
    | GenFalse => ret (0%nat, 0%nat)
    | GenObject indicator_object =>
        add_indicator_obj indicator_object (event fl) (mal_event fl) ;;;
        ret (0%nat, 0%nat)
    | GenAttribute type value =>
        let when := calculate_seen ind in
        feed <- attach_to_event ind fl type value when do_sightings ;;
        fam <- attach_to_family ind fl type value when do_sightings ;;
        let SIGHTED := snd feed || snd fam in
        s <- get ;;
        (if negb SIGHTED
            && bool_decide (is_Some (existing_indicators s !! default ""%string indicator_value))
            && do_sightings
         then add_report_sighting when (default ""%string indicator_value)
                (ind_uuid ind) (as_int (ind_attribute_timestamp ind))
         else ret tt) ;;;
        (if negb (fst feed =? 0)%nat || negb (fst fam =? 0)%nat
         then log_at DEBUG "Creating attribute for indicator"
         else ret tt) ;;;
        ret (fst feed, fst fam)
    | GenOther =>
        log_at WARNING "Couldn't generate indicator object to attach to event, skipping." ;;;
        ret (0%nat, 0%nat)
    end
  else
    log_at WARNING "Indicator missing indicator field." ;;;
    ret (0%nat, 0%nat).

Definition add_indicator_event (ind : indicator) : M importer (nat * nat) :=
  fl <- compute_flags ind ;;
  apply_flags ind fl.

(** *** [indicator_thread] and the worker pool *)

Definition indicator_thread (ind : indicator) : M importer (nat * nat) :=
  let iname := ind_indicator ind in
  if truthy_str iname then
    r <- add_indicator_event ind ;;
    modify (set_batch_update S) ;;;
    s <- get ;;
    (if (batch_update s mod 100 =? 0)%nat
     then log_at INFO "indicators processed" else ret tt) ;;;
    ret r
  else
    (* [feed_return] and [fam_return] were never assigned *)
    raise UnboundLocalError.

(** A [ThreadPoolExecutor]: every submitted task runs to its end, whether
    or not another one raised; a future keeps what its task did.  The
    tasks are run here one after the other, in submission order, which
    is the schedule of a pool of one thread; [run_schedule] below gives
    the others for the indicator workers. *)
Fixpoint run_pool {A} (tasks : list (M importer A)) (s : importer)
  : list (result A) * importer :=
  match tasks with
  | [] => ([], s)
  | task :: rest =>
      let (r, s1) := task s in
      let (rs, s2) := run_pool rest s1 in
      (r :: rs, s2)
  end.

Definition submit_all {A} (tasks : list (M importer A)) : M importer (list (result A)) :=
  fun s => let (futures, s') := run_pool tasks s in (Ret futures, s').

(** [fut.result()]: the task's value, or its exception raised again. *)
Definition future_result {A} (fut : result A) : M importer A :=
  fun s => (fut, s).

Record tally : Type :=
  { total_this_round : nat;
    feed_success : nat; feed_failed : nat;
    fam_success : nat; fam_failed : nat }.

Definition count_result (t : tally) (r : nat * nat) : tally :=
  {| total_this_round := S (total_this_round t);
     feed_success := if (fst r =? 0)%nat then feed_success t else S (feed_success t);
     feed_failed := if (fst r =? 0)%nat then S (feed_failed t) else feed_failed t;
     fam_success := if (snd r =? 0)%nat then fam_success t else S (fam_success t);
     fam_failed := if (snd r =? 0)%nat then S (fam_failed t) else fam_failed t |}.

Fixpoint collect_results (futures : list (result (nat * nat))) (t : tally)
  : M importer tally :=
  match futures with
  | [] => ret t
  | fut :: rest =>
      r <- future_result fut ;;
      collect_results rest (count_result t r)
  end.

Definition process_indicator_batch (batch_to_process : list indicator)
  : M importer tally :=
  modify (set_batch_update (fun _ => 0%nat)) ;;;
  futures <- submit_all (indicator_thread <$> batch_to_process) ;;
  collect_results futures
    {| total_this_round := 0; feed_success := 0; feed_failed := 0;
       fam_success := 0; fam_failed := 0 |}.

(** *** The flush: [get_laundry], [event_thread], [clean_laundry] *)

(** [d[k] = v] on a dictionary kept in insertion order. *)
Fixpoint dict_set {V} (k : string) (v : V) (d : list (string * V)) : list (string * V) :=
  match d with
  | [] => [(k, v)]
  | (k', v') :: rest =>
      if String.eqb k k' then (k', v) :: rest else (k', v') :: dict_set k v rest
  end.

Definition get_laundry (s : importer) : list (string * (MISPEvent * nat)) :=
  fold_left (fun laundry fe =>
               match dirty_feeds s !! info fe with
               | Some count => dict_set (info fe) (fe, count) laundry
               | None => laundry
               end)
            (feeds s) [].

Definition refresh_tolerance : Z :=
  Z.max 30 (Z.min 300 (default 60 (event_save_memory_refresh_interval (settings env)))).

(** [self.feeds.pop(pos)] then [self.feeds.append(refreshed)], once per
    event the search returns. *)
Fixpoint refresh_each (pos : nat) (found : list MISPEvent) (confirm : nat)
  : M importer unit :=
  match found with
  | [] => ret tt
  | newer :: rest =>
      s <- get ;;
      (if (pos <? length (feeds s))%nat
       then modify (set_feeds (fun evts => delete pos evts ++ [newer]))
       else raise IndexError) ;;;
      log_at INFO "refreshed in memory." ;;;
      (if negb (confirm =? 0)%nat
       then log_at WARNING "More events returned for refresh event than expected"
       else ret tt) ;;;
      refresh_each pos rest (S confirm)
  end.

Definition refresh_in_memory (evt : MISPEvent) (duration_ms : Z) : M importer unit :=
  try_except
    (if duration_ms >? refresh_tolerance * 1000 then
       s <- get ;;
       let pos := default (length (feeds s)) (find_event (info evt) (feeds s)) in
       log_at DEBUG "Refreshing memory logged event" ;;;
       found <- (fun s => (misp_search_event env (event_uuid evt), s)) ;;
       refresh_each pos found 0
     else ret tt)
    (fun oops =>
       log_exception oops ;;;
       log_at ERROR "Could not refresh event in memory").

(** The [while tries < 4 and not successful] loop, over the values that
    [tries] takes; it returns [successful]. *)
Fixpoint save_loop (evt : MISPEvent) (tries : list nat) : M importer bool :=
  match tries with
  | [] => ret false
  | try :: rest =>
      let this := misp_update_event env evt try in
      successful <-
        try_except_only [SSLError; ConnectionError; MISPServerError]
          (match save_error this with
           | None => ret true
           | Some e => raise e
           end)
          (fun _ => log_at WARNING "Connection failure, could not save event." ;;;
                    ret false) ;;
      if negb successful then
        log_at WARNING "Unable to update with new indicators." ;;;
        save_loop evt rest
      else
        log_at INFO "Updated with new indicators." ;;;
        refresh_in_memory evt (elapsed_ms this) ;;;
        ret true
  end.

Definition unable_to_update : log_record :=
  LogRecord ERROR "Unable to update with new indicators.".

Definition event_thread (evt : MISPEvent) (ind_count : nat) : M importer string :=
  successful <- save_loop evt [1; 2; 3]%nat ;;
  (if negb successful then modify (add_log unable_to_update) else ret tt) ;;;
  ret (info evt).

(** The pool of [clean_laundry]: one [event_thread] per entry, and the
    titles they return. *)
Definition clean_laundry_from (dirty : list (string * (MISPEvent * nat)))
  : M importer (list string) :=
  futures <- submit_all ((fun feed_data => event_thread (fst (snd feed_data))
                                                        (snd (snd feed_data)))
                         <$> dirty) ;;
  for_collect futures future_result.

Definition clean_laundry : M importer (list string) :=
  s <- get ;;
  let dirty := get_laundry s in
  log_at INFO "This batch produced indicators for events." ;;;
  log_at INFO "indicator type and malware family event updates were skipped." ;;;
  clean_laundry_from dirty.

(** [self.dirty_feeds.pop(cleaned)] *)
Definition pop_dirty (cleaned : string) : M importer unit :=
  s <- get ;;
  match dirty_feeds s !! cleaned with
  | Some _ => modify (set_dirty_feeds (delete cleaned))
  | None => raise KeyError
  end.

(** *** [push_indicators] and the checkpoint *)

Definition IND_BATCH_SIZE : Z :=
  Z.max 50 (Z.min 5000 (default 500 (ind_attribute_batch_size (settings env)))).

(** [[indicators[i:i+size] for i in range(0, len(indicators), size)]] *)
Fixpoint slices {A} (size : nat) (rounds : nat) (l : list A) : list (list A) :=
  match rounds, l with
  | _, [] => []
  | O, _ => []
  | S rounds', _ => take size l :: slices size rounds' (drop size l)
  end.

Definition ind_batches (indicators : list indicator) : list (list indicator) :=
  slices (Z.to_nat IND_BATCH_SIZE) (length indicators) indicators.

(** The argument of [_note_timestamp] and its [int(timestamp)]: the
    string of an integer, or the float of [datetime.timestamp()], kept
    in microseconds. *)
Inductive timestamp_arg : Type :=
| OfStr (z : Z)
| OfFloat (microseconds : Z).

Definition py_int (t : timestamp_arg) : Z :=
  match t with
  | OfStr z => z
  | OfFloat us => Z.quot us 1000000
  end.

Definition _note_timestamp (timestamp : timestamp_arg) : M importer unit :=
  modify (set_timestamp_file (py_int timestamp)) ;;;
  s <- get ;;
  match MISSING_GALAXIES s with
  | Some (g :: gs) =>
      for_each (g :: gs) (fun _galaxy =>
        log_at WARNING "No galaxy mapping found for malware family.") ;;;
      modify (set_galaxy_miss_file (g :: gs))
  | _ => ret tt
  end.

(** [next(i.get('last_updated') for i in reversed(indicators)
         if i.get('last_updated') is not None)], on the reversed list. *)
Fixpoint next_last_updated (reversed : list indicator) : result Z :=
  match reversed with
  | [] => Raise StopIteration
  | i :: rest =>
      match ind_last_updated i with
      | Some t => Ret t
      | None => next_last_updated rest
      end
  end.

(** One round of [for batch in ind_batches].  Its first statement,
    [self.misp.added_sightings_count = 0], sets an attribute that
    nothing reads (the counter is [added_sighting_count]). *)
Definition process_batch (batch : list indicator) : M importer unit :=
  log_at INFO "Processing batch of indicators." ;;;
  counts <- process_indicator_batch batch ;;
  saved <- clean_laundry ;;
  for_each saved pop_dirty ;;;
  log_at DEBUG "Processed indicators for import into MISP." ;;;
  log_at DEBUG "pushed so far out of this batch".

(** Lines 354-384: the batches of one page. *)
Definition push_batches (indicators : list indicator) : M importer unit :=
  log_at DEBUG "Configuration states the batch size." ;;;
  for_each (ind_batches indicators) process_batch ;;;
  log_at INFO "Pushed indicators into MISP.".

(** Lines 386-389: the checkpoint of the page. *)
Definition push_indicators (indicators : list indicator) : M importer unit :=
  push_batches indicators ;;;
  last_updated <- (fun s => (next_last_updated (reverse indicators), s)) ;;
  _note_timestamp (OfStr last_updated).

(** *** The deduplication index *)

Definition search_warning : log_record :=
  LogRecord WARNING "Unable to retrieve attributes for duplicate checking.".

Definition attribute_search (att_name att_type : string)
  : M importer (option (gmap string dedup_entry)) :=
  try_except_only [SSLError; ConnectionError]
    (found <- (fun s => (misp_search_attributes env att_type, s)) ;;
     let clean_result := dict_of found in
     log_at INFO "Retrieved indicators from MISP." ;;;
     ret (Some clean_result))
    (fun _ => modify (add_log search_warning) ;;; ret None).

(** [retrieved_indicators.update(fut.result())] for each future;
    [dict.update(None)] raises [TypeError]. *)
Fixpoint merge_results (futures : list (result (option (gmap string dedup_entry))))
         (retrieved : gmap string dedup_entry) : M importer (gmap string dedup_entry) :=
  match futures with
  | [] => ret retrieved
  | fut :: rest =>
      r <- future_result fut ;;
      match r with
      | Some found => merge_results rest (found ∪ retrieved)
      | None => raise TypeError
      end
  end.

Definition find_report_indicators : M importer unit :=
  futures <- submit_all ((fun p => attribute_search (fst p) (snd p))
                         <$> filter (fun p => negb (String.eqb (snd p) ""))
                                    (INDICATOR_TYPES env)) ;;
  retrieved_indicators <- merge_results futures ∅ ;;
  s <- get ;;
  let non_report_ids := event_uuid <$> feeds s in
  modify (set_existing_indicators (fun existing =>
    filter (fun kv => de_event_uuid (snd kv) ∉ non_report_ids) retrieved_indicators
    ∪ existing)) ;;;
  log_at INFO "Found pre-existing indicators within CrowdStrike reports.".

(** *** [process_indicators], the entry point *)

Fixpoint push_pages (pages : list (list indicator)) (indicators_count : nat)
  : M importer nat :=
  match pages with
  | [] => ret indicators_count
  | indicators_page :: rest =>
      push_indicators indicators_page ;;;
      push_pages rest (indicators_count + length indicators_page)%nat
  end.

Definition process_indicators (indicators_mins_before : Z) : M importer unit :=
  log_at INFO "Retrieving lookup data for import of CrowdStrike indicators into MISP." ;;;
  s <- get ;;
  let start_get_events :=
    match (if force (settings env) then None else timestamp_file s) with
    | Some line => line
    | None => py_int (OfFloat (today_us env
                               - 60000000 * Z.min indicators_mins_before 20220))
    end in
  let time_send_request := time_send_request_us env in
  modify (set_feeds (retrieve_or_create_feed_events env)) ;;;
  modify (set_feeds (retrieve_family_events env)) ;;;
  find_report_indicators ;;;
  log_at INFO "Starting import of CrowdStrike indicators into MISP." ;;;
  indicators_count <-
    push_pages (get_indicators env start_get_events
                               (delete_outdated_indicators (settings env))) 0 ;;
  (if (indicators_count =? 0)%nat
   then _note_timestamp (OfFloat time_send_request)
   else ret tt) ;;;
  log_at INFO "Finished importing CrowdStrike Threat Intelligence indicators into MISP.".

(** *** The indicator workers as threads

No lock is held between the computation of the duplicate flags
(line 535) and the appends that depend on them (lines 558, 575), so
another worker of the pool can run in between.  A worker is cut
there into two steps; [indicator_thread] is the first followed at
once by the second. *)

Definition indicator_thread_begin (ind : indicator) : M importer flags :=
  if truthy_str (ind_indicator ind) then compute_flags ind
  else raise UnboundLocalError.

Definition indicator_thread_finish (ind : indicator) (fl : flags)
  : M importer (nat * nat) :=
  r <- apply_flags ind fl ;;
  modify (set_batch_update S) ;;;
  s <- get ;;
  (if (batch_update s mod 100 =? 0)%nat
   then log_at INFO "indicators processed" else ret tt) ;;;
  ret r.

Inductive worker : Type :=
| Submitted (ind : indicator)
| Flagged (ind : indicator) (fl : flags)
| Finished (fut : result (nat * nat)).

(** One step of one worker. *)
Definition step_worker (w : worker) (s : importer) : worker * importer :=
  match w with
  | Submitted ind =>
      match indicator_thread_begin ind s with
      | (Ret fl, s') => (Flagged ind fl, s')
      | (Raise e, s') => (Finished (Raise e), s')
      end
  | Flagged ind fl =>
      let (r, s') := indicator_thread_finish ind fl s in (Finished r, s')
  | Finished fut => (Finished fut, s)
  end.

(** A schedule names, step after step, the worker that runs next. *)
Fixpoint run_schedule (schedule : list nat) (workers : list worker) (s : importer)
  : list worker * importer :=
  match schedule with
  | [] => (workers, s)
  | k :: rest =>
      match workers !! k with
      | Some w =>
          let (w', s') := step_worker w s in
          run_schedule rest (<[k := w']> workers) s'
      | None => run_schedule rest workers s
      end
  end.

(** The values attached to a container. *)
Definition values_of (e : MISPEvent) : list string :=
  att_value <$> attributes e.

(** The dirty-set handling of [push_indicators] for one batch: the flush
    and the removal of what it returned. *)
Definition flush : M importer unit :=
  saved <- clean_laundry ;;
  for_each saved pop_dirty.

End Importer.

End Indicators.

(** ** Frame conditions

What a method leaves alone is stated as [keeps R m] for a relation [R]
between the state before and the state after.  The classes below say
which writes a relation is indifferent to. *)

Module Frames.
Import Indicators.

(** Indifferent to the log, the counters, the client object, the sightings
    sent, the uuid source, the deduplication index and the galaxy file. *)
Class Quiet (R : importer -> importer -> Prop) : Prop :=
  { quiet_preorder :: PreOrder R;
    quiet_log : forall r s, R s (add_log r s);
    quiet_skipped : forall f s, R s (set_skipped f s);
    quiet_batch_update : forall f s, R s (set_batch_update f s);
    quiet_missing : forall m s, R s (set_MISSING_GALAXIES m s);
    quiet_sighting : forall x s, R s (add_sent_sighting x s);
    quiet_misp : forall c s, R s (set_misp c s);
    quiet_uuid : forall s, R s (bump_uuid_source s);
    quiet_existing : forall f s, R s (set_existing_indicators f s);
    quiet_miss_file : forall l s, R s (set_galaxy_miss_file l s) }.

(** Indifferent to the dirty set. *)
Class QuietDirty (R : importer -> importer -> Prop) : Prop :=
  quiet_dirty : forall f s, R s (set_dirty_feeds f s).

(** Indifferent to the registry altogether. *)
Class QuietFeeds (R : importer -> importer -> Prop) : Prop :=
  quiet_feeds : forall f s, R s (set_feeds f s).

(** The checkpoint file is as it was. *)
Definition same_checkpoint (s s' : importer) : Prop :=
  timestamp_file s' = timestamp_file s.

(** Nothing is taken out of the log. *)
Definition log_grows (s s' : importer) : Prop :=
  forall r, In r (log s) -> In r (log s').

(** The dirty set is as it was. *)
Definition same_dirty (s s' : importer) : Prop :=
  dirty_feeds s' = dirty_feeds s.

(** The values attached to each container, in registry order. *)
Definition vals (s : importer) : list (list string) :=
  values_of <$> feeds s.

Definition same_values (s s' : importer) : Prop :=
  vals s' = vals s.

(** The [last_updated] values of a page that are not null, in page
    order. *)
Definition page_values (page : list indicator) : list Z :=
  omap ind_last_updated page.

(** [t] is the last non-null [last_updated] value of the page: every
    indicator after the one that carries it has none. *)
Definition last_non_null (page : list indicator) (t : Z) : Prop :=
  exists before i after,
    page = before ++ i :: after
    /\ ind_last_updated i = Some t
    /\ Forall (fun j => ind_last_updated j = None) after.

(** [v] appended to the values of the container at [pos], if [b]. *)
Definition attach_value (b : bool) (pos : option nat) (v : string)
           (V : list (list string)) : list (list string) :=
  if b then
    match pos with
    | Some p => alter (fun l => l ++ [v]) p V
    | None => V
    end
  else V.

(** Two facts about the helper modules that the invariant below relies
    on: the attribute [gen_indicator] builds carries the indicator's own
    value, and no family event bears the title of a type event. *)
Definition value_kept (env : collaborators) : Prop :=
  forall ind type value,
    gen_indicator env ind = GenAttribute type value -> ind_indicator ind = Some value.

Definition families_apart (env : collaborators) : Prop :=
  forall ind title itype,
    family_title env ind = Some title -> title <> type_title env itype.

(** No container holds a value twice. *)
Definition no_duplicates (s : importer) : Prop :=
  Forall (fun e => NoDup (values_of e)) (feeds s).

Definition preserves_no_duplicates (s s' : importer) : Prop :=
  no_duplicates s -> no_duplicates s'.

End Frames.

(** ** Sample data for the examples *)

Module Sample.
Import ThreadedMisp Indicators.

Definition ok_response : response := {| errors := None; payload := "ok" |}.

Definition error_response (code : Z) : response :=
  {| errors := Some {| err_code := code; err_message := Some "error" |};
     payload := "" |}.

(** A server that is down, one that answers 403, one that answers 404 on
    the third attempt. *)
Definition always_down (i : nat) : outcome := Throws ConnectionError.
Definition always_forbidden (i : nat) : outcome := Responds (error_response 403).
Definition not_found_at (k : nat) (i : nat) : outcome :=
  if (i =? k)%nat then Responds (error_response 404) else Throws ConnectionError.

Definition domain (value : option string) (last_updated : option Z) : indicator :=
  {| ind_id := "domain_evil"; ind_indicator := value; ind_type := Some "domain";
     ind_last_updated := last_updated; ind_published_date := Some 900;
     ind_uuid := None; ind_attribute_timestamp := None;
     ind_malware_families := []; ind_labels := [] |}.

Definition evil : indicator := domain (Some "evil.example") (Some 1000).
Definition valueless : indicator := domain None (Some 1000).
Definition other : indicator := domain (Some "other.example") (Some 1001).

Definition domain_event : MISPEvent :=
  {| info := "Indicator Type: Domain"; event_uuid := 7%nat; attributes := [];
     objects := []; threat_level_id := 4 |}.

Definition default_settings : Settings :=
  {| indicator_type_title := None; ind_attribute_batch_size := None;
     event_save_memory_refresh_interval := None;
     log_duplicates_as_sightings := false; force := false;
     delete_outdated_indicators := false; miss_track_file := None |}.


(** A world with one indicator type, no families, a feed that returns
    [pages], and a server whose attribute search and event saves behave as
    [search] and [save] say. *)
Definition world (conf : Settings) (pages : list (list indicator))
           (search : result (list (string * dedup_entry)))
           (save : option exn) : collaborators :=
  {| settings := conf;
     IndicatorType := fun name => if String.eqb name "DOMAIN" then Some "Domain"%string else None;
     INDICATOR_TYPES := [("Domain", "domain")]%string;
     gen_indicator := fun ind =>
       match ind_indicator ind with
       | Some v => GenAttribute "domain" v
       | None => GenFalse
       end;
     family_title := fun _ => None;
     new_family_event := fun _ => (0%nat, 4);
     check_and_set_threat_level := fun _ level => level;
     derive_tags := fun _ missing => Tagged [] missing;
     attribute_accepted := fun _ _ => true;
     misp_search_attributes := fun _ => search;
     misp_update_event := fun _ _ => {| save_error := save; elapsed_ms := 10 |};
     misp_search_event := fun _ => Ret [];
     misp_get_attribute := fun u => Ret (Some u, 0);
     misp_add_sighting := fun _ _ => Responds ok_response;
     retrieve_or_create_feed_events := fun evts =>
       match evts with [] => [domain_event] | _ => evts end;
     retrieve_family_events := fun evts => evts;
     get_indicators := fun _ _ => pages;
     today_us := 1700000000000000;
     time_send_request_us := 1700000000500000 |}.

Definition quiet_world : collaborators :=
  world default_settings [] (Ret []) None.

(** The flags a second worker computes for [evil] once a first one is
    done with it. *)
Definition after_first (s : importer) : importer :=
  snd (indicator_thread quiet_world evil s).

Definition second_flags (s : importer) : flags :=
  match fst (compute_flags quiet_world evil (after_first s)) with
  | Ret fl => fl
  | Raise _ =>
      {| event := None; mal_event := None; attribute_list := ∅;
         mal_attribute_list := ∅; evt_dupe := false; mal_dupe := false |}
  end.

(** An importer whose registry holds the domain container. *)
Definition started : importer :=
  set_feeds (fun _ => [domain_event]) (fresh_importer (Some 500)).

(** The same, with the domain container marked dirty. *)
Definition started_dirty : importer :=
  set_dirty_feeds (fun _ => {[ "Indicator Type: Domain"%string := 1%nat ]}) started.

End Sample.

(** ** threaded_misp.py: the rest of the [MISP] class *)

(** *** What the transport is observed to do *)

Module Transport.
Import ThreadedMisp.

(** The sleeps of a trace, in order, in milliseconds. *)
Definition sleeps (t : trace) : list Z :=
  omap (fun e => match e with Slept ms => Some ms | _ => None end) t.

(** An outcome that ends the loop of [_retry] with a [return]: a response
    without an [errors] key, or one whose first error is the 404 code. *)
Definition accepted (o : outcome) : option response :=
  match o with
  | Responds r =>
      match errors r with
      | None => Some r
      | Some errs => if err_code errs =? 404 then Some r else None
      end
  | Throws _ => None
  end.

(** The first accepted response among the attempts the loop may make. *)
Definition first_accepted (f : nat -> outcome) : option response :=
  hd_error (omap (fun i => accepted (f i)) (seq 0 MAX_RETRIES)).

(** ["errors" not in result] for a result that is a response. *)
Definition clean (r : response) : bool :=
  match errors r with None => true | Some _ => false end.

(** Truthiness of a response dictionary: it has a key.  [payload] stands
    for the keys other than [errors], the empty string for none. *)
Definition truthy_response (r : response) : bool :=
  negb (clean r) || negb (String.eqb (payload r) "").

End Transport.

(** *** The clean-up methods and their counters *)

Module MispCounters.
Import ThreadedMisp.

(** [MISP.__init__], line 24:
    [int(kwargs.get("max_threads") or min(32, (os.cpu_count() or 1) * 4))],
    for a [max_threads] that is a number.  [None] is a missing keyword,
    resp. the [None] of [os.cpu_count()]. *)
Definition or_else (v : option Z) (fallback : Z) : Z :=
  match v with
  | Some n => if n =? 0 then fallback else n
  | None => fallback
  end.

Definition thread_count (max_threads cpu_count : option Z) : Z :=
  or_else max_threads (Z.min 32 (or_else cpu_count 1 * 4)).

(** The counters of the [MISP] object that the clean-up methods keep, and
    the effects of its transport ([MispClient.client] has the counter the
    import keeps). *)
Record counters : Type :=
  { deleted_attribute_count : nat;
    deleted_event_count : nat;
    deleted_tag_count : nat;
    wire : trace }.

Definition on_wire {A} (m : M trace A) : M counters A :=
  fun c => let (r, t) := m (wire c) in
           (r, {| deleted_attribute_count := deleted_attribute_count c;
                  deleted_event_count := deleted_event_count c;
                  deleted_tag_count := deleted_tag_count c;
                  wire := t |}).

Definition count_event : M counters unit :=
  modify (fun c => {| deleted_attribute_count := deleted_attribute_count c;
                      deleted_event_count := S (deleted_event_count c);
                      deleted_tag_count := deleted_tag_count c;
                      wire := wire c |}).

Definition count_attribute : M counters unit :=
  modify (fun c => {| deleted_attribute_count := S (deleted_attribute_count c);
                      deleted_event_count := deleted_event_count c;
                      deleted_tag_count := deleted_tag_count c;
                      wire := wire c |}).

Definition count_tag : M counters unit :=
  modify (fun c => {| deleted_attribute_count := deleted_attribute_count c;
                      deleted_event_count := deleted_event_count c;
                      deleted_tag_count := S (deleted_tag_count c);
                      wire := wire c |}).

(** [if count % 50 == 0 and count: self.log.info("%i ... deleted", count)] *)
Definition progress (count : nat) (msg : string) : M counters unit :=
  if ((count mod 50 =? 0) && negb (count =? 0))%nat
  then on_wire (emit (Logged (LogRecord INFO msg)))
  else ret tt.

(** [MISP.delete_event]: ["errors" not in result] raises [TypeError] when
    [_retry] gave [None]. *)
Definition delete_event (f : nat -> outcome) : M counters unit :=
  c <- get ;;
  progress (deleted_event_count c) "events deleted" ;;;
  result <- on_wire (_retry f) ;;
  match result with
  | None => raise TypeError
  | Some r => if Transport.clean r then count_event else ret tt
  end.

(** [MISP.delete_attribute]: the same, under [if result:]. *)
Definition delete_attribute (f : nat -> outcome) : M counters unit :=
  c <- get ;;
  progress (deleted_attribute_count c) "attributes deleted" ;;;
  result <- on_wire (_retry f) ;;
  match result with
  | None => ret tt
  | Some r =>
      if Transport.truthy_response r then
        if Transport.clean r then count_attribute else ret tt
      else ret tt
  end.

(** [MISP.clear_tag]: [args[0]] is the tag, [truthy] its truth value and
    [f] the [delete_tag] call for it.  It returns the counter. *)
Definition clear_tag (truthy : bool) (f : nat -> outcome) : M counters nat :=
  (if truthy then
     c <- get ;;
     progress (deleted_tag_count c) "tags deleted" ;;;
     result <- on_wire (_retry f) ;;
     match result with
     | None => raise TypeError
     | Some r => if Transport.clean r then count_tag else ret tt
     end
   else ret tt) ;;;
  c <- get ;;
  ret (deleted_tag_count c).

End MispCounters.

(** ** indicators.py: further views of the importer's state *)

Module Views.
Import Indicators.

(** The titles of the registry, in order. *)
Definition titles (s : importer) : list string := info <$> feeds s.

Definition same_titles (s s' : importer) : Prop := titles s' = titles s.

(** The registry and the index of report indicators are as they were. *)
Definition same_index (s s' : importer) : Prop :=
  existing_indicators s' = existing_indicators s /\ feeds s' = feeds s.

(** What [event_thread] logs for a try that failed and is caught, and for
    the one that succeeded. *)
Definition failed_try : list log_record :=
  [LogRecord WARNING "Connection failure, could not save event.";
   LogRecord WARNING "Unable to update with new indicators."].

Definition updated : log_record := LogRecord INFO "Updated with new indicators.".

(** The warning [_note_timestamp] logs for a family without a galaxy. *)
Definition no_galaxy_mapping : log_record :=
  LogRecord WARNING "No galaxy mapping found for malware family.".

(** The event a lookup by title finds in a registry, as the list
    comprehension of [add_indicator_event] and the loop of [event_thread]
    do: the first one that bears the title. *)
Definition named (title : string) (evts : list MISPEvent) : option MISPEvent :=
  match find_event title evts with
  | Some p => evts !! p
  | None => None
  end.


(** The attribute [add_attribute] builds. *)
Definition new_attribute (type value : string) (u : uuid) (when : seen)
           (tags : list string) : MISPAttribute :=
  {| att_type := type; att_value := value; att_uuid := u; att_tags := tags;
     att_first_seen := first_seen when; att_last_seen := last_seen when |}.

(** [m] raises from no state. *)
Definition never_raises {S A} (m : M S A) : Prop :=
  forall s, is_raise (fst (m s)) = false.

(** No sighting exhausts the transport. *)
Definition sightings_go_through (env : collaborators) : Prop :=
  forall x, is_Some (Transport.first_accepted (misp_add_sighting env x)).

(** An indicator a worker can map: it has a value, and a type that
    [IndicatorType] knows. *)
Definition usable (env : collaborators) (ind : indicator) : bool :=
  truthy_str (ind_indicator ind)
  && match ind_type ind with
     | Some t => match IndicatorType env (upper t) with
                 | Some _ => true
                 | None => false
                 end
     | None => false
     end.

(** [obj] appended to the objects of the container at [pos]. *)
Definition attach_object (obj : MISPObject) (pos : option nat)
           (evts : list MISPEvent) : list MISPEvent :=
  match pos with
  | Some p => alter (set_objects (fun os => os ++ [obj])) p evts
  | None => evts
  end.

End Views.

(** ** More sample data *)

Module Cases.
Import ThreadedMisp Indicators.

(** [env] with another derivation of the tags. *)
Definition with_tags (derive : indicator -> option (list string) -> tagging)
           (env : collaborators) : collaborators :=
  {| settings := settings env;
     IndicatorType := IndicatorType env;
     INDICATOR_TYPES := INDICATOR_TYPES env;
     gen_indicator := gen_indicator env;
     family_title := family_title env;
     new_family_event := new_family_event env;
     check_and_set_threat_level := check_and_set_threat_level env;
     derive_tags := derive;
     attribute_accepted := attribute_accepted env;
     misp_search_attributes := misp_search_attributes env;
     misp_update_event := misp_update_event env;
     misp_search_event := misp_search_event env;
     misp_get_attribute := misp_get_attribute env;
     misp_add_sighting := misp_add_sighting env;
     retrieve_or_create_feed_events := retrieve_or_create_feed_events env;
     retrieve_family_events := retrieve_family_events env;
     get_indicators := get_indicators env;
     today_us := today_us env;
     time_send_request_us := time_send_request_us env |}.

(** The sample world, with a derivation of the tags that raises [e]. *)
Definition tagless (e : exn) : collaborators :=
  with_tags (fun _ missing => TaggingRaised e missing) Sample.quiet_world.


(** [env] with another [gen_indicator]. *)
Definition with_generator (gen : indicator -> generated) (env : collaborators)
  : collaborators :=
  {| settings := settings env;
     IndicatorType := IndicatorType env;
     INDICATOR_TYPES := INDICATOR_TYPES env;
     gen_indicator := gen;
     family_title := family_title env;
     new_family_event := new_family_event env;
     check_and_set_threat_level := check_and_set_threat_level env;
     derive_tags := derive_tags env;
     attribute_accepted := attribute_accepted env;
     misp_search_attributes := misp_search_attributes env;
     misp_update_event := misp_update_event env;
     misp_search_event := misp_search_event env;
     misp_get_attribute := misp_get_attribute env;
     misp_add_sighting := misp_add_sighting env;
     retrieve_or_create_feed_events := retrieve_or_create_feed_events env;
     retrieve_family_events := retrieve_family_events env;
     get_indicators := get_indicators env;
     today_us := today_us env;
     time_send_request_us := time_send_request_us env |}.

Definition file_object : MISPObject := {| obj_name := "file"; obj_value := "evil.example" |}.

(** The sample world, with a [gen_indicator] that builds objects. *)
Definition object_world : collaborators :=
  with_generator (fun _ => GenObject file_object) Sample.quiet_world.

(** The flags of a worker that found the type container at position 0,
    no family container, and no duplicate. *)
Definition fresh_flags : flags :=
  {| event := Some 0%nat; mal_event := None; attribute_list := ∅;
     mal_attribute_list := ∅; evt_dupe := false; mal_dupe := false |}.

(** The domain container as the server has it, with one attribute. *)
Definition refreshed_event : MISPEvent :=
  {| info := "Indicator Type: Domain"; event_uuid := 7%nat;
     attributes := [ {| att_type := "domain"; att_value := "evil.example";
                        att_uuid := 11%nat; att_tags := [];
                        att_first_seen := Some 900; att_last_seen := Some 1000 |} ];
     objects := []; threat_level_id := 4 |}.

(** The sample world, with a server that returns it for every search by
    uuid. *)
Definition refreshing : collaborators :=
  {| settings := Sample.default_settings;
     IndicatorType := IndicatorType Sample.quiet_world;
     INDICATOR_TYPES := INDICATOR_TYPES Sample.quiet_world;
     gen_indicator := gen_indicator Sample.quiet_world;
     family_title := family_title Sample.quiet_world;
     new_family_event := new_family_event Sample.quiet_world;
     check_and_set_threat_level := check_and_set_threat_level Sample.quiet_world;
     derive_tags := derive_tags Sample.quiet_world;
     attribute_accepted := attribute_accepted Sample.quiet_world;
     misp_search_attributes := misp_search_attributes Sample.quiet_world;
     misp_update_event := fun _ _ => {| save_error := None; elapsed_ms := 400000 |};
     misp_search_event := fun _ => Ret [refreshed_event];
     misp_get_attribute := misp_get_attribute Sample.quiet_world;
     misp_add_sighting := misp_add_sighting Sample.quiet_world;
     retrieve_or_create_feed_events := retrieve_or_create_feed_events Sample.quiet_world;
     retrieve_family_events := retrieve_family_events Sample.quiet_world;
     get_indicators := get_indicators Sample.quiet_world;
     today_us := today_us Sample.quiet_world;
     time_send_request_us := time_send_request_us Sample.quiet_world |}.

(** The sample world, with a server that knows two domain attributes:
    one in the domain container (uuid 7), one in a report (uuid 40). *)
Definition indexed : collaborators :=
  Sample.world Sample.default_settings []
    (Ret [ ("evil.example"%string,
            {| de_uuid := 11%nat; de_event_uuid := 7%nat; de_timestamp := 1000 |});
           ("report.example"%string,
            {| de_uuid := 12%nat; de_event_uuid := 40%nat; de_timestamp := 990 |}) ])
    None.

(** The sample world, with a server that refuses the first [k] saves of
    an event with [ConnectionError] and accepts the next. *)
Definition flaky (k : nat) : collaborators :=
  {| settings := Sample.default_settings;
     IndicatorType := IndicatorType Sample.quiet_world;
     INDICATOR_TYPES := INDICATOR_TYPES Sample.quiet_world;
     gen_indicator := gen_indicator Sample.quiet_world;
     family_title := family_title Sample.quiet_world;
     new_family_event := new_family_event Sample.quiet_world;
     check_and_set_threat_level := check_and_set_threat_level Sample.quiet_world;
     derive_tags := derive_tags Sample.quiet_world;
     attribute_accepted := attribute_accepted Sample.quiet_world;
     misp_search_attributes := misp_search_attributes Sample.quiet_world;
     misp_update_event := fun _ try =>
       {| save_error := if (try <=? k)%nat then Some ConnectionError else None;
          elapsed_ms := 10 |};
     misp_search_event := misp_search_event Sample.quiet_world;
     misp_get_attribute := misp_get_attribute Sample.quiet_world;
     misp_add_sighting := misp_add_sighting Sample.quiet_world;
     retrieve_or_create_feed_events := retrieve_or_create_feed_events Sample.quiet_world;
     retrieve_family_events := retrieve_family_events Sample.quiet_world;
     get_indicators := get_indicators Sample.quiet_world;
     today_us := today_us Sample.quiet_world;
     time_send_request_us := time_send_request_us Sample.quiet_world |}.

End Cases.

(** ** importer.py: [CrowdstrikeToMISPImporter]

The clean-up and the import of existing events.  The thread pools run
their tasks one after the other, as in [Indicators.run_pool];
[executor.map] throws the results of its tasks away, exceptions
included, since nothing iterates over what it returns. *)

Module Importer.
Import ThreadedMisp.

Definition uuid : Type := Indicators.uuid.

(** An event as [search_index] and [search] return it: the keys the class
    reads.  [None] is a missing key. *)
Record found_event : Type :=
  { fe_info : option string;
    fe_uuid : option uuid;
    fe_attributes : option (list string) }.

(** An entry of [report_ids]: the [uuid] key, and the [attributes] key
    when it holds a list. *)
Record report_entry : Type :=
  { re_uuid : uuid; re_attributes : option (list string) }.

(** The keyword arguments of [search_index]. *)
Record search_params : Type :=
  { tags : list string; org : string; minimal : bool }.

(** What the class gets from outside: the settings it reads, the
    searches of the client, the transport of a delete, and the members
    of the enumerations it walks through. *)
Record services : Type :=
  { (** [import_settings["force"]] and [settings["MISP"]["crowdstrike_org_uuid"]] *)
    force : bool;
    org_id : string;
    banner : list log_record;
    (** [misp_client.search_index( **params )] of the clean-up *)
    search_index : search_params -> result (list found_event);
    (** [misp_client.search_index(tags=tags)] of [import_from_misp] *)
    search_by_tags : list string -> result (list found_event);
    (** [misp_client.search(eventinfo="Malware Family:%")] *)
    search_families : result (list found_event);
    (** the attempts of [super().delete_event] for an event *)
    misp_delete_event : found_event -> nat -> outcome;
    (** the members of [Adversary], of [ReportType] and of
        [IndicatorType], and the keys of [INDICATOR_TYPES] *)
    adversary_types : list string;
    report_types : list string;
    indicator_types : list string;
    INDICATOR_TYPES : list string }.

Record CrowdstrikeToMISPImporter : Type :=
  { misp_client : MispCounters.counters;
    log : list log_record;
    event_ids : gmap string uuid;
    report_ids : gmap string report_entry;
    actor_ids : gmap string uuid;
    indicator_ids : gmap string uuid }.

Definition set_misp_client (c : MispCounters.counters) (s : CrowdstrikeToMISPImporter)
  : CrowdstrikeToMISPImporter :=
  {| misp_client := c; log := log s; event_ids := event_ids s;
     report_ids := report_ids s; actor_ids := actor_ids s;
     indicator_ids := indicator_ids s |}.

Definition add_log (r : log_record) (s : CrowdstrikeToMISPImporter)
  : CrowdstrikeToMISPImporter :=
  {| misp_client := misp_client s; log := log s ++ [r]; event_ids := event_ids s;
     report_ids := report_ids s; actor_ids := actor_ids s;
     indicator_ids := indicator_ids s |}.

Definition set_event_id (k : string) (u : uuid) (s : CrowdstrikeToMISPImporter)
  : CrowdstrikeToMISPImporter :=
  {| misp_client := misp_client s; log := log s; event_ids := <[k := u]> (event_ids s);
     report_ids := report_ids s; actor_ids := actor_ids s;
     indicator_ids := indicator_ids s |}.

Definition set_report_id (k : string) (e : report_entry) (s : CrowdstrikeToMISPImporter)
  : CrowdstrikeToMISPImporter :=
  {| misp_client := misp_client s; log := log s; event_ids := event_ids s;
     report_ids := <[k := e]> (report_ids s); actor_ids := actor_ids s;
     indicator_ids := indicator_ids s |}.

Definition set_actor_id (k : string) (u : uuid) (s : CrowdstrikeToMISPImporter)
  : CrowdstrikeToMISPImporter :=
  {| misp_client := misp_client s; log := log s; event_ids := event_ids s;
     report_ids := report_ids s; actor_ids := <[k := u]> (actor_ids s);
     indicator_ids := indicator_ids s |}.

Definition set_indicator_id (k : string) (u : uuid) (s : CrowdstrikeToMISPImporter)
  : CrowdstrikeToMISPImporter :=
  {| misp_client := misp_client s; log := log s; event_ids := event_ids s;
     report_ids := report_ids s; actor_ids := actor_ids s;
     indicator_ids := <[k := u]> (indicator_ids s) |}.

Definition log_at (l : log_level) (msg : string) : M CrowdstrikeToMISPImporter unit :=
  modify (add_log (LogRecord l msg)).

Definition on_client {A} (m : M MispCounters.counters A) : M CrowdstrikeToMISPImporter A :=
  fun s => let (r, c) := m (misp_client s) in (r, set_misp_client c s).

(** Modelled from the spec: [display_banner] of [helper.py], which is not
    part of this development, is decorative output with no effect on
    the import; what it writes goes to the log. *)
Definition display_banner (lines : list log_record) : M CrowdstrikeToMISPImporter unit :=
  for_each lines (fun r => modify (add_log r)).

(** [with ThreadPoolExecutor(...) as executor: executor.map(task, xs)]:
    every task runs; what it returns or raises is dropped. *)
Fixpoint executor_map (tasks : list (M CrowdstrikeToMISPImporter unit))
  : M CrowdstrikeToMISPImporter unit :=
  match tasks with
  | [] => ret tt
  | task :: rest => fun s => executor_map rest (snd (task s))
  end.

Section Importer.

Variable svc : services.

Definition delete_event (event : found_event) : M CrowdstrikeToMISPImporter unit :=
  on_client (MispCounters.delete_event (misp_delete_event svc event)).

(** *** [clean_crowdstrike_events] *)

Definition perform_threaded_delete (tag_to_hunt : string) (do_min : bool)
  : M CrowdstrikeToMISPImporter unit :=
  log_at INFO "Start clean up of CrowdStrike events from MISP." ;;;
  let params := {| tags := [tag_to_hunt]; org := org_id svc;
                   minimal := negb (force svc) && negb do_min |} in
  events <- (fun s => (search_index svc params, s)) ;;
  executor_map (delete_event <$> events).

Definition perform_threaded_family_delete : M CrowdstrikeToMISPImporter unit :=
  log_at INFO "Start clean up of CrowdStrike malware family indicator events from MISP." ;;;
  events <- (fun s => (search_families svc, s)) ;;
  executor_map (delete_event <$> events).

Definition clean_crowdstrike_events (clean_reports clean_indicators clean_actors : bool)
  : M CrowdstrikeToMISPImporter unit :=
  display_banner (banner svc) ;;;
  (if clean_actors then
     for_each (adversary_types svc) (fun adv_type =>
       perform_threaded_delete ("CrowdStrike:adversary:branch: " +:+ adv_type) true ;;;
       log_at INFO "Completed deletion of CrowdStrike adversaries within MISP")
   else ret tt) ;;;
  (if clean_reports then
     for_each (report_types svc) (fun report_type =>
       perform_threaded_delete ("CrowdStrike:report:type: " +:+ report_type) true ;;;
       log_at INFO "Completed deletion of CrowdStrike reports within MISP")
   else ret tt) ;;;
  (if clean_indicators then
     for_each (INDICATOR_TYPES svc) (fun ind_type =>
       perform_threaded_delete
         ("CrowdStrike:indicator:type: " +:+ Indicators.upper ind_type) false) ;;;
     for_each (indicator_types svc) (fun indy =>
       perform_threaded_delete ("CrowdStrike:indicator:feed:type: " +:+ indy) true) ;;;
     perform_threaded_family_delete ;;;
     log_at INFO "Completed deletion of CrowdStrike indicators within MISP"
   else ret tt) ;;;
  log_at INFO "Finished cleaning up CrowdStrike related events from MISP.".

(** *** [import_from_misp] and [threaded_report_search] *)

(** [info.split(" ")[0]] *)
Fixpoint first_word (s : string) : string :=
  match s with
  | EmptyString => EmptyString
  | String c rest =>
      if Ascii.eqb c " " then EmptyString else String c (first_word rest)
  end.

(** [event["uuid"]] *)
Definition uuid_of (event : found_event) : M CrowdstrikeToMISPImporter uuid :=
  match fe_uuid event with
  | Some u => ret u
  | None => raise KeyError
  end.

Definition threaded_report_search (evts : found_event)
  : M CrowdstrikeToMISPImporter nat :=
  if Indicators.truthy_str (fe_info evts) then
    let key := first_word (default "" (fe_info evts)) in
    u <- uuid_of evts ;;
    modify (set_event_id key u) ;;;
    modify (set_report_id key {| re_uuid := u; re_attributes := fe_attributes evts |}) ;;;
    s <- get ;;
    match report_ids s !! key with
    | Some entry =>
        match re_attributes entry with
        | Some attributes => ret (length attributes)
        | None => raise TypeError
        end
    | None => raise KeyError
    end
  else ret 0%nat.

(** The body of [for event in events]. *)
Definition register (style : string) (event : found_event)
  : M CrowdstrikeToMISPImporter unit :=
  if Indicators.truthy_str (fe_info event) then
    let title := default "" (fe_info event) in
    if String.eqb style "actors" then
      u <- uuid_of event ;;
      modify (set_actor_id title u) ;;;
      modify (set_event_id title u)
    else if String.eqb style "reports" then
      (* [executor.map(self.threaded_report_search, )] has no iterable:
         it submits nothing *)
      executor_map [] ;;;
      u <- uuid_of event ;;
      modify (set_event_id (first_word title) u) ;;;
      modify (set_report_id (first_word title)
                {| re_uuid := u; re_attributes := None |})
    else if String.eqb style "indicators" then
      u <- uuid_of event ;;
      modify (set_event_id title u) ;;;
      modify (set_indicator_id title u)
    else ret tt
  else log_at WARNING "Event missing info field.".

Definition import_from_misp (tags : list string) (style : string)
  : M CrowdstrikeToMISPImporter unit :=
  events <- (fun s => (search_by_tags svc tags, s)) ;;
  for_each events (register style).

(** The key under which [import_from_misp] files an event in
    [event_ids]. *)
Definition key_of (style : string) (event : found_event) : string :=
  if String.eqb style "reports" then first_word (default "" (fe_info event))
  else default "" (fe_info event).

(** The events the loop files: those with a truthy [info]. *)
Definition filed (events : list found_event) : list found_event :=
  filter (fun e => Indicators.truthy_str (fe_info e) = true) events.

(** The last event of the list filed under [k]. *)
Definition last_filed (style k : string) (events : list found_event)
  : option found_event :=
  List.find (fun e => String.eqb (key_of style e) k) (rev (filed events)).

(** The styles the loop knows. *)
Definition known_style (style : string) : bool :=
  String.eqb style "actors" || String.eqb style "reports"
  || String.eqb style "indicators".

(** The events whose delete goes through: an accepted response without
    an [errors] key. *)
Definition deleted (event : found_event) : bool :=
  match Transport.first_accepted (misp_delete_event svc event) with
  | Some r => Transport.clean r
  | None => false
  end.

End Importer.

(** *** [__init__], lines 32-53: the settings that must be there *)

Definition confirm_settings : list string :=
  ["misp_url"; "misp_auth_key"; "crowdstrike_org_uuid"; "reports_timestamp_filename";
   "indicators_timestamp_filename"; "actors_timestamp_filename"].

(** How the first part of the constructor ends: [SystemExit] for a
    confirmed setting that is missing, [KeyError] for another one, or the
    arguments the client is built with. *)
Inductive checked : Type :=
| SystemExit (item : string)
| KeyErrorFor (key : string)
| ClientArguments (misp_url misp_auth_key misp_enable_ssl max_threads : string).

Fixpoint confirm (items : list string) (import_settings : gmap string string)
  : option string :=
  match items with
  | [] => None
  | item :: rest =>
      match import_settings !! item with
      | Some _ => confirm rest import_settings
      | None => Some item
      end
  end.

Definition check_settings (import_settings : gmap string string)
  : checked * list log_record :=
  match confirm confirm_settings import_settings with
  | Some item =>
      (SystemExit item,
       [LogRecord ERROR "value must be specified in the settings.py file."])
  | None =>
      (match import_settings !! "misp_url", import_settings !! "misp_auth_key",
             import_settings !! "misp_enable_ssl", import_settings !! "max_threads" with
       | Some url, Some key, Some ssl, Some threads => ClientArguments url key ssl threads
       | None, _, _, _ => KeyErrorFor "misp_url"
       | _, None, _, _ => KeyErrorFor "misp_auth_key"
       | _, _, None, _ => KeyErrorFor "misp_enable_ssl"
       | _, _, _, None => KeyErrorFor "max_threads"
       end, [])
  end.

End Importer.

(** ** Sample data for the clean-up and the import of events *)

Module ImporterCases.
Import ThreadedMisp Importer.

Definition report (title : string) (u : uuid) : found_event :=
  {| fe_info := Some title; fe_uuid := Some u; fe_attributes := None |}.

Definition untitled (u : uuid) : found_event :=
  {| fe_info := None; fe_uuid := Some u; fe_attributes := None |}.

(** A server with three events, the second of which cannot be deleted
    (it answers 403 every time). *)
Definition three_events : list found_event :=
  [report "CSA-1 Alpha" 1%nat; report "CSA-2 Beta" 2%nat; report "CSA-1 Gamma" 3%nat].

Definition server : services :=
  {| force := false;
     org_id := "org";
     banner := [LogRecord INFO "BEGIN DELETE"];
     search_index := fun _ => Ret three_events;
     search_by_tags := fun _ => Ret (three_events ++ [untitled 4%nat]);
     search_families := Ret [];
     misp_delete_event := fun event _ =>
       match fe_uuid event with
       | Some 2%nat => Responds (Sample.error_response 403)
       | _ => Responds Sample.ok_response
       end;
     adversary_types := ["BEAR"; "PANDA"];
     report_types := ["CSA"; "CSIT"];
     indicator_types := ["DOMAIN"];
     INDICATOR_TYPES := ["domain"] |}.

Definition fresh : CrowdstrikeToMISPImporter :=
  {| misp_client := {| MispCounters.deleted_attribute_count := 0;
                       MispCounters.deleted_event_count := 0;
                       MispCounters.deleted_tag_count := 0;
                       MispCounters.wire := [] |};
     log := []; event_ids := ∅; report_ids := ∅; actor_ids := ∅;
     indicator_ids := ∅ |}.

End ImporterCases.

(** * Properties *)

(** ** The retrying transport *)

Section RetryFacts.
Import ThreadedMisp.

Variable f : nat -> outcome.

Lemma calls_app (t u : trace) : calls (t ++ u) = calls t ++ calls u.
Proof. unfold calls. apply omap_app. Qed.

Lemma logged_app l msg (t u : trace) :
  logged l msg (t ++ u) = logged l msg t || logged l msg u.
Proof. unfold logged. apply existsb_app. Qed.

Lemma logged_In l msg (t : trace) :
  In (Logged (LogRecord l msg)) t -> logged l msg t = true.
Proof.
  intros H. unfold logged. apply existsb_exists. eexists. split; [exact H|].
  simpl. rewrite String.eqb_refl. destruct l; reflexivity.
Qed.

(** A failed attempt that is not the last one: warnings, a sleep, and the
    loop goes on. *)
Lemma attempt_failed_early i t :
  failed (f i) = true -> (i + 1 <? MAX_RETRIES)%nat = true ->
  exists t', attempt f i t = (Ret Continue, t ++ Called i :: t')
             /\ calls t' = [] /\ In (Slept (timeout i)) t'.
Proof.
  intros Hf Hi. unfold attempt. rewrite Hi.
  unfold try_except, call, bind, emit, modify, log_warning, emit, modify, ret, raise.
  unfold failed in Hf.
  destruct (f i) as [r|e]; simpl.
  - destruct (errors r) as [errs|]; [|discriminate].
    apply negb_true_iff in Hf. rewrite Hf.
    destruct (err_message errs) as [msg|]; simpl;
      eexists; (split; [rewrite <- !app_assoc; simpl; reflexivity|]);
      (split; [reflexivity|]); simpl; tauto.
  - eexists. split; [rewrite <- !app_assoc; simpl; reflexivity|].
    split; [reflexivity|simpl; tauto].
Qed.

Lemma attempt_failed_last i t :
  failed (f i) = true -> (i + 1 <? MAX_RETRIES)%nat = false ->
  exists t', attempt f i t = (Ret Continue, t ++ Called i :: t')
             /\ calls t' = [] /\ logged ERROR exceeded t' = true.
Proof.
  intros Hf Hi. unfold attempt. rewrite Hi.
  unfold try_except, call, bind, emit, modify, log_error, emit, modify, ret, raise.
  unfold failed in Hf.
  destruct (f i) as [r|e]; simpl.
  - destruct (errors r) as [errs|]; [|discriminate].
    apply negb_true_iff in Hf. rewrite Hf. simpl.
    eexists. split; [rewrite <- !app_assoc; simpl; reflexivity|].
    split; [reflexivity|apply logged_In; simpl; tauto].
  - eexists. split; [rewrite <- !app_assoc; simpl; reflexivity|].
    split; [reflexivity|apply logged_In; simpl; tauto].
Qed.

Lemma attempt_not_found i t r :
  not_found (f i) = Some r -> attempt f i t = (Ret (Return r), t ++ [Called i]).
Proof.
  intros Hf. unfold attempt, try_except, call, bind, emit, modify, ret.
  simpl. unfold not_found in Hf.
  destruct (f i) as [r'|e]; [|discriminate]. simpl.
  destruct (errors r') as [errs|]; [|discriminate].
  destruct (err_code errs =? 404); [|discriminate].
  injection Hf as ->. reflexivity.
Qed.

(** No attempt lets an exception out. *)
Lemma attempt_never_raises i t : exists c, fst (attempt f i t) = Ret c.
Proof.
  unfold attempt. destruct (i + 1 <? MAX_RETRIES)%nat;
  unfold try_except, call, bind, emit, modify, log_error, log_warning, emit, modify, ret, raise;
  (destruct (f i) as [r|e]; simpl; [|eauto]);
  (destruct (errors r) as [errs|]; simpl; [|eauto]);
  (destruct (err_code errs =? 404); simpl; [eauto|]);
  try (destruct (err_message errs); simpl); eauto.
Qed.

Lemma retry_loop_never_raises rounds t : exists v, fst (retry_loop f rounds t) = Ret v.
Proof.
  revert t. induction rounds as [|i rest IH]; intros t; simpl.
  - eexists; reflexivity.
  - unfold bind. destruct (attempt_never_raises i t) as [c Hc].
    destruct (attempt f i t) as [r t']. simpl in Hc. subst r.
    destruct c; [apply IH|]. eexists; reflexivity.
Qed.

Lemma retry_loop_step_continue i rest t t' :
  attempt f i t = (Ret Continue, t') ->
  retry_loop f (i :: rest) t = retry_loop f rest t'.
Proof. intros H. simpl. unfold bind. rewrite H. reflexivity. Qed.

Lemma retry_loop_step_return i rest t t' r :
  attempt f i t = (Ret (Return r), t') ->
  retry_loop f (i :: rest) t = (Ret (Some r), t').
Proof. intros H. simpl. unfold bind. rewrite H. reflexivity. Qed.

End RetryFacts.

Import ThreadedMisp.

(** C2, as the code has it.  [_retry] never raises.  When all three
    attempts fail (an exception, or an error payload whose code is not
    404), it has called [f] three times, logged that the retries are
    exceeded, and returns [None]: the last attempt's [PyMISPError] is
    caught by the method's own handler, whose [raise] is commented out.  A
    response whose code is 404 is returned as it is, on whichever attempt
    it comes. *)
Theorem C2_retry_exhausted_returns_none (f : nat -> outcome) (t : trace) :
  (exists v, fst (_retry f t) = Ret v)
  /\ ((forall i, (i < MAX_RETRIES)%nat -> failed (f i) = true) ->
      fst (_retry f t) = Ret None
      /\ calls (snd (_retry f t)) = calls t ++ [0; 1; 2]%nat
      /\ logged ERROR exceeded (snd (_retry f t)) = true)
  /\ (forall k r, (k < MAX_RETRIES)%nat -> not_found (f k) = Some r ->
      (forall i, (i < k)%nat -> failed (f i) = true) ->
      fst (_retry f t) = Ret (Some r)
      /\ calls (snd (_retry f t)) = calls t ++ seq 0 (S k)).
Proof.
  split; [apply retry_loop_never_raises|]. split.
  - intros Hall. unfold _retry. simpl seq.
    destruct (attempt_failed_early f 0 t) as (t0 & E0 & C0 & _); [apply Hall; unfold MAX_RETRIES; lia|reflexivity|].
    rewrite (retry_loop_step_continue _ _ _ _ _ E0).
    destruct (attempt_failed_early f 1 (t ++ Called 0%nat :: t0)) as (t1 & E1 & C1 & _);
      [apply Hall; unfold MAX_RETRIES; lia|reflexivity|].
    rewrite (retry_loop_step_continue _ _ _ _ _ E1).
    destruct (attempt_failed_last f 2 ((t ++ Called 0%nat :: t0) ++ Called 1%nat :: t1)) as (t2 & E2 & C2 & L2);
      [apply Hall; unfold MAX_RETRIES; lia|reflexivity|].
    rewrite (retry_loop_step_continue _ _ _ _ _ E2). simpl.
    split; [reflexivity|]. split.
    + rewrite !calls_app. simpl. rewrite C0, C1, C2. rewrite <- !app_assoc. reflexivity.
    + rewrite logged_app. simpl. rewrite L2. apply orb_true_r.
  - intros k r Hk Hnf Hbefore. unfold _retry, MAX_RETRIES in *. simpl seq.
    destruct k as [|[|[|k]]]; [| | |lia].
    + rewrite (retry_loop_step_return _ _ _ _ _ _ (attempt_not_found f 0 t r Hnf)).
      simpl. split; [reflexivity|]. rewrite calls_app. reflexivity.
    + destruct (attempt_failed_early f 0 t) as (t0 & E0 & C0 & _); [apply Hbefore; lia|reflexivity|].
      rewrite (retry_loop_step_continue _ _ _ _ _ E0).
      rewrite (retry_loop_step_return _ _ _ _ _ _ (attempt_not_found f 1 _ r Hnf)).
      simpl. split; [reflexivity|]. rewrite !calls_app. simpl. rewrite C0.
      rewrite <- !app_assoc. reflexivity.
    + destruct (attempt_failed_early f 0 t) as (t0 & E0 & C0 & _); [apply Hbefore; lia|reflexivity|].
      rewrite (retry_loop_step_continue _ _ _ _ _ E0).
      destruct (attempt_failed_early f 1 (t ++ Called 0%nat :: t0)) as (t1 & E1 & C1 & _);
        [apply Hbefore; lia|reflexivity|].
      rewrite (retry_loop_step_continue _ _ _ _ _ E1).
      rewrite (retry_loop_step_return _ _ _ _ _ _ (attempt_not_found f 2 _ r Hnf)).
      simpl. split; [reflexivity|]. rewrite !calls_app. simpl. rewrite C0, C1.
      rewrite <- !app_assoc. reflexivity.
Qed.

Lemma C2_retry_exhausted_returns_none_witness :
  fst (_retry Sample.always_down []) = Ret None
  /\ fst (_retry Sample.always_forbidden []) = Ret None
  /\ fst (_retry (Sample.not_found_at 2) []) = Ret (Some (Sample.error_response 404)).
Proof.
  split; [|split].
  - apply (proj1 (proj2 (C2_retry_exhausted_returns_none Sample.always_down []))).
    intros i _. reflexivity.
  - apply (proj1 (proj2 (C2_retry_exhausted_returns_none Sample.always_forbidden []))).
    intros i _. reflexivity.
  - apply (proj2 (proj2 (C2_retry_exhausted_returns_none (Sample.not_found_at 2) []))
             2%nat (Sample.error_response 404)).
    + unfold MAX_RETRIES. lia.
    + reflexivity.
    + intros i Hi. destruct i as [|[|i]]; [reflexivity|reflexivity|lia].
Defined.

(** C2 as the specification words it does not hold: with the server down on
    every attempt, the three attempts fail and the caller gets [None], not
    an exception. *)
Lemma C2_retry_exhausted_surfaces_no_error :
  (forall i, (i < MAX_RETRIES)%nat -> failed (Sample.always_down i) = true)
  /\ fst (_retry Sample.always_down []) = Ret None
  /\ is_raise (fst (_retry Sample.always_down [])) = false.
Proof. split; [intros i _; reflexivity|]. split; reflexivity. Qed.

(** ** Frame rules of the monad *)

Section Frame.
Context {S : Type} (R : S -> S -> Prop) `{!PreOrder R}.

Lemma keeps_ret {A} (a : A) : keeps R (ret a).
Proof. intros s. reflexivity. Qed.

Lemma keeps_raise {A} e : keeps R (@raise S A e).
Proof. intros s. reflexivity. Qed.

Lemma keeps_get : keeps R (@get S).
Proof. intros s. reflexivity. Qed.

Lemma keeps_const {A} (r : result A) : keeps R (fun s : S => (r, s)).
Proof. intros s. reflexivity. Qed.

Lemma keeps_modify (f : S -> S) : (forall s, R s (f s)) -> keeps R (modify f).
Proof. intros H s. apply H. Qed.

Lemma keeps_bind {A B} (m : M S A) (k : A -> M S B) :
  keeps R m -> (forall a, keeps R (k a)) -> keeps R (bind m k).
Proof.
  intros Hm Hk s. unfold bind. specialize (Hm s).
  destruct (m s) as [[a|e] s1]; simpl in *; [|exact Hm].
  etransitivity; [exact Hm|apply Hk].
Qed.

Lemma keeps_try_except {A} (body : M S A) handler :
  keeps R body -> (forall e, keeps R (handler e)) -> keeps R (try_except body handler).
Proof.
  intros Hm Hk s. unfold try_except. specialize (Hm s).
  destruct (body s) as [[a|e] s1]; simpl in *; [exact Hm|].
  etransitivity; [exact Hm|apply Hk].
Qed.

Lemma keeps_try_except_only {A} caught (body : M S A) handler :
  keeps R body -> (forall e, keeps R (handler e)) ->
  keeps R (try_except_only caught body handler).
Proof.
  intros Hm Hk s. unfold try_except_only. specialize (Hm s).
  destruct (body s) as [[a|e] s1]; simpl in *; [exact Hm|].
  destruct (existsb _ _); simpl; [|exact Hm].
  etransitivity; [exact Hm|apply Hk].
Qed.

Lemma keeps_for_each {X} (xs : list X) body :
  (forall x, keeps R (body x)) -> keeps R (for_each xs body).
Proof.
  intros H. induction xs as [|x rest IH]; simpl.
  - apply keeps_ret.
  - apply keeps_bind; [apply H|intros _; exact IH].
Qed.

Lemma keeps_for_collect {X Y} (xs : list X) (body : X -> M S Y) :
  (forall x, keeps R (body x)) -> keeps R (for_collect xs body).
Proof.
  intros H. induction xs as [|x rest IH]; simpl.
  - apply keeps_ret.
  - apply keeps_bind; [apply H|intros y].
    apply keeps_bind; [exact IH|intros ys; apply keeps_ret].
Qed.

End Frame.

(** One step of a frame proof: the monad's rule for the head of the goal,
    or a case split on what the code branches on. *)
Ltac frame_step :=
  lazymatch goal with
  | |- keeps ?R (bind _ _) => apply (keeps_bind R); [|intros ?]
  | |- keeps ?R (ret _) => apply (keeps_ret R)
  | |- keeps ?R (raise _) => apply (keeps_raise R)
  | |- keeps ?R get => apply (keeps_get R)
  | |- keeps ?R (try_except _ _) => apply (keeps_try_except R); [|intros ?]
  | |- keeps ?R (try_except_only _ _ _) => apply (keeps_try_except_only R); [|intros ?]
  | |- keeps ?R (for_each _ _) => apply (keeps_for_each R); intros ?
  | |- keeps ?R (for_collect _ _) => apply (keeps_for_collect R); intros ?
  | |- keeps ?R (fun s => (_, s)) => apply (keeps_const R)
  | |- keeps _ (if ?b then _ else _) => destruct b
  | |- keeps _ (match ?x with _ => _ end) => destruct x
  end.

Create HintDb frame.

Ltac frame_with field :=
  repeat first
    [ frame_step
    | apply keeps_modify; intros ?; solve [field]
    | solve [eauto with frame] ].

Ltac quiet :=
  first [ apply Frames.quiet_log | apply Frames.quiet_skipped
        | apply Frames.quiet_batch_update | apply Frames.quiet_missing
        | apply Frames.quiet_sighting | apply Frames.quiet_misp
        | apply Frames.quiet_uuid | apply Frames.quiet_existing
        | apply Frames.quiet_miss_file | apply Frames.quiet_dirty
        | apply Frames.quiet_feeds ].

(** ** Frame conditions of the importer's methods *)

Section ImporterFrames.
Import Indicators Frames.
Variable env : collaborators.

Context (R : importer -> importer -> Prop) `{!Quiet R}.

Lemma keeps_log_at l msg : keeps R (log_at l msg).
Proof. unfold log_at. frame_with quiet. Qed.
#[local] Hint Resolve keeps_log_at : frame.

Lemma keeps_log_exception e : keeps R (log_exception e).
Proof. unfold log_exception. frame_with quiet. Qed.
#[local] Hint Resolve keeps_log_exception : frame.

Lemma keeps_on_client {A} (m : M MispClient.client A) : keeps R (on_client m).
Proof. intros s. unfold on_client. destruct (m (misp s)). simpl. apply quiet_misp. Qed.
#[local] Hint Resolve keeps_on_client : frame.

Lemma keeps_send_sighting x : keeps R (send_sighting env x).
Proof. unfold send_sighting. frame_with quiet. Qed.
#[local] Hint Resolve keeps_send_sighting : frame.

Lemma keeps_add_sighting_to_attribute att l when :
  keeps R (add_sighting_to_attribute env att l when).
Proof. unfold add_sighting_to_attribute. frame_with quiet. Qed.

Lemma keeps_add_report_sighting when v u t :
  keeps R (add_report_sighting env when v u t).
Proof. unfold add_report_sighting. frame_with quiet. Qed.

Lemma keeps_submit_all {A} (tasks : list (M importer A)) :
  Forall (keeps R) tasks -> keeps R (submit_all tasks).
Proof.
  intros H s. unfold submit_all.
  assert (G : R s (snd (run_pool tasks s))).
  { revert s. induction H as [|task rest Ht _ IH]; intros s; simpl; [reflexivity|].
    specialize (Ht s). destruct (task s) as [r s1]. simpl in Ht.
    specialize (IH s1). destruct (run_pool rest s1) as [rs s2]. simpl in *.
    etransitivity; eassumption. }
  destruct (run_pool tasks s). exact G.
Qed.

Lemma keeps_submit_map {A X} (f : X -> M importer A) (xs : list X) :
  (forall x, keeps R (f x)) -> keeps R (submit_all (f <$> xs)).
Proof. intros H. apply keeps_submit_all. apply Forall_fmap, Forall_forall. intros; apply H. Qed.

Lemma keeps_future_result {A} (fut : result A) : keeps R (future_result fut).
Proof. intros s. reflexivity. Qed.
#[local] Hint Resolve keeps_future_result : frame.

Lemma keeps_collect_results futures t : keeps R (collect_results futures t).
Proof. revert t. induction futures; intros t; simpl; frame_with quiet. Qed.

Lemma keeps_merge_results futures acc : keeps R (merge_results futures acc).
Proof. revert acc. induction futures; intros acc; simpl; frame_with quiet. Qed.

Lemma keeps_attribute_search n t : keeps R (attribute_search env n t).
Proof. unfold attribute_search. frame_with quiet. Qed.

Lemma keeps_find_report_indicators : keeps R (find_report_indicators env).
Proof.
  unfold find_report_indicators. apply (keeps_bind R).
  { apply keeps_submit_map. intros; apply keeps_attribute_search. }
  intros futures. apply (keeps_bind R); [apply keeps_merge_results|intros].
  frame_with quiet.
Qed.

End ImporterFrames.

#[local] Hint Resolve keeps_log_at keeps_log_exception keeps_on_client
  keeps_send_sighting keeps_add_sighting_to_attribute keeps_add_report_sighting
  keeps_future_result keeps_collect_results keeps_merge_results
  keeps_attribute_search keeps_find_report_indicators : frame.

Section WorkerFrames.
Import Indicators Frames.
Variable env : collaborators.
Context (R : importer -> importer -> Prop)
        `{!Quiet R} `{!QuietDirty R} `{!QuietFeeds R}.

Lemma keeps_update_event_at pos f : keeps R (update_event_at pos f).
Proof. unfold update_event_at. frame_with quiet. Qed.
#[local] Hint Resolve keeps_update_event_at : frame.

Lemma keeps_find_or_create_family_event ind :
  keeps R (find_or_create_family_event env ind).
Proof. unfold find_or_create_family_event. frame_with quiet. Qed.
#[local] Hint Resolve keeps_find_or_create_family_event : frame.

Lemma keeps_compute_flags ind : keeps R (compute_flags env ind).
Proof. unfold compute_flags. frame_with quiet. Qed.

Lemma keeps_add_attribute pos t v when : keeps R (add_attribute env pos t v when).
Proof. unfold add_attribute. frame_with quiet. Qed.

Lemma keeps_add_attribute_tag pos tag u : keeps R (add_attribute_tag pos tag u).
Proof. unfold add_attribute_tag. frame_with quiet. Qed.

Lemma keeps_mark_dirty title : keeps R (mark_dirty title).
Proof. unfold mark_dirty. frame_with quiet. Qed.
#[local] Hint Resolve keeps_compute_flags keeps_add_attribute
  keeps_add_attribute_tag keeps_mark_dirty : frame.

Lemma keeps_process_attribute_tags ind u pos :
  keeps R (process_attribute_tags env ind u pos).
Proof. unfold process_attribute_tags. frame_with quiet. Qed.
#[local] Hint Resolve keeps_process_attribute_tags : frame.

Lemma keeps_add_and_tag_attribute ind t v pos when :
  keeps R (add_and_tag_attribute env ind t v pos when).
Proof. unfold add_and_tag_attribute. frame_with quiet. Qed.

Lemma keeps_add_indicator_obj o evt mal : keeps R (add_indicator_obj o evt mal).
Proof. unfold add_indicator_obj. frame_with quiet. Qed.
#[local] Hint Resolve keeps_add_and_tag_attribute keeps_add_indicator_obj : frame.

Lemma keeps_attach_to_event ind fl t v when b :
  keeps R (attach_to_event env ind fl t v when b).
Proof. unfold attach_to_event. frame_with quiet. Qed.

Lemma keeps_attach_to_family ind fl t v when b :
  keeps R (attach_to_family env ind fl t v when b).
Proof. unfold attach_to_family. frame_with quiet. Qed.
#[local] Hint Resolve keeps_attach_to_event keeps_attach_to_family : frame.

Lemma keeps_apply_flags ind fl : keeps R (apply_flags env ind fl).
Proof. unfold apply_flags. frame_with quiet. Qed.
#[local] Hint Resolve keeps_apply_flags : frame.

Lemma keeps_add_indicator_event ind : keeps R (add_indicator_event env ind).
Proof. unfold add_indicator_event. frame_with quiet. Qed.
#[local] Hint Resolve keeps_add_indicator_event : frame.

Lemma keeps_indicator_thread ind : keeps R (indicator_thread env ind).
Proof. unfold indicator_thread. frame_with quiet. Qed.

Lemma keeps_process_indicator_batch batch :
  keeps R (process_indicator_batch env batch).
Proof.
  unfold process_indicator_batch. apply (keeps_bind R); [frame_with quiet|intros _].
  apply (keeps_bind R); [|intros; apply keeps_collect_results; assumption].
  apply keeps_submit_map; [assumption|]. intros; apply keeps_indicator_thread.
Qed.

Lemma keeps_refresh_each pos found confirm :
  keeps R (refresh_each pos found confirm).
Proof. revert confirm. induction found; intros confirm; simpl; frame_with quiet. Qed.
#[local] Hint Resolve keeps_refresh_each : frame.

Lemma keeps_refresh_in_memory evt d : keeps R (refresh_in_memory env evt d).
Proof. unfold refresh_in_memory. frame_with quiet. Qed.
#[local] Hint Resolve keeps_refresh_in_memory : frame.

Lemma keeps_save_loop evt tries : keeps R (save_loop env evt tries).
Proof. induction tries; simpl; frame_with quiet. Qed.
#[local] Hint Resolve keeps_save_loop : frame.

Lemma keeps_event_thread evt n : keeps R (event_thread env evt n).
Proof. unfold event_thread. frame_with quiet. Qed.

Lemma keeps_clean_laundry_from dirty : keeps R (clean_laundry_from env dirty).
Proof.
  unfold clean_laundry_from. apply (keeps_bind R); [|intros; frame_with quiet].
  apply keeps_submit_map; [assumption|]. intros; apply keeps_event_thread.
Qed.
#[local] Hint Resolve keeps_clean_laundry_from : frame.

Lemma keeps_clean_laundry : keeps R (clean_laundry env).
Proof. unfold clean_laundry. frame_with quiet. Qed.

Lemma keeps_pop_dirty title : keeps R (pop_dirty title).
Proof. unfold pop_dirty. frame_with quiet. Qed.
#[local] Hint Resolve keeps_process_indicator_batch keeps_clean_laundry
  keeps_pop_dirty : frame.

Lemma keeps_process_batch batch : keeps R (process_batch env batch).
Proof. unfold process_batch. frame_with quiet. Qed.

End WorkerFrames.

(** ** What the relations are indifferent to *)

Import Indicators Frames.

#[local] Instance same_checkpoint_preorder : PreOrder same_checkpoint.
Proof. split; unfold same_checkpoint; [intros s; reflexivity|intros a b c; congruence]. Qed.

#[local] Instance same_checkpoint_quiet : Quiet same_checkpoint.
Proof. split; try apply _; intros; reflexivity. Qed.

#[local] Instance same_checkpoint_dirty : QuietDirty same_checkpoint.
Proof. intros f s. reflexivity. Qed.

#[local] Instance same_checkpoint_feeds : QuietFeeds same_checkpoint.
Proof. intros f s. reflexivity. Qed.

#[local] Instance same_dirty_preorder : PreOrder same_dirty.
Proof. split; unfold same_dirty; [intros s; reflexivity|intros a b c; congruence]. Qed.

#[local] Instance same_dirty_quiet : Quiet same_dirty.
Proof. split; try apply _; intros; reflexivity. Qed.

#[local] Instance same_dirty_feeds : QuietFeeds same_dirty.
Proof. intros f s. reflexivity. Qed.

#[local] Instance log_grows_preorder : PreOrder log_grows.
Proof. split; unfold log_grows; [intros s r; tauto|intros a b c; auto]. Qed.

#[local] Instance log_grows_quiet : Quiet log_grows.
Proof.
  split; try apply _; intros; intros entry Hentry; simpl; try exact Hentry.
  apply in_or_app; left; exact Hentry.
Qed.

#[local] Instance log_grows_dirty : QuietDirty log_grows.
Proof. intros f s r Hr. exact Hr. Qed.

#[local] Instance log_grows_feeds : QuietFeeds log_grows.
Proof. intros f s r Hr. exact Hr. Qed.

(** ** Raising *)

Section Raising.
Context {S : Type}.

Lemma raises_bind_l {A B} (m : M S A) (k : A -> M S B) s :
  is_raise (fst (m s)) = true -> is_raise (fst (bind m k s)) = true.
Proof. unfold bind. destruct (m s) as [[a|e] s1]; simpl; [discriminate|reflexivity]. Qed.

Lemma raises_bind_r {A B} (m : M S A) (k : A -> M S B) s :
  (forall a s1, is_raise (fst (k a s1)) = true) -> is_raise (fst (bind m k s)) = true.
Proof. intros H. unfold bind. destruct (m s) as [[a|e] s1]; simpl; [apply H|reflexivity]. Qed.

Lemma bind_raised {A B} (m : M S A) (k : A -> M S B) s e s1 :
  m s = (Raise e, s1) -> bind m k s = (Raise e, s1).
Proof. intros H. unfold bind. rewrite H. reflexivity. Qed.

Lemma bind_returned {A B} (m : M S A) (k : A -> M S B) s a s1 :
  m s = (Ret a, s1) -> bind m k s = k a s1.
Proof. intros H. unfold bind. rewrite H. reflexivity. Qed.

(** A bind returned: so did its first part, and then the second. *)
Lemma bind_inv {A B} (m : M S A) (k : A -> M S B) s b s' :
  bind m k s = (Ret b, s') -> exists a s1, m s = (Ret a, s1) /\ k a s1 = (Ret b, s').
Proof.
  unfold bind. destruct (m s) as [[a|e] s1]; [eauto|discriminate].
Qed.

Lemma for_each_raises {X} (xs : list X) (body : X -> M S unit) x :
  In x xs -> (forall s, is_raise (fst (body x s)) = true) ->
  forall s, is_raise (fst (for_each xs body s)) = true.
Proof.
  intros Hin Hx. induction xs as [|y rest IH]; [destruct Hin|]. intros s. simpl.
  destruct Hin as [->|Hin].
  - apply raises_bind_l, Hx.
  - apply raises_bind_r. intros _ s1. apply IH, Hin.
Qed.

(** When the first part always raises, what follows it is never run. *)
Lemma keeps_bind_raises (R : S -> S -> Prop) {A B} (m : M S A) (k : A -> M S B) :
  keeps R m -> (forall s, is_raise (fst (m s)) = true) -> keeps R (bind m k).
Proof.
  intros Hm Hr s. unfold bind. specialize (Hm s). specialize (Hr s).
  destruct (m s) as [[a|e] s1]; simpl in *; [discriminate|exact Hm].
Qed.

(** A [try] whose handler does not raise returns. *)
Lemma try_except_returns {A} (body : M S A) handler s :
  (forall e s1, is_raise (fst (handler e s1)) = false) ->
  is_raise (fst (try_except body handler s)) = false.
Proof.
  intros H. unfold try_except. destruct (body s) as [[a|e] s1]; [reflexivity|apply H].
Qed.

End Raising.

(** ** C8: the batch size *)

Section Batches.
Import Indicators.
Context {A : Type}.

Lemma slices_concat (size rounds : nat) (l : list A) :
  (0 < size)%nat -> (length l <= rounds)%nat -> concat (slices size rounds l) = l.
Proof.
  intros Hsize. revert l. induction rounds as [|n IH]; intros l Hlen.
  - destruct l; [reflexivity|simpl in Hlen; lia].
  - destruct l as [|x l']; [reflexivity|].
    change (slices size (S n) (x :: l'))
      with (take size (x :: l') :: slices size n (drop size (x :: l'))).
    simpl concat. rewrite IH.
    + apply take_drop.
    + rewrite length_drop. simpl in *. lia.
Qed.


End Batches.



(** ** C10: a work item without a value *)

(** C10. For every work item whose [indicator] field is missing or falsy,
    [indicator_thread] raises [UnboundLocalError] at its [return], having
    done nothing: nothing is logged and no counter moves. *)
Theorem C10_missing_value_raises_unbound_local (env : collaborators)
        (ind : indicator) (s : importer) :
  truthy_str (ind_indicator ind) = false ->
  indicator_thread env ind s = (Raise UnboundLocalError, s).
Proof. intros H. unfold indicator_thread. rewrite H. reflexivity. Qed.

Lemma C10_missing_value_raises_unbound_local_witness :
  indicator_thread Sample.quiet_world Sample.valueless Sample.started
  = (Raise UnboundLocalError, Sample.started)
  /\ indicator_thread Sample.quiet_world (Sample.domain (Some "") None) Sample.started
     = (Raise UnboundLocalError, Sample.started).
Proof.
  split; apply C10_missing_value_raises_unbound_local; reflexivity.
Defined.

(** ** The checkpoint of a page *)

Lemma next_last_updated_none (l : list indicator) :
  Forall (fun i => ind_last_updated i = None) l ->
  next_last_updated l = Raise StopIteration.
Proof. induction 1 as [|i rest Hi _ IH]; simpl; [reflexivity|]. rewrite Hi. exact IH. Qed.

Lemma next_last_updated_skip (nulls rest : list indicator) :
  Forall (fun i => ind_last_updated i = None) nulls ->
  next_last_updated (nulls ++ rest) = next_last_updated rest.
Proof. induction 1 as [|i l Hi _ IH]; simpl; [reflexivity|]. rewrite Hi. exact IH. Qed.

(** The scan stops at the first value it meets. *)
Lemma next_last_updated_found (l : list indicator) t :
  next_last_updated l = Ret t ->
  exists nulls i rest,
    l = nulls ++ i :: rest
    /\ Forall (fun j => ind_last_updated j = None) nulls
    /\ ind_last_updated i = Some t.
Proof.
  induction l as [|i l IH]; simpl; [discriminate|].
  destruct (ind_last_updated i) as [u|] eqn:Hi.
  - intros [= ->]. exists [], i, l. auto.
  - intros H. destruct (IH H) as (nulls & j & rest & -> & Hn & Hj).
    exists (i :: nulls), j, rest. auto.
Qed.

(** On the reversed page, that is the last value of the page. *)
Lemma next_last_updated_last (page : list indicator) t :
  next_last_updated (reverse page) = Ret t <-> last_non_null page t.
Proof.
  split.
  - intros H. destruct (next_last_updated_found _ _ H) as (nulls & i & rest & E & Hn & Hi).
    exists (reverse rest), i, (reverse nulls). split; [|split; [exact Hi|]].
    + rewrite <- (reverse_involutive page), E, reverse_app, reverse_cons, <- app_assoc.
      reflexivity.
    + apply Forall_reverse. exact Hn.
  - intros (before & i & after & -> & Hi & Hafter).
    rewrite reverse_app, reverse_cons, <- app_assoc.
    rewrite next_last_updated_skip by (apply Forall_reverse; exact Hafter).
    simpl. rewrite Hi. reflexivity.
Qed.

(** [_note_timestamp] returns, and the file then holds [int(timestamp)]. *)
Lemma warn_each_returns (l : list string) msg s :
  fst (for_each l (fun _ => log_at WARNING msg) s) = Ret tt
  /\ timestamp_file (snd (for_each l (fun _ => log_at WARNING msg) s)) = timestamp_file s.
Proof.
  revert s. induction l as [|x l IH]; intros s; simpl; [auto|].
  unfold bind, log_at, modify. simpl.
  exact (IH (add_log (LogRecord WARNING msg) s)).
Qed.

Lemma note_timestamp_writes t s :
  fst (_note_timestamp t s) = Ret tt
  /\ timestamp_file (snd (_note_timestamp t s)) = Some (py_int t).
Proof.
  unfold _note_timestamp.
  rewrite (bind_returned _ _ s tt (set_timestamp_file (py_int t) s) eq_refl).
  set (s1 := set_timestamp_file (py_int t) s).
  rewrite (bind_returned get _ s1 s1 s1 eq_refl).
  change (MISSING_GALAXIES s1) with (MISSING_GALAXIES s).
  destruct (MISSING_GALAXIES s) as [[|g gs]|]; [split; reflexivity| |split; reflexivity].
  destruct (warn_each_returns (g :: gs) "No galaxy mapping found for malware family." s1)
    as [Hr Ht].
  unfold bind.
  destruct (for_each (g :: gs) _ s1) as [[[]|e] s2]; simpl in *; [|discriminate].
  split; [reflexivity|exact Ht].
Qed.

Lemma keeps_push_batches (env : collaborators) page :
  keeps same_checkpoint (push_batches env page).
Proof.
  unfold push_batches.
  apply (keeps_bind same_checkpoint); [apply keeps_log_at; apply _|intros _].
  apply (keeps_bind same_checkpoint); [|intros _; apply keeps_log_at; apply _].
  apply (keeps_for_each same_checkpoint). intros batch.
  apply keeps_process_batch; apply _.
Qed.

(** A page that was pushed has a last value, and the file holds it. *)
Lemma push_indicators_returned (env : collaborators) page s s' :
  push_indicators env page s = (Ret tt, s') ->
  exists t, last_non_null page t /\ timestamp_file s' = Some t.
Proof.
  unfold push_indicators. intros H.
  apply bind_inv in H as ([] & s1 & _ & H).
  apply bind_inv in H as (t & s2 & Ht & H).
  injection Ht as Ht <-.
  exists t. split; [apply next_last_updated_last, Ht|].
  pose proof (note_timestamp_writes (OfStr t) s1) as [_ Hw].
  rewrite H in Hw. exact Hw.
Qed.

(** ** A page without any [last_updated] *)

Section NullPage.
Variable env : collaborators.
Variable page : list indicator.
Hypothesis page_null : Forall (fun i => ind_last_updated i = None) page.

Lemma null_page_next : next_last_updated (reverse page) = Raise StopIteration.
Proof. apply next_last_updated_none, Forall_reverse, page_null. Qed.

Lemma null_page_raises s : is_raise (fst (push_indicators env page s)) = true.
Proof.
  unfold push_indicators. apply raises_bind_r. intros _ s1.
  apply raises_bind_l. rewrite null_page_next. reflexivity.
Qed.

Lemma null_page_keeps_checkpoint : keeps same_checkpoint (push_indicators env page).
Proof.
  unfold push_indicators.
  apply (keeps_bind same_checkpoint); [apply keeps_push_batches|intros _].
  apply keeps_bind_raises; [apply (keeps_const same_checkpoint)|].
  intros s0. rewrite null_page_next. reflexivity.
Qed.

Lemma null_page_stops_the_run rest count s :
  is_raise (fst (push_pages env (page :: rest) count s)) = true
  /\ timestamp_file (snd (push_pages env (page :: rest) count s)) = timestamp_file s.
Proof.
  simpl. split.
  - apply raises_bind_l, null_page_raises.
  - apply (keeps_bind_raises same_checkpoint);
      [exact null_page_keeps_checkpoint|exact null_page_raises].
Qed.

End NullPage.

(** C9. For every page in which no indicator carries a non-null
    [last_updated] (the empty page is one), the [next(...)] of
    [push_indicators] raises [StopIteration]: the call raises whatever the
    batches did, it raises just that when the batches went through, the
    checkpoint file is left as it was, and the page loop of
    [process_indicators] stops there. *)
Theorem C9_page_without_last_updated_raises (env : collaborators)
        (page : list indicator) (s : importer) :
  Forall (fun i => ind_last_updated i = None) page ->
  next_last_updated (reverse page) = Raise StopIteration
  /\ is_raise (fst (push_indicators env page s)) = true
  /\ timestamp_file (snd (push_indicators env page s)) = timestamp_file s
  /\ (forall s1, push_batches env page s = (Ret tt, s1) ->
        push_indicators env page s = (Raise StopIteration, s1))
  /\ (forall rest count,
        is_raise (fst (push_pages env (page :: rest) count s)) = true
        /\ timestamp_file (snd (push_pages env (page :: rest) count s))
           = timestamp_file s).
Proof.
  intros Hnull.
  split; [apply null_page_next, Hnull|].
  split; [apply null_page_raises, Hnull|].
  split; [apply null_page_keeps_checkpoint, Hnull|]. split.
  - intros s1 H. unfold push_indicators. rewrite (bind_returned _ _ _ _ _ H).
    unfold bind. rewrite (null_page_next page Hnull). reflexivity.
  - intros rest count. apply null_page_stops_the_run, Hnull.
Qed.

Lemma C9_page_without_last_updated_raises_witness :
  push_indicators Sample.quiet_world [] Sample.started
  = (Raise StopIteration,
     add_log (LogRecord INFO "Pushed indicators into MISP.")
       (add_log (LogRecord DEBUG "Configuration states the batch size.") Sample.started))
  /\ timestamp_file (snd (push_indicators Sample.quiet_world
                            [Sample.domain (Some "evil.example") None] Sample.started))
     = Some 500.
Proof.
  split.
  - apply (proj1 (proj2 (proj2 (proj2
      (C9_page_without_last_updated_raises Sample.quiet_world [] Sample.started
         (List.Forall_nil _)))))).
    reflexivity.
  - apply (proj1 (proj2 (proj2
      (C9_page_without_last_updated_raises Sample.quiet_world
         [Sample.domain (Some "evil.example") None] Sample.started
         (List.Forall_cons _ (Sample.domain (Some "evil.example") None) [] eq_refl (List.Forall_nil _)))))).
Defined.

(** ** C6: the checkpoint follows the feed *)

Lemma page_values_app (p q : list indicator) :
  page_values (p ++ q) = page_values p ++ page_values q.
Proof. apply omap_app. Qed.

Lemma last_non_null_in (page : list indicator) t :
  last_non_null page t -> In t (page_values page).
Proof.
  intros (before & i & after & -> & Hi & _).
  rewrite page_values_app. apply in_or_app. right. simpl.
  unfold page_values. simpl. rewrite Hi. left. reflexivity.
Qed.

Lemma sorted_app_le (l1 l2 : list Z) a b :
  StronglySorted Z.le (l1 ++ l2) -> In a l1 -> In b l2 -> a <= b.
Proof.
  induction l1 as [|x l1 IH]; simpl; [tauto|].
  intros Hs [->|Ha] Hb.
  - apply StronglySorted_inv in Hs as [_ Hall].
    rewrite List.Forall_forall in Hall. apply Hall, in_or_app. right. exact Hb.
  - apply StronglySorted_inv in Hs as [Hs _]. auto.
Qed.

Lemma sorted_app_r (l1 l2 : list Z) :
  StronglySorted Z.le (l1 ++ l2) -> StronglySorted Z.le l2.
Proof.
  induction l1 as [|x l1 IH]; simpl; [tauto|].
  intros Hs. apply StronglySorted_inv in Hs as [Hs _]. auto.
Qed.

(** The values of two consecutive pages, as they lie in the feed. *)
Lemma consecutive_pages (pages : list (list indicator)) n p q :
  pages !! n = Some p -> pages !! S n = Some q ->
  exists before after,
    page_values (concat pages) = before ++ (page_values p ++ page_values q) ++ after.
Proof.
  revert n. induction pages as [|x pages IH]; intros n Hp Hq; [discriminate|].
  destruct n as [|n]; simpl in *.
  - injection Hp as ->. destruct pages as [|y pages]; [discriminate|].
    simpl in Hq. injection Hq as ->.
    exists [], (page_values (concat pages)). simpl.
    rewrite !page_values_app, <- app_assoc. reflexivity.
  - destruct (IH n Hp Hq) as (before & after & E).
    exists (page_values x ++ before), after.
    rewrite page_values_app, E, <- !app_assoc. reflexivity.
Qed.

(** A page with a value has a last one. *)
Lemma page_values_last (page : list indicator) :
  page_values page <> [] -> exists t, last_non_null page t.
Proof.
  intros Hvalues.
  assert (H : forall l, (exists t, next_last_updated l = Ret t)
                        \/ Forall (fun i => ind_last_updated i = None) l).
  { induction l as [|i l IH]; simpl; [right; constructor|].
    destruct (ind_last_updated i) as [t|] eqn:Hi; [left; eauto|].
    destruct IH as [IH|IH]; [left; exact IH|right; constructor; assumption]. }
  destruct (H (reverse page)) as [[t Ht]|Hnone].
  - exists t. apply next_last_updated_last, Ht.
  - exfalso. apply Hvalues. apply Forall_reverse in Hnone.
    rewrite reverse_involutive in Hnone. clear -Hnone.
    induction Hnone as [|i l Hi _ IH]; [reflexivity|].
    unfold page_values in *. simpl. rewrite Hi. exact IH.
Qed.

(** Once the batches of a page went through, the page's last value is
    committed. *)
Lemma push_indicators_commits (env : collaborators) page s s1 t :
  push_batches env page s = (Ret tt, s1) ->
  last_non_null page t ->
  fst (push_indicators env page s) = Ret tt
  /\ timestamp_file (snd (push_indicators env page s)) = Some t.
Proof.
  intros Hbatches Hlast. unfold push_indicators.
  rewrite (bind_returned _ _ _ _ _ Hbatches).
  apply next_last_updated_last in Hlast.
  unfold bind. rewrite Hlast. apply (note_timestamp_writes (OfStr t) s1).
Qed.

(** C6. For every sequence of pages whose [last_updated] values do not
    decrease along the feed, and any two consecutive pages N-1 and N of it
    that carry a value and whose batches went through: [push_indicators]
    commits for each the last non-null [last_updated] value of the page,
    found scanning it from its end, and the checkpoint committed for page
    N is at least the one committed for page N-1. *)
Theorem C6_checkpoint_monotone (env : collaborators)
        (pages : list (list indicator)) (n : nat) (p q : list indicator)
        (s1 m1 s2 m2 : importer) :
  StronglySorted Z.le (page_values (concat pages)) ->
  pages !! n = Some p ->
  pages !! S n = Some q ->
  page_values p <> [] ->
  page_values q <> [] ->
  push_batches env p s1 = (Ret tt, m1) ->
  push_batches env q s2 = (Ret tt, m2) ->
  exists a b,
    fst (push_indicators env p s1) = Ret tt
    /\ timestamp_file (snd (push_indicators env p s1)) = Some a
    /\ last_non_null p a
    /\ fst (push_indicators env q s2) = Ret tt
    /\ timestamp_file (snd (push_indicators env q s2)) = Some b
    /\ last_non_null q b
    /\ a <= b.
Proof.
  intros Hsorted Hp Hq Hvp Hvq H1 H2.
  destruct (page_values_last p Hvp) as (a & La).
  destruct (page_values_last q Hvq) as (b & Lb).
  destruct (push_indicators_commits env p s1 m1 a H1 La) as [Ra Ta].
  destruct (push_indicators_commits env q s2 m2 b H2 Lb) as [Rb Tb].
  exists a, b. repeat (split; [assumption|]).
  destruct (consecutive_pages pages n p q Hp Hq) as (before & after & E).
  rewrite E in Hsorted. apply sorted_app_r in Hsorted.
  rewrite <- app_assoc in Hsorted.
  apply (sorted_app_le _ _ a b Hsorted).
  - apply last_non_null_in, La.
  - apply in_or_app. left. apply last_non_null_in, Lb.
Qed.

Lemma C6_checkpoint_monotone_witness :
  exists a b,
    fst (push_indicators Sample.quiet_world [Sample.evil] Sample.started) = Ret tt
    /\ timestamp_file (snd (push_indicators Sample.quiet_world [Sample.evil]
                              Sample.started)) = Some a
    /\ last_non_null [Sample.evil] a
    /\ fst (push_indicators Sample.quiet_world [Sample.other]
              (snd (push_indicators Sample.quiet_world [Sample.evil] Sample.started)))
       = Ret tt
    /\ timestamp_file (snd (push_indicators Sample.quiet_world [Sample.other]
                              (snd (push_indicators Sample.quiet_world [Sample.evil]
                                      Sample.started))))
       = Some b
    /\ last_non_null [Sample.other] b
    /\ a <= b.
Proof.
  apply (C6_checkpoint_monotone Sample.quiet_world [[Sample.evil]; [Sample.other]] 0
           [Sample.evil] [Sample.other]
           Sample.started
           (snd (push_batches Sample.quiet_world [Sample.evil] Sample.started))
           (snd (push_indicators Sample.quiet_world [Sample.evil] Sample.started))
           (snd (push_batches Sample.quiet_world [Sample.other]
                   (snd (push_indicators Sample.quiet_world [Sample.evil]
                           Sample.started))))).
  - repeat constructor. simpl. lia.
  - reflexivity.
  - reflexivity.
  - discriminate.
  - discriminate.
  - vm_compute. reflexivity.
  - vm_compute. reflexivity.
Defined.

(** ** C7: a run without indicators *)

(** The fallback of [process_indicators]: when the feed yields no page at
    all, a run that gets through commits the second in which
    [time_send_request] was taken. *)
Lemma no_pages_commits_request_time (env : collaborators) mins s s' :
  (forall start del, get_indicators env start del = []) ->
  process_indicators env mins s = (Ret tt, s') ->
  timestamp_file s' = Some (Z.quot (time_send_request_us env) 1000000).
Proof.
  intros Hfeed H. unfold process_indicators in H.
  apply bind_inv in H as ([] & s1 & _ & H).
  apply bind_inv in H as (s1' & s2 & _ & H).
  apply bind_inv in H as ([] & s3 & _ & H).
  apply bind_inv in H as ([] & s4 & _ & H).
  apply bind_inv in H as ([] & s5 & _ & H).
  apply bind_inv in H as ([] & s6 & _ & H).
  rewrite Hfeed in H. simpl in H.
  apply bind_inv in H as (count & s7 & Hcount & H).
  injection Hcount as <- <-. simpl in H.
  apply bind_inv in H as ([] & s8 & Hnote & H).
  pose proof (note_timestamp_writes (OfFloat (time_send_request_us env)) s6) as [_ Hw].
  rewrite Hnote in Hw. simpl in Hw.
  unfold log_at, modify in H. injection H as <-. exact Hw.
Qed.

(** C7, on the code.  When the feed answers a run that has no indicators
    with an empty page, [push_indicators] raises [StopIteration] on that
    page: [process_indicators] raises before it reaches its
    [indicators_count == 0] fallback and the checkpoint file is left as it
    was. *)
Theorem C7_empty_page_commits_nothing (env : collaborators) (mins : Z)
        (s : importer) (rest : list (list indicator)) :
  (forall start del, get_indicators env start del = [] :: rest) ->
  is_raise (fst (process_indicators env mins s)) = true
  /\ timestamp_file (snd (process_indicators env mins s)) = timestamp_file s.
Proof.
  intros Hfeed. unfold process_indicators. split.
  - do 2 (apply raises_bind_r; intros ? ?). cbv zeta. rewrite Hfeed.
    do 4 (apply raises_bind_r; intros ? ?).
    apply raises_bind_l. apply null_page_stops_the_run. constructor.
  - revert s. fold (keeps same_checkpoint
      (log_at INFO "Retrieving lookup data for import of CrowdStrike indicators into MISP." ;;;
       s <- get ;;
       let start_get_events :=
         match (if force (settings env) then None else timestamp_file s) with
         | Some line => line
         | None => py_int (OfFloat (today_us env - 60000000 * Z.min mins 20220))
         end in
       let time_send_request := time_send_request_us env in
       modify (set_feeds (retrieve_or_create_feed_events env)) ;;;
       modify (set_feeds (retrieve_family_events env)) ;;;
       find_report_indicators env ;;;
       log_at INFO "Starting import of CrowdStrike indicators into MISP." ;;;
       indicators_count <-
         push_pages env (get_indicators env start_get_events
                           (delete_outdated_indicators (settings env))) 0 ;;
       (if (indicators_count =? 0)%nat
        then _note_timestamp (OfFloat time_send_request)
        else ret tt) ;;;
       log_at INFO "Finished importing CrowdStrike Threat Intelligence indicators into MISP.")).
    apply (keeps_bind same_checkpoint); [apply keeps_log_at; apply _|intros _].
    apply (keeps_bind same_checkpoint); [apply (keeps_get same_checkpoint)|intros s].
    cbv zeta. rewrite Hfeed.
    apply (keeps_bind same_checkpoint); [apply keeps_modify; intros; reflexivity|intros _].
    apply (keeps_bind same_checkpoint); [apply keeps_modify; intros; reflexivity|intros _].
    apply (keeps_bind same_checkpoint); [apply keeps_find_report_indicators; apply _|intros _].
    apply (keeps_bind same_checkpoint); [apply keeps_log_at; apply _|intros _].
    apply keeps_bind_raises.
    + intros s0. apply null_page_stops_the_run. constructor.
    + intros s0. apply null_page_stops_the_run. constructor.
Qed.

Lemma C7_empty_page_commits_nothing_witness :
  is_raise (fst (process_indicators
                   (Sample.world Sample.default_settings [[]] (Ret []) None) 5
                   (fresh_importer (Some 500)))) = true
  /\ timestamp_file (snd (process_indicators
                            (Sample.world Sample.default_settings [[]] (Ret []) None) 5
                            (fresh_importer (Some 500)))) = Some 500.
Proof.
  apply (C7_empty_page_commits_nothing
           (Sample.world Sample.default_settings [[]] (Ret []) None) 5
           (fresh_importer (Some 500)) []).
  intros start del. reflexivity.
Defined.

(** ** The pool *)

Section Pool.
Context {A X : Type} (f : X -> M importer A).
Context (R : importer -> importer -> Prop) `{!PreOrder R}.
Hypothesis f_keeps : forall x, keeps R (f x).

Lemma run_pool_keeps xs s : R s (snd (run_pool (f <$> xs) s)).
Proof.
  revert s. induction xs as [|y rest IH]; intros s.
  - reflexivity.
  - rewrite fmap_cons. cbn [run_pool].
    pose proof (f_keeps y s) as Hy. destruct (f y s) as [r s1]. simpl in Hy.
    specialize (IH s1). destruct (run_pool (f <$> rest) s1) as [rs s2]. simpl in *.
    etransitivity; eassumption.
Qed.

(** Every task of the pool ran from some state, and what it left is
    still there, up to [R], when the pool is done. *)
Lemma run_pool_In xs x s :
  In x xs ->
  exists s1, In (fst (f x s1)) (fst (run_pool (f <$> xs) s))
             /\ R s s1
             /\ R (snd (f x s1)) (snd (run_pool (f <$> xs) s)).
Proof.
  revert s. induction xs as [|y rest IH]; intros s Hin; [destruct Hin|].
  rewrite fmap_cons. cbn [run_pool].
  pose proof (f_keeps y s) as Hy.
  pose proof (run_pool_keeps rest (snd (f y s))) as Hrest.
  destruct Hin as [->|Hin].
  - exists s. destruct (f x s) as [r s1]. simpl in *.
    destruct (run_pool (f <$> rest) s1) as [rs s2]. simpl in *.
    split; [left; reflexivity|]. split; [reflexivity|exact Hrest].
  - destruct (IH (snd (f y s)) Hin) as (s0 & Hfut & Hbefore & Hafter).
    exists s0. destruct (f y s) as [r s1]. simpl in *.
    destruct (run_pool (f <$> rest) s1) as [rs s2]. simpl in *.
    split; [right; exact Hfut|]. split; [etransitivity; eassumption|exact Hafter].
Qed.

End Pool.

Lemma submit_all_run_pool {A} (tasks : list (M importer A)) s :
  submit_all tasks s = (Ret (fst (run_pool tasks s)), snd (run_pool tasks s)).
Proof. unfold submit_all. destruct (run_pool tasks s). reflexivity. Qed.

(** ** C3: a category whose search fails *)

Lemma attribute_search_failed (env : collaborators) name type e s :
  misp_search_attributes env type = Raise e ->
  e = SSLError \/ e = ConnectionError ->
  attribute_search env name type s = (Ret None, add_log search_warning s).
Proof.
  intros Hs He. unfold attribute_search, try_except_only, bind. rewrite Hs.
  destruct He as [-> | ->]; reflexivity.
Qed.

Lemma merge_results_raises futures :
  forall acc s,
    (exists fut, In fut futures /\ (fut = Ret None \/ is_raise fut = true)) ->
    is_raise (fst (merge_results futures acc s)) = true
    /\ snd (merge_results futures acc s) = s.
Proof.
  induction futures as [|fut rest IH]; intros acc s (bad & Hin & Hbad); [destruct Hin|].
  simpl. unfold bind, future_result.
  destruct fut as [[found|]|e]; simpl; auto.
  apply IH. destruct Hin as [<-|Hin]; [|eauto].
  destruct Hbad as [Hbad|Hbad]; discriminate.
Qed.

(** C3, on the code.  A category whose attribute search fails with a
    connection or SSL error does get its warning, but [attribute_search]
    then returns [None] and [retrieved_indicators.update(None)] raises:
    [find_report_indicators] raises, and so does [process_indicators]. *)
Theorem C3_failed_search_aborts_the_index (env : collaborators)
        (name type : string) (e : exn) (s : importer) :
  In (name, type) (INDICATOR_TYPES env) ->
  type <> ""%string ->
  misp_search_attributes env type = Raise e ->
  e = SSLError \/ e = ConnectionError ->
  is_raise (fst (find_report_indicators env s)) = true
  /\ In search_warning (log (snd (find_report_indicators env s)))
  /\ (forall mins s0, is_raise (fst (process_indicators env mins s0)) = true).
Proof.
  intros Hin Htype Hsearch He.
  set (f := fun p : string * string => attribute_search env (fst p) (snd p)).
  set (xs := filter (fun p : string * string => negb (String.eqb (snd p) ""))
                    (INDICATOR_TYPES env)).
  assert (Hxs : In (name, type) xs).
  { apply list_elem_of_In, list_elem_of_filter. split; [|apply list_elem_of_In, Hin].
    simpl. apply Is_true_true, negb_true_iff, String.eqb_neq, Htype. }
  assert (Hf : forall s1, f (name, type) s1 = (Ret None, add_log search_warning s1)).
  { intros s1. apply (attribute_search_failed env name type e s1 Hsearch He). }
  assert (Hraise : forall s0, is_raise (fst (find_report_indicators env s0)) = true
                              /\ In search_warning (log (snd (find_report_indicators env s0)))).
  { intros s0. unfold find_report_indicators. fold f. fold xs.
    rewrite (bind_returned _ _ _ _ _ (submit_all_run_pool (f <$> xs) s0)).
    destruct (run_pool_In f log_grows (fun x => keeps_attribute_search env log_grows _ _)
                xs (name, type) s0 Hxs) as (s1 & Hfut & _ & Hlog).
    rewrite Hf in Hfut, Hlog. simpl in Hfut, Hlog.
    destruct (merge_results_raises (fst (run_pool (f <$> xs) s0)) ∅
                (snd (run_pool (f <$> xs) s0))) as [Hr Hs]; [eauto|].
    split.
    - apply raises_bind_l, Hr.
    - unfold bind.
      destruct (merge_results _ _ _) as [[acc|err] s2]; simpl in *; [discriminate|].
      subst s2. apply Hlog. apply in_or_app. right. left. reflexivity. }
  split; [apply Hraise|]. split; [apply Hraise|].
  intros mins s0. unfold process_indicators.
  do 4 (apply raises_bind_r; intros ? ?).
  apply raises_bind_l, Hraise.
Qed.

Lemma C3_failed_search_aborts_the_index_witness :
  is_raise (fst (find_report_indicators
                   (Sample.world Sample.default_settings [[Sample.evil]]
                                 (Raise ConnectionError) None)
                   Sample.started)) = true.
Proof.
  apply (C3_failed_search_aborts_the_index
           (Sample.world Sample.default_settings [[Sample.evil]]
                         (Raise ConnectionError) None)
           "Domain" "domain" ConnectionError Sample.started).
  - left. reflexivity.
  - discriminate.
  - reflexivity.
  - right. reflexivity.
Defined.

(** ** C4: an indicator that cannot be mapped *)

Lemma collect_results_raises futures :
  (exists fut, In fut futures /\ is_raise fut = true) ->
  forall t s, is_raise (fst (collect_results futures t s)) = true.
Proof.
  induction futures as [|fut rest IH]; intros (bad & Hin & Hbad) t s; [destruct Hin|].
  simpl. unfold bind, future_result. destruct fut as [r|e]; simpl; [|reflexivity].
  apply IH. destruct Hin as [<-|Hin]; [discriminate|eauto].
Qed.

(** A worker handed an indicator without a value, without a type or of a
    type that [IndicatorType] does not know raises. *)
Lemma indicator_thread_raises (env : collaborators) (ind : indicator) :
  truthy_str (ind_indicator ind) = false
  \/ ind_type ind = None
  \/ (exists t, ind_type ind = Some t /\ IndicatorType env (upper t) = None) ->
  forall s, is_raise (fst (indicator_thread env ind s)) = true.
Proof.
  intros H s. unfold indicator_thread.
  destruct (truthy_str (ind_indicator ind)); [|reflexivity].
  destruct H as [H|H]; [discriminate|].
  apply raises_bind_l. unfold add_indicator_event. apply raises_bind_l.
  unfold compute_flags. apply raises_bind_l.
  destruct H as [-> | (t & -> & ->)]; reflexivity.
Qed.

Lemma process_indicator_batch_raises (env : collaborators) ind batch :
  In ind batch ->
  (forall s, is_raise (fst (indicator_thread env ind s)) = true) ->
  forall s, is_raise (fst (process_indicator_batch env batch s)) = true.
Proof.
  intros Hin Hind s. unfold process_indicator_batch.
  apply raises_bind_r. intros _ s1.
  rewrite (bind_returned _ _ _ _ _ (submit_all_run_pool _ s1)).
  apply collect_results_raises.
  destruct (run_pool_In (indicator_thread env) same_checkpoint
              (fun x => keeps_indicator_thread env same_checkpoint x)
              batch ind s1 Hin) as (s2 & Hfut & _).
  eauto.
Qed.

(** C4, on the code.  An indicator without a value, without a type or of
    an unknown type makes its worker raise ([UnboundLocalError],
    [AttributeError], [KeyError]); nothing catches it, so the batch that
    holds it raises out of [process_indicator_batch] before the flush, and
    [push_indicators] raises for the page, leaving the checkpoint as it
    was. *)
Theorem C4_unusable_indicator_aborts_the_batch (env : collaborators)
        (ind : indicator) (batch : list indicator) (s : importer) :
  In ind batch ->
  truthy_str (ind_indicator ind) = false
  \/ ind_type ind = None
  \/ (exists t, ind_type ind = Some t /\ IndicatorType env (upper t) = None) ->
  is_raise (fst (process_indicator_batch env batch s)) = true
  /\ is_raise (fst (process_batch env batch s)) = true
  /\ is_raise (fst (push_indicators env batch s)) = true
  /\ timestamp_file (snd (push_indicators env batch s)) = timestamp_file s.
Proof.
  intros Hin Hbad.
  pose proof (indicator_thread_raises env ind Hbad) as Hind.
  assert (Hbatch : forall b, In ind b ->
            forall s0, is_raise (fst (process_batch env b s0)) = true).
  { intros b Hb s0. unfold process_batch. apply raises_bind_r. intros _ s1.
    apply raises_bind_l. apply (process_indicator_batch_raises env ind b Hb Hind). }
  assert (Hpush : forall s0, is_raise (fst (push_batches env batch s0)) = true).
  { intros s0. unfold push_batches. apply raises_bind_r. intros _ s1.
    apply raises_bind_l.
    assert (Hsome : exists b, In b (ind_batches env batch) /\ In ind b).
    { apply in_concat. unfold ind_batches. rewrite slices_concat; [exact Hin| |lia].
      unfold IND_BATCH_SIZE. lia. }
    destruct Hsome as (b & Hb & Hib).
    apply (for_each_raises _ _ b Hb). apply Hbatch, Hib. }
  split; [apply (process_indicator_batch_raises env ind batch Hin Hind)|].
  split; [apply Hbatch, Hin|]. split.
  - unfold push_indicators. apply raises_bind_l, Hpush.
  - apply (keeps_bind_raises same_checkpoint); [apply keeps_push_batches|exact Hpush].
Qed.

Lemma C4_unusable_indicator_aborts_the_batch_witness :
  is_raise (fst (process_indicator_batch Sample.quiet_world
                   [Sample.evil; Sample.valueless; Sample.other] Sample.started)) = true.
Proof.
  apply (C4_unusable_indicator_aborts_the_batch Sample.quiet_world Sample.valueless
           [Sample.evil; Sample.valueless; Sample.other] Sample.started).
  - right. left. reflexivity.
  - left. reflexivity.
Defined.

(** ** C1: the flush and the dirty set *)

Section Laundry.
Context {V : Type}.

Lemma dict_set_In k (v : V) d k' v' :
  In (k', v') (dict_set k v d) -> (v' = v /\ k' = k) \/ In (k', v') d.
Proof.
  induction d as [|[k0 v0] rest IH]; simpl.
  - intros [[= <- <-]|[]]. auto.
  - destruct (String.eqb k k0) eqn:E.
    + apply String.eqb_eq in E as ->.
      intros [[= <- <-]|H]; auto.
    + intros [H|H]; [auto|]. destruct (IH H); auto.
Qed.

Lemma dict_set_key k (v : V) d : In k (map fst (dict_set k v d)).
Proof.
  induction d as [|[k0 v0] rest IH]; simpl; [auto|].
  destruct (String.eqb k k0) eqn:E; simpl.
  - apply String.eqb_eq in E. auto.
  - auto.
Qed.

Lemma dict_set_keeps_keys k (v : V) d k' :
  In k' (map fst d) -> In k' (map fst (dict_set k v d)).
Proof.
  induction d as [|[k0 v0] rest IH]; simpl; [tauto|].
  destruct (String.eqb k k0); simpl; tauto.
Qed.

Lemma dict_set_new_key k (v : V) d k' :
  In k' (map fst (dict_set k v d)) -> k' = k \/ In k' (map fst d).
Proof.
  induction d as [|[k0 v0] rest IH]; simpl.
  - intros [<-|[]]. auto.
  - destruct (String.eqb k k0); simpl; [tauto|].
    intros [H|H]; [auto|]. destruct (IH H); auto.
Qed.

Lemma dict_set_NoDup k (v : V) d :
  NoDup (map fst d) -> NoDup (map fst (dict_set k v d)).
Proof.
  induction d as [|[k0 v0] rest IH]; simpl.
  - intros _. apply NoDup_singleton.
  - intros H. apply NoDup_cons in H as [Hk0 Hrest].
    destruct (String.eqb k k0) eqn:E; simpl.
    + apply NoDup_cons. auto.
    + apply NoDup_cons. split; [|auto].
      intros Hin. apply list_elem_of_In, dict_set_new_key in Hin as [->|Hin].
      * rewrite String.eqb_refl in E. discriminate.
      * apply Hk0, list_elem_of_In, Hin.
Qed.

End Laundry.

(** The laundry has an entry under the title of every dirty event of the
    registry, and each entry holds an event of the registry that bears the
    title it is filed under. *)
Lemma get_laundry_spec (s : importer) :
  (forall fe, In fe (feeds s) -> is_Some (dirty_feeds s !! info fe) ->
              In (info fe) (map fst (get_laundry s)))
  /\ (forall k e c, In (k, (e, c)) (get_laundry s) -> info e = k /\ In e (feeds s)).
Proof.
  unfold get_laundry.
  set (step := fun (laundry : list (string * (MISPEvent * nat))) fe =>
                 match dirty_feeds s !! info fe with
                 | Some count => dict_set (info fe) (fe, count) laundry
                 | None => laundry
                 end).
  assert (G : forall l acc,
    (forall e, In e l -> In e (feeds s)) ->
    (forall k e c, In (k, (e, c)) acc -> info e = k /\ In e (feeds s)) ->
    (forall k, In k (map fst acc) -> In k (map fst (fold_left step l acc)))
    /\ (forall fe, In fe l -> is_Some (dirty_feeds s !! info fe) ->
                   In (info fe) (map fst (fold_left step l acc)))
    /\ (forall k e c, In (k, (e, c)) (fold_left step l acc) ->
                      info e = k /\ In e (feeds s))).
  { induction l as [|fe l IH]; intros acc Hl Hacc; simpl.
    - split; [auto|]. split; [intros ? []|exact Hacc].
    - assert (Hstep : forall k e c, In (k, (e, c)) (step acc fe) ->
                                    info e = k /\ In e (feeds s)).
      { intros k e c. unfold step. destruct (dirty_feeds s !! info fe) as [n|]; [|apply Hacc].
        intros H. apply dict_set_In in H as [[[= -> ->] ->]|H]; [|apply Hacc in H; exact H].
        split; [reflexivity|]. apply Hl. left. reflexivity. }
      destruct (IH (step acc fe) (fun e He => Hl e (or_intror He)) Hstep)
        as (Hkeys & Hcover & Hwf).
      split; [|split; [|exact Hwf]].
      + intros k Hk. apply Hkeys. unfold step.
        destruct (dirty_feeds s !! info fe); [apply dict_set_keeps_keys|]; exact Hk.
      + intros fe' [<-|Hin] Hdirty; [|apply Hcover; assumption].
        apply Hkeys. unfold step. destruct Hdirty as [n ->]. apply dict_set_key. }
  destruct (G (feeds s) [] (fun e He => He) (fun k e c (H : In _ []) => match H with end))
    as (_ & Hcover & Hwf).
  split; assumption.
Qed.

(** The laundry files each title once, and only titles of the dirty set. *)
Lemma get_laundry_keys (s : importer) :
  NoDup (map fst (get_laundry s))
  /\ (forall k, In k (map fst (get_laundry s)) -> is_Some (dirty_feeds s !! k)).
Proof.
  unfold get_laundry.
  set (step := fun (laundry : list (string * (MISPEvent * nat))) fe =>
                 match dirty_feeds s !! info fe with
                 | Some count => dict_set (info fe) (fe, count) laundry
                 | None => laundry
                 end).
  assert (G : forall l acc,
    NoDup (map fst acc) ->
    (forall k, In k (map fst acc) -> is_Some (dirty_feeds s !! k)) ->
    NoDup (map fst (fold_left step l acc))
    /\ (forall k, In k (map fst (fold_left step l acc)) -> is_Some (dirty_feeds s !! k))).
  { induction l as [|fe l IH]; intros acc Hnd Hdom; simpl; [auto|].
    apply IH; unfold step; destruct (dirty_feeds s !! info fe) as [n|] eqn:E; auto.
    - apply dict_set_NoDup, Hnd.
    - intros k Hk. apply dict_set_new_key in Hk as [->|Hk]; [rewrite E; eauto|auto]. }
  apply (G (feeds s) []); [apply NoDup_nil_2|intros k []].
Qed.

Lemma event_thread_title (env : collaborators) evt n s r s' :
  event_thread env evt n s = (Ret r, s') -> r = info evt.
Proof.
  unfold event_thread. intros H.
  apply bind_inv in H as (ok & s1 & _ & H).
  apply bind_inv in H as ([] & s2 & _ & H).
  injection H as <- _. reflexivity.
Qed.

(** A try that ends in one of the three exceptions the loop catches: two
    warnings, and the loop goes on. *)
Lemma save_loop_failed_try (env : collaborators) evt try rest e s :
  save_error (misp_update_event env evt try) = Some e ->
  In e [SSLError; ConnectionError; MISPServerError] ->
  save_loop env evt (try :: rest) s
  = save_loop env evt rest
      (add_log (LogRecord WARNING "Unable to update with new indicators.")
         (add_log (LogRecord WARNING "Connection failure, could not save event.") s)).
Proof.
  intros Hsave He. cbn [save_loop]. rewrite Hsave.
  unfold bind at 1. unfold try_except_only, raise.
  destruct He as [<-|[<-|[<-|[]]]]; reflexivity.
Qed.

(** An event whose three tries all fail so: the error is logged, and the
    thread returns the title all the same. *)
Lemma event_thread_failed (env : collaborators) evt n s :
  (forall try, In try [1; 2; 3]%nat ->
     exists e, save_error (misp_update_event env evt try) = Some e
               /\ In e [SSLError; ConnectionError; MISPServerError]) ->
  fst (event_thread env evt n s) = Ret (info evt)
  /\ In unable_to_update (log (snd (event_thread env evt n s))).
Proof.
  intros H.
  destruct (H 1%nat) as (e1 & H1 & C1); [simpl; auto|].
  destruct (H 2%nat) as (e2 & H2 & C2); [simpl; auto|].
  destruct (H 3%nat) as (e3 & H3 & C3); [simpl; auto|].
  assert (E : exists s3, save_loop env evt [1; 2; 3]%nat s = (Ret false, s3)).
  { rewrite (save_loop_failed_try env evt 1 _ e1 _ H1 C1).
    rewrite (save_loop_failed_try env evt 2 _ e2 _ H2 C2).
    rewrite (save_loop_failed_try env evt 3 _ e3 _ H3 C3).
    eexists. reflexivity. }
  destruct E as [s3 E]. unfold event_thread.
  rewrite (bind_returned _ _ _ _ _ E).
  simpl. split; [reflexivity|]. apply in_or_app. right. left. reflexivity.
Qed.

(** Collecting the futures of a pool returns only if every task did, and
    then it returns their values. *)
Lemma collect_futures {A} (futures : list (result A)) s saved s' :
  for_collect futures future_result s = (Ret saved, s') ->
  futures = Ret <$> saved /\ s' = s.
Proof.
  revert saved. induction futures as [|fut rest IH]; intros saved; simpl.
  - intros [= <- <-]. auto.
  - intros H. apply bind_inv in H as (a & s1 & Ha & H).
    apply bind_inv in H as (ys & s2 & Hys & H).
    injection H as <- <-. unfold future_result in Ha. injection Ha as -> <-.
    destruct (IH ys Hys) as [-> ->]. auto.
Qed.

(** Once every returned title is popped, none of them is dirty. *)
Lemma pop_dirty_stays_clean saved : forall s s' k,
  dirty_feeds s !! k = None ->
  for_each saved pop_dirty s = (Ret tt, s') ->
  dirty_feeds s' !! k = None.
Proof.
  induction saved as [|x rest IH]; intros s s' k Hk; simpl.
  - intros [= <-]. exact Hk.
  - intros H. apply bind_inv in H as ([] & s1 & Hpop & H).
    apply (IH s1 s' k); [|exact H].
    unfold pop_dirty in Hpop. rewrite (bind_returned get _ s s s eq_refl) in Hpop.
    destruct (dirty_feeds s !! x); [|discriminate].
    injection Hpop as <-. simpl.
    destruct (decide (x = k)) as [->|Hne];
      [apply lookup_delete_eq|rewrite lookup_delete_ne by exact Hne; exact Hk].
Qed.

Lemma pop_dirty_all saved : forall s s' k,
  In k saved ->
  for_each saved pop_dirty s = (Ret tt, s') ->
  dirty_feeds s' !! k = None.
Proof.
  induction saved as [|x rest IH]; intros s s' k Hin; [destruct Hin|]. simpl.
  intros H. apply bind_inv in H as ([] & s1 & Hpop & H).
  destruct Hin as [->|Hin]; [|apply (IH s1 s' k Hin H)].
  apply (pop_dirty_stays_clean rest s1 s' k); [|exact H].
  unfold pop_dirty in Hpop. rewrite (bind_returned get _ s s s eq_refl) in Hpop.
  destruct (dirty_feeds s !! k); [|discriminate].
  injection Hpop as <-. simpl. apply lookup_delete_eq.
Qed.

(** A flush that went through has popped the title of the container whose
    saves all failed, and has logged the error. *)
Lemma flush_pops_failed_save (env : collaborators)
      (s s' : importer) (title : string) (count : nat) :
  dirty_feeds s !! title = Some count ->
  (exists evt, In evt (feeds s) /\ info evt = title) ->
  (forall evt try, In evt (feeds s) -> info evt = title -> In try [1; 2; 3]%nat ->
     exists e, save_error (misp_update_event env evt try) = Some e
               /\ In e [SSLError; ConnectionError; MISPServerError]) ->
  flush env s = (Ret tt, s') ->
  dirty_feeds s' !! title = None
  /\ In unable_to_update (log s').
Proof.
  intros Hdirty (evt & Hevt & Htitle) Hfail Hflush.
  unfold flush in Hflush.
  apply bind_inv in Hflush as (saved & s1 & Hclean & Hpop).
  unfold clean_laundry in Hclean.
  rewrite (bind_returned get _ s s s eq_refl) in Hclean.
  apply bind_inv in Hclean as ([] & sa & _ & Hclean).
  apply bind_inv in Hclean as ([] & sb & _ & Hclean).
  unfold clean_laundry_from in Hclean.
  set (f := fun feed_data : string * (MISPEvent * nat) =>
              event_thread env (fst (snd feed_data)) (snd (snd feed_data))) in Hclean.
  rewrite (bind_returned _ _ _ _ _ (submit_all_run_pool (f <$> get_laundry s) sb))
    in Hclean.
  apply collect_futures in Hclean as [Hfutures ->].
  destruct (get_laundry_spec s) as [Hcover Hwf].
  assert (Hkey : In title (map fst (get_laundry s))).
  { rewrite <- Htitle. apply Hcover; [exact Hevt|]. rewrite Htitle, Hdirty. eauto. }
  apply in_map_iff in Hkey as ([k [e c]] & Hk & Hentry). simpl in Hk. subst k.
  destruct (Hwf title e c Hentry) as [He Hin].
  destruct (run_pool_In f log_grows
              (fun x => keeps_event_thread env log_grows (fst (snd x)) (snd (snd x)))
              (get_laundry s) (title, (e, c)) sb Hentry) as (s2 & Hfut & _ & Hlog).
  change (f (title, (e, c)) s2) with (event_thread env e c s2) in Hfut, Hlog.
  destruct (event_thread_failed env e c s2) as [Hret Herr].
  { intros try Htry. apply (Hfail e try Hin He Htry). }
  rewrite Hret, Hfutures in Hfut. rewrite He in Hfut.
  apply list_elem_of_In, list_elem_of_fmap in Hfut as (r & [= <-] & Hsaved).
  apply list_elem_of_In in Hsaved.
  split.
  - apply (pop_dirty_all saved _ s' title Hsaved Hpop).
  - pose proof (keeps_for_each log_grows saved pop_dirty
                  (fun x => keeps_pop_dirty log_grows x) (snd (run_pool (f <$> get_laundry s) sb)))
      as Hgrow.
    rewrite Hpop in Hgrow. apply Hgrow, Hlog, Herr.
Qed.

(** *** The flush goes through *)

Lemma refresh_in_memory_returns (env : collaborators) evt d s :
  fst (refresh_in_memory env evt d s) = Ret tt.
Proof.
  assert (H : is_raise (fst (refresh_in_memory env evt d s)) = false).
  { unfold refresh_in_memory. apply try_except_returns. reflexivity. }
  destruct (refresh_in_memory env evt d s) as [[[]|e] s1]; [reflexivity|discriminate].
Qed.

(** The save loop raises only what a try raises and the loop does not
    catch. *)
Lemma save_loop_returns (env : collaborators) evt tries :
  (forall try, In try tries ->
     forall e, save_error (misp_update_event env evt try) = Some e ->
               In e [SSLError; ConnectionError; MISPServerError]) ->
  forall s, is_raise (fst (save_loop env evt tries s)) = false.
Proof.
  induction tries as [|try rest IH]; intros Hok s; [reflexivity|].
  destruct (save_error (misp_update_event env evt try)) as [e|] eqn:E.
  - rewrite (save_loop_failed_try env evt try rest e s E (Hok try (or_introl eq_refl) e E)).
    apply IH. intros t Ht. apply Hok. right. exact Ht.
  - cbn [save_loop]. rewrite E. unfold bind at 1. unfold try_except_only, ret.
    cbn [negb]. unfold bind at 1. unfold log_at at 1. unfold modify.
    pose proof (refresh_in_memory_returns env evt
                  (elapsed_ms (misp_update_event env evt try))
                  (add_log (LogRecord INFO "Updated with new indicators.") s)) as Hr.
    unfold bind.
    destruct (refresh_in_memory env evt _ _) as [r s1]. simpl in Hr. subst r. reflexivity.
Qed.

Lemma event_thread_returns (env : collaborators) evt n :
  (forall try, In try [1; 2; 3]%nat ->
     forall e, save_error (misp_update_event env evt try) = Some e ->
               In e [SSLError; ConnectionError; MISPServerError]) ->
  forall s, fst (event_thread env evt n s) = Ret (info evt).
Proof.
  intros Hok s. unfold event_thread, bind.
  pose proof (save_loop_returns env evt [1; 2; 3]%nat Hok s) as Hr.
  destruct (save_loop env evt [1; 2; 3]%nat s) as [[ok|e] s1]; [|discriminate].
  destruct ok; reflexivity.
Qed.

(** When every task returns what [g] says, so do the futures. *)
Lemma run_pool_returns {A X} (f : X -> M importer A) (g : X -> A) xs :
  (forall x, In x xs -> forall s, fst (f x s) = Ret (g x)) ->
  forall s, fst (run_pool (f <$> xs) s) = Ret <$> (g <$> xs).
Proof.
  induction xs as [|x rest IH]; intros H s; [reflexivity|].
  rewrite !fmap_cons. cbn [run_pool].
  pose proof (H x (or_introl eq_refl) s) as Hx.
  destruct (f x s) as [r s1]. simpl in Hx. subst r.
  specialize (IH (fun y Hy => H y (or_intror Hy)) s1).
  destruct (run_pool (f <$> rest) s1) as [rs s2]. simpl in *. rewrite IH. reflexivity.
Qed.

Lemma collect_returned {A} (values : list A) s :
  for_collect (Ret <$> values) future_result s = (Ret values, s).
Proof.
  induction values as [|v rest IH]; [reflexivity|].
  rewrite fmap_cons. cbn [for_collect]. unfold bind at 1. unfold future_result at 1.
  unfold bind. rewrite IH. reflexivity.
Qed.

(** Popping titles that are all dirty, each once, goes through. *)
Lemma pop_dirty_returns saved : forall s,
  NoDup saved ->
  (forall k, In k saved -> is_Some (dirty_feeds s !! k)) ->
  fst (for_each saved pop_dirty s) = Ret tt.
Proof.
  induction saved as [|x rest IH]; intros s Hnd Hdom; [reflexivity|].
  apply NoDup_cons in Hnd as [Hx Hnd]. simpl.
  unfold bind at 1. unfold pop_dirty. rewrite (bind_returned get _ s s s eq_refl).
  destruct (Hdom x (or_introl eq_refl)) as [n ->]. simpl.
  apply IH; [exact Hnd|]. intros k Hk. simpl.
  rewrite lookup_delete_ne; [apply Hdom; right; exact Hk|].
  intros ->. apply Hx, list_elem_of_In, Hk.
Qed.

(** As long as no save raises anything but what [event_thread] catches,
    the flush returns. *)
Lemma flush_returns (env : collaborators) (s : importer) :
  (forall evt try, In evt (feeds s) -> In try [1; 2; 3]%nat ->
     forall e, save_error (misp_update_event env evt try) = Some e ->
               In e [SSLError; ConnectionError; MISPServerError]) ->
  fst (flush env s) = Ret tt.
Proof.
  intros Hok.
  destruct (get_laundry_spec s) as [_ Hwf].
  destruct (get_laundry_keys s) as [Hnd Hdom].
  set (f := fun feed_data : string * (MISPEvent * nat) =>
              event_thread env (fst (snd feed_data)) (snd (snd feed_data))).
  assert (Hf : forall x, In x (get_laundry s) -> forall s1, fst (f x s1) = Ret (fst x)).
  { intros [k [e c]] Hx s1. destruct (Hwf k e c Hx) as [Hk Hin]. unfold f. simpl.
    rewrite <- Hk. apply event_thread_returns. intros try Htry. apply Hok; assumption. }
  assert (Hclean : forall s0, dirty_feeds s0 = dirty_feeds s ->
            exists s1, clean_laundry_from env (get_laundry s) s0
                       = (Ret (map fst (get_laundry s)), s1)
                       /\ dirty_feeds s1 = dirty_feeds s).
  { intros s0 Hs0. unfold clean_laundry_from. fold f.
    rewrite (bind_returned _ _ _ _ _ (submit_all_run_pool (f <$> get_laundry s) s0)).
    rewrite (run_pool_returns f fst (get_laundry s) Hf s0).
    rewrite collect_returned. eexists. split; [reflexivity|].
    rewrite <- Hs0.
    apply (run_pool_keeps f same_dirty
             (fun x => keeps_event_thread env same_dirty (fst (snd x)) (snd (snd x)))). }
  destruct (Hclean (add_log (LogRecord INFO "indicator type and malware family event updates were skipped.")
                      (add_log (LogRecord INFO "This batch produced indicators for events.") s))
                   eq_refl) as (s1 & E & Hd).
  assert (Ec : clean_laundry env s = (Ret (map fst (get_laundry s)), s1)).
  { unfold clean_laundry. rewrite (bind_returned get _ s s s eq_refl).
    cbv zeta.
    rewrite (bind_returned (log_at INFO "This batch produced indicators for events.") _ s tt
               (add_log (LogRecord INFO "This batch produced indicators for events.") s)
               eq_refl).
    rewrite (bind_returned
               (log_at INFO "indicator type and malware family event updates were skipped.")
               _ _ tt
               (add_log (LogRecord INFO "indicator type and malware family event updates were skipped.")
                  (add_log (LogRecord INFO "This batch produced indicators for events.") s))
               eq_refl).
    exact E. }
  unfold flush. rewrite (bind_returned _ _ _ _ _ Ec).
  apply pop_dirty_returns; [exact Hnd|]. intros k Hk. rewrite Hd. apply Hdom, Hk.
Qed.

(** C1, on the code.  A container that is dirty and whose save fails on
    all three tries gets its error logged and does not stop the run (the
    flush returns as long as the saves raise nothing but what
    [event_thread] catches), but [event_thread] returns its title like
    that of a saved one and [push_indicators] pops every returned title:
    after the flush the container is no longer in the dirty set. *)
Theorem C1_failed_save_is_taken_off_the_dirty_set (env : collaborators)
        (s : importer) (title : string) (count : nat) :
  dirty_feeds s !! title = Some count ->
  (exists evt, In evt (feeds s) /\ info evt = title) ->
  (forall evt try, In evt (feeds s) -> In try [1; 2; 3]%nat ->
     forall e, save_error (misp_update_event env evt try) = Some e ->
               In e [SSLError; ConnectionError; MISPServerError]) ->
  (forall evt try, In evt (feeds s) -> info evt = title -> In try [1; 2; 3]%nat ->
     is_Some (save_error (misp_update_event env evt try))) ->
  fst (flush env s) = Ret tt
  /\ dirty_feeds (snd (flush env s)) !! title = None
  /\ In unable_to_update (log (snd (flush env s))).
Proof.
  intros Hdirty Hevt Hok Hfail.
  pose proof (flush_returns env s Hok) as Hret.
  split; [exact Hret|].
  apply (flush_pops_failed_save env s (snd (flush env s)) title count Hdirty Hevt).
  - intros evt try Hin Htitle Htry. destruct (Hfail evt try Hin Htitle Htry) as [e He].
    exists e. split; [exact He|]. apply (Hok evt try Hin Htry e He).
  - destruct (flush env s) as [r s']. simpl in Hret. subst r. reflexivity.
Qed.

Lemma C1_failed_save_is_taken_off_the_dirty_set_witness :
  fst (flush (Sample.world Sample.default_settings [] (Ret []) (Some ConnectionError))
             Sample.started_dirty) = Ret tt
  /\ dirty_feeds
       (snd (flush (Sample.world Sample.default_settings [] (Ret []) (Some ConnectionError))
                   Sample.started_dirty))
     !! "Indicator Type: Domain"%string = None
  /\ In unable_to_update
        (log (snd (flush (Sample.world Sample.default_settings [] (Ret [])
                                       (Some ConnectionError))
                         Sample.started_dirty))).
Proof.
  apply (C1_failed_save_is_taken_off_the_dirty_set
           (Sample.world Sample.default_settings [] (Ret []) (Some ConnectionError))
           Sample.started_dirty "Indicator Type: Domain" 1).
  - reflexivity.
  - exists Sample.domain_event. split; [left; reflexivity|reflexivity].
  - intros evt try _ _ e [= <-]. right. left. reflexivity.
  - intros evt try _ _ _. exists ConnectionError. reflexivity.
Defined.

(** ** C5: duplicate flags and attached values *)

#[local] Instance same_values_preorder : PreOrder same_values.
Proof. split; unfold same_values; [intros s; reflexivity|intros a b c; congruence]. Qed.

#[local] Instance same_values_quiet : Quiet same_values.
Proof. split; try apply _; intros; reflexivity. Qed.

#[local] Instance same_values_dirty : QuietDirty same_values.
Proof. intros f s. reflexivity. Qed.

#[local] Instance no_duplicates_preorder : PreOrder preserves_no_duplicates.
Proof. split; unfold preserves_no_duplicates; [intros s; tauto|intros a b c; tauto]. Qed.

#[local] Instance no_duplicates_quiet : Quiet preserves_no_duplicates.
Proof. split; try apply _; intros; intros H; exact H. Qed.

#[local] Instance no_duplicates_dirty : QuietDirty preserves_no_duplicates.
Proof. intros f s H. exact H. Qed.

Lemma no_duplicates_vals s : no_duplicates s <-> Forall (fun l => NoDup l) (vals s).
Proof. unfold no_duplicates, vals. rewrite Forall_fmap. reflexivity. Qed.

(** *** What the registry operations do to the attached values *)

Lemma vals_update_event_at pos f s :
  vals (snd (update_event_at pos f s)) = values_of <$> alter f pos (feeds s).
Proof. reflexivity. Qed.

(** A change of an event that keeps its attributes' values (a tag, an
    object, the threat level) keeps the values. *)
Lemma keeps_retouch pos f :
  (forall e, values_of (f e) = values_of e) ->
  keeps same_values (update_event_at pos f).
Proof.
  intros Hf s. unfold same_values. rewrite vals_update_event_at. unfold vals.
  rewrite (list_fmap_alter values_of f id (feeds s) pos)
    by (apply Forall_forall; intros e _; apply Hf).
  apply list_alter_id. reflexivity.
Qed.

Lemma values_of_add_tag tag u (atts : list MISPAttribute) :
  att_value <$> ((fun a => if (att_uuid a =? u)%nat then add_tag tag a else a) <$> atts)
  = att_value <$> atts.
Proof.
  rewrite <- list_fmap_compose. apply list_fmap_ext. intros i a _. simpl.
  destruct (att_uuid a =? u)%nat; reflexivity.
Qed.

Lemma keeps_values_add_attribute_tag pos tag u :
  keeps same_values (add_attribute_tag pos tag u).
Proof.
  unfold add_attribute_tag. apply keeps_retouch. intros e.
  unfold values_of. simpl. apply values_of_add_tag.
Qed.

Lemma keeps_values_add_indicator_obj o evt mal :
  keeps same_values (add_indicator_obj o evt mal).
Proof.
  unfold add_indicator_obj.
  apply (keeps_bind same_values); [destruct evt|intros _; destruct mal];
    first [apply keeps_retouch; intros; reflexivity | apply (keeps_ret same_values)].
Qed.

Lemma keeps_values_process_attribute_tags (env : collaborators) ind u pos :
  keeps same_values (process_attribute_tags env ind u pos).
Proof.
  unfold process_attribute_tags.
  apply (keeps_try_except same_values); [|intros; apply keeps_log_exception; apply _].
  apply (keeps_bind same_values); [apply (keeps_get same_values)|intros s].
  destruct (derive_tags env ind (MISSING_GALAXIES s)) as [tags missing|e missing].
  - apply (keeps_bind same_values); [apply keeps_modify; intros; reflexivity|intros _].
    apply (keeps_bind same_values).
    { apply (keeps_for_each same_values). intros tag. apply keeps_values_add_attribute_tag. }
    intros _. apply (keeps_bind same_values); [apply (keeps_get same_values)|intros s1].
    destruct (event_at pos s1); [apply keeps_mark_dirty; apply _|apply (keeps_ret same_values)].
  - apply (keeps_bind same_values); [apply keeps_modify; intros; reflexivity|intros _].
    apply (keeps_raise same_values).
Qed.

(** *** Methods that catch whatever they raise *)

Lemma log_exception_returns e s : is_raise (fst (log_exception e s)) = false.
Proof. reflexivity. Qed.

Lemma process_attribute_tags_returns (env : collaborators) ind u pos s :
  fst (process_attribute_tags env ind u pos s) = Ret tt.
Proof.
  pose proof (try_except_returns
                (s <- get ;;
                 match derive_tags env ind (MISSING_GALAXIES s) with
                 | TaggingRaised e missing =>
                     modify (set_MISSING_GALAXIES missing) ;;; raise e
                 | Tagged tagging_list missing =>
                     modify (set_MISSING_GALAXIES missing) ;;;
                     for_each tagging_list (fun tag => add_attribute_tag pos tag u) ;;;
                     s <- get ;;
                     match event_at pos s with
                     | Some evt => mark_dirty (info evt)
                     | None => ret tt
                     end
                 end) log_exception s log_exception_returns) as H.
  fold (process_attribute_tags env ind u pos) in H.
  destruct (process_attribute_tags env ind u pos s) as [[[]|e] s1]; [reflexivity|discriminate].
Qed.

Lemma add_sighting_to_attribute_returns (env : collaborators) att l when s :
  fst (add_sighting_to_attribute env att l when s) = Ret tt.
Proof.
  assert (H : is_raise (fst (add_sighting_to_attribute env att l when s)) = false).
  { unfold add_sighting_to_attribute. apply try_except_returns. reflexivity. }
  destruct (add_sighting_to_attribute env att l when s) as [[[]|e] s1];
    [reflexivity|discriminate].
Qed.

(** *** Attaching *)

Lemma vals_append pos a s :
  vals (snd (update_event_at pos (set_attributes (fun atts => atts ++ [a])) s))
  = attach_value true (Some pos) (att_value a) (vals s).
Proof.
  rewrite vals_update_event_at. unfold attach_value, vals.
  apply list_fmap_alter. apply Forall_forall. intros e _. unfold values_of. simpl.
  rewrite fmap_app. reflexivity.
Qed.

(** [add_and_tag_attribute] appends the value to the container and returns
    1, or appends nothing and returns 0. *)
Lemma add_and_tag_attribute_effect (env : collaborators) ind type value pos when s :
  exists b : bool,
    fst (add_and_tag_attribute env ind type value pos when s)
    = Ret (if b then 1 else 0)%nat
    /\ vals (snd (add_and_tag_attribute env ind type value pos when s))
       = attach_value b (Some pos) value (vals s).
Proof.
  unfold add_and_tag_attribute, try_except, add_attribute.
  destruct (attribute_accepted env type value).
  - exists true.
    set (a := {| att_type := type; att_value := value; att_uuid := uuid_source s;
                 att_tags := []; att_first_seen := first_seen when;
                 att_last_seen := last_seen when |}).
    set (s1 := snd (update_event_at pos (set_attributes (fun atts => atts ++ [a]))
                      (bump_uuid_source s))).
    assert (E : (s0 <- get ;;
                 (let u := uuid_source s0 in
                  modify bump_uuid_source ;;;
                  update_event_at pos (set_attributes (fun atts => atts ++
                    [ {| att_type := type; att_value := value; att_uuid := u;
                         att_tags := []; att_first_seen := first_seen when;
                         att_last_seen := last_seen when |} ])) ;;;
                  ret u)) s = (Ret (uuid_source s), s1)) by reflexivity.
    rewrite (bind_returned _ _ _ _ _ E).
    pose proof (process_attribute_tags_returns env ind (uuid_source s) pos s1) as Hr.
    pose proof (keeps_values_process_attribute_tags env ind (uuid_source s) pos s1) as Hv.
    unfold bind. destruct (process_attribute_tags env ind (uuid_source s) pos s1) as [r s2].
    simpl in Hr, Hv. subst r. simpl. split; [reflexivity|].
    change (vals (add_log (LogRecord DEBUG "Added indicators to event") s2)) with (vals s2).
    rewrite Hv. unfold s1. rewrite vals_append. reflexivity.
  - exists false. split; reflexivity.
Qed.

Lemma attach_value_false pos v V : attach_value false pos v V = V.
Proof. reflexivity. Qed.

Ltac effect_done :=
  repeat split; intros;
  first [ reflexivity | discriminate | assumption | idtac ].

(** The [if event:] block appends to the type container only when
    [evt_dupe] is not set. *)
Lemma attach_to_event_effect (env : collaborators) ind fl type value when ds s :
  exists b sighted : bool,
    fst (attach_to_event env ind fl type value when ds s)
    = Ret ((if b then 1 else 0)%nat, sighted)
    /\ vals (snd (attach_to_event env ind fl type value when ds s))
       = attach_value b (event fl) value (vals s)
    /\ (b = true -> evt_dupe fl = false).
Proof.
  unfold attach_to_event. destruct (event fl) as [p|].
  - destruct (evt_dupe fl); simpl.
    + destruct ds.
      * pose proof (add_sighting_to_attribute_returns env (ind_indicator ind)
                      (attribute_list fl) when s) as Hr.
        pose proof (keeps_add_sighting_to_attribute env same_values (ind_indicator ind)
                      (attribute_list fl) when s) as Hv.
        unfold bind. destruct (add_sighting_to_attribute _ _ _ _ s) as [r s1].
        simpl in Hr, Hv. subst r. exists false, true. effect_done.
      * exists false, false. effect_done.
    + destruct (add_and_tag_attribute_effect env ind type value p when s) as (b & Hr & Hv).
      unfold bind. destruct (add_and_tag_attribute env ind type value p when s) as [r s1].
      simpl in Hr, Hv. subst r. exists b, false. effect_done.
  - exists false, false. effect_done.
Qed.

(** The [if mal_event:] block does the same for the family container and
    [mal_dupe]. *)
Lemma attach_to_family_effect (env : collaborators) ind fl type value when ds s :
  exists b sighted : bool,
    fst (attach_to_family env ind fl type value when ds s)
    = Ret ((if b then 1 else 0)%nat, sighted)
    /\ vals (snd (attach_to_family env ind fl type value when ds s))
       = attach_value b (mal_event fl) value (vals s)
    /\ (b = true -> mal_dupe fl = false).
Proof.
  unfold attach_to_family. destruct (mal_event fl) as [p|].
  - set (level := fun e => set_threat_level
                             (check_and_set_threat_level env ind (threat_level_id e)) e).
    pose proof (keeps_retouch p level (fun e => eq_refl) s) as Hlevel.
    rewrite (bind_returned (update_event_at p level) _ s tt
               (snd (update_event_at p level s)) eq_refl).
    set (s0 := snd (update_event_at p level s)) in *. unfold same_values in Hlevel.
    destruct (mal_dupe fl); simpl.
    + destruct (negb (contains (attribute_list fl) (ind_indicator ind)) && ds).
      * pose proof (add_sighting_to_attribute_returns env (ind_indicator ind)
                      (mal_attribute_list fl) when s0) as Hr.
        pose proof (keeps_add_sighting_to_attribute env same_values (ind_indicator ind)
                      (mal_attribute_list fl) when s0) as Hv.
        unfold bind. destruct (add_sighting_to_attribute _ _ _ _ s0) as [r s1].
        simpl in Hr, Hv. subst r. exists false, true. simpl.
        split; [reflexivity|]. split; [|discriminate]. rewrite Hv. exact Hlevel.
      * exists false, false. effect_done.
    + destruct (add_and_tag_attribute_effect env ind type value p when s0) as (b & Hr & Hv).
      unfold bind. destruct (add_and_tag_attribute env ind type value p when s0) as [r s1].
      simpl in Hr, Hv. subst r. exists b, false. simpl.
      split; [reflexivity|]. split; [|reflexivity]. rewrite Hv, Hlevel. reflexivity.
  - exists false, false. effect_done.
Qed.

(** What [apply_flags] attaches: the generated value, to the type
    container unless [evt_dupe], to the family container unless
    [mal_dupe], and nothing else; the flags it returns say which. *)
Lemma apply_flags_effect (env : collaborators) ind fl s :
  exists (b1 b2 : bool) (value : string),
    vals (snd (apply_flags env ind fl s))
    = attach_value b2 (mal_event fl) value (attach_value b1 (event fl) value (vals s))
    /\ (b1 = true -> evt_dupe fl = false)
    /\ (b2 = true -> mal_dupe fl = false)
    /\ (b1 = true \/ b2 = true ->
        exists type, gen_indicator env ind = GenAttribute type value)
    /\ (forall r, fst (apply_flags env ind fl s) = Ret r ->
                  r = ((if b1 then 1 else 0)%nat, (if b2 then 1 else 0)%nat)).
Proof.
  assert (Hnone : forall st (r0 : result (nat * nat)),
            vals st = vals s -> (forall r, r0 = Ret r -> r = (0, 0)%nat) ->
            exists (b1 b2 : bool) (value : string),
              vals st = attach_value b2 (mal_event fl) value
                          (attach_value b1 (event fl) value (vals s))
              /\ (b1 = true -> evt_dupe fl = false)
              /\ (b2 = true -> mal_dupe fl = false)
              /\ (b1 = true \/ b2 = true ->
                  exists type, gen_indicator env ind = GenAttribute type value)
              /\ (forall r, r0 = Ret r ->
                            r = ((if b1 then 1 else 0)%nat, (if b2 then 1 else 0)%nat))).
  { intros st r0 Hst Hr. exists false, false, ""%string. simpl.
    split; [exact Hst|]. split; [discriminate|]. split; [discriminate|].
    split; [intros [|]; discriminate|exact Hr]. }
  unfold apply_flags.
  destruct (negb (log_duplicates_as_sightings (settings env))
            && (mal_dupe fl && evt_dupe fl)).
  { apply Hnone; [reflexivity|]. simpl. intros r [= <-]. reflexivity. }
  destruct (truthy_str (ind_indicator ind)).
  2:{ apply Hnone; [reflexivity|]. simpl. intros r [= <-]. reflexivity. }
  destruct (gen_indicator env ind) as [|o|type value|] eqn:Hgen.
  - apply Hnone; [reflexivity|]. simpl. intros r [= <-]. reflexivity.
  - pose proof (keeps_values_add_indicator_obj o (event fl) (mal_event fl) s) as Hv.
    unfold bind. destruct (add_indicator_obj o (event fl) (mal_event fl) s) as [[[]|e] s1];
      simpl in *; apply Hnone; try exact Hv; simpl.
    + intros r [= <-]. reflexivity.
    + discriminate.
  - set (ds := log_duplicates_as_sightings (settings env)).
    set (when := calculate_seen ind).
    destruct (attach_to_event_effect env ind fl type value when ds s)
      as (b1 & sg1 & Hr1 & Hv1 & Hd1).
    unfold bind, get.
    destruct (attach_to_event env ind fl type value when ds s) as [r1 s1].
    simpl in Hr1, Hv1. subst r1.
    destruct (attach_to_family_effect env ind fl type value when ds s1)
      as (b2 & sg2 & Hr2 & Hv2 & Hd2).
    destruct (attach_to_family env ind fl type value when ds s1) as [r2 s2].
    simpl in Hr2, Hv2. subst r2.
    exists b1, b2, value.
    cbn [fst snd].
    set (report := if negb (sg1 || sg2)
                      && bool_decide (is_Some (existing_indicators s2
                                                 !! default ""%string (ind_indicator ind)))
                      && ds
                   then add_report_sighting env when (default ""%string (ind_indicator ind))
                          (ind_uuid ind) (as_int (ind_attribute_timestamp ind))
                   else ret tt).
    assert (Hreport : keeps same_values report).
    { unfold report. destruct (_ && _ && _);
        [apply keeps_add_report_sighting; apply _|apply (keeps_ret same_values)]. }
    specialize (Hreport s2). unfold same_values in Hreport.
    destruct (report s2) as [[[]|e] s3]; simpl in Hreport.
    + assert (Hfinal : vals s3 = attach_value b2 (mal_event fl) value
                                   (attach_value b1 (event fl) value (vals s)))
        by (rewrite Hreport, Hv2, Hv1; reflexivity).
      split; [destruct b1, b2; exact Hfinal|].
      split; [exact Hd1|]. split; [exact Hd2|]. split; [eauto|].
      intros r. destruct b1, b2; simpl; intros [= <-]; reflexivity.
    + split; [simpl; rewrite Hreport, Hv2, Hv1; reflexivity|].
      split; [exact Hd1|]. split; [exact Hd2|]. split; [eauto|]. discriminate.
  - apply Hnone; [reflexivity|]. simpl. intros r [= <-]. reflexivity.
Qed.

(** *** The duplicate flags *)

Lemma find_event_Some title (l : list MISPEvent) p :
  find_event title l = Some p -> exists e, l !! p = Some e /\ info e = title.
Proof.
  revert p. induction l as [|x l IH]; intros p; simpl; [discriminate|].
  destruct (String.eqb title (info x)) eqn:E.
  - intros [= <-]. exists x. split; [reflexivity|]. symmetry. apply String.eqb_eq, E.
  - destruct (find_event title l) as [q|]; [|discriminate].
    intros [= <-]. apply (IH q eq_refl).
Qed.

(** The flag of a container says whether the container holds the value. *)
Lemma contains_value_index e v :
  contains (value_index e) (Some v) = true <-> In v (values_of e).
Proof.
  unfold contains, value_index, dict_of.
  assert (Hkeys : (reverse ((fun a => (att_value a, att_uuid a)) <$> attributes e)).*1
                  = reverse (values_of e)).
  { rewrite fmap_reverse. f_equal. unfold values_of. rewrite <- list_fmap_compose.
    reflexivity. }
  split.
  - intros Hsome. apply bool_decide_eq_true_1 in Hsome. apply list_elem_of_In.
    destruct (decide (v ∈ values_of e)) as [Hin|Hnot]; [exact Hin|].
    exfalso. destruct Hsome as [u Hu].
    assert (Hnone : (list_to_map (reverse ((fun a => (att_value a, att_uuid a))
                                             <$> attributes e)) : gmap string uuid) !! v
                    = None).
    { apply not_elem_of_list_to_map. rewrite Hkeys, elem_of_reverse. exact Hnot. }
    congruence.
  - intros Hin. apply bool_decide_eq_true_2. apply list_elem_of_In in Hin.
    apply not_eq_None_Some. intros Hnone.
    apply not_elem_of_list_to_map in Hnone. apply Hnone.
    rewrite Hkeys, elem_of_reverse. exact Hin.
Qed.

Lemma index_of_at pos s e :
  feeds s !! pos = Some e -> index_of (Some pos) s = value_index e.
Proof. intros H. unfold index_of, event_at. rewrite H. reflexivity. Qed.

Lemma find_or_create_family_event_cases (env : collaborators) ind s :
  (find_or_create_family_event env ind s = (Ret None, s))
  \/ (exists title p, family_title env ind = Some title
                      /\ find_event title (feeds s) = Some p
                      /\ find_or_create_family_event env ind s = (Ret (Some p), s))
  \/ (exists title created,
        family_title env ind = Some title
        /\ attributes created = []
        /\ find_or_create_family_event env ind s
           = (Ret (Some (length (feeds s))), set_feeds (fun evts => evts ++ [created]) s)).
Proof.
  unfold find_or_create_family_event.
  destruct (family_title env ind) as [title|]; [|left; reflexivity]. right.
  rewrite (bind_returned get _ s s s eq_refl).
  destruct (find_event title (feeds s)) as [p|] eqn:E.
  - left. exists title, p. auto.
  - right. destruct (new_family_event env ind) as [u level].
    exists title, {| info := title; event_uuid := u; attributes := [];
                     objects := []; threat_level_id := level |}.
    split; [reflexivity|]. split; reflexivity.
Qed.

Lemma keeps_no_duplicates_family (env : collaborators) ind :
  keeps preserves_no_duplicates (find_or_create_family_event env ind).
Proof.
  intros s Hnd.
  destruct (find_or_create_family_event_cases env ind s)
    as [E|[(title & p & _ & _ & E)|(title & created & _ & Hempty & E)]];
    rewrite E; simpl; [exact Hnd|exact Hnd|].
  unfold no_duplicates. simpl. apply Forall_app. split; [exact Hnd|].
  constructor; [|constructor]. unfold values_of. rewrite Hempty. constructor.
Qed.

Lemma keeps_no_duplicates_compute_flags (env : collaborators) ind :
  keeps preserves_no_duplicates (compute_flags env ind).
Proof.
  unfold compute_flags.
  apply (keeps_bind preserves_no_duplicates).
  { destruct (ind_type ind) as [t|]; [|apply (keeps_raise preserves_no_duplicates)].
    destruct (IndicatorType env (upper t));
      [apply (keeps_ret preserves_no_duplicates)|apply (keeps_raise preserves_no_duplicates)]. }
  intros itype. apply (keeps_bind preserves_no_duplicates);
    [apply (keeps_get preserves_no_duplicates)|intros s0].
  apply (keeps_bind preserves_no_duplicates); [apply keeps_no_duplicates_family|intros mal].
  apply (keeps_bind preserves_no_duplicates);
    [apply (keeps_get preserves_no_duplicates)|intros s1].
  apply (keeps_ret preserves_no_duplicates).
Qed.

(** What the flags of a worker are, once computed. *)
Lemma compute_flags_inv (env : collaborators) ind s fl s' :
  compute_flags env ind s = (Ret fl, s') ->
  attribute_list fl = index_of (event fl) s'
  /\ mal_attribute_list fl = index_of (mal_event fl) s'
  /\ evt_dupe fl = contains (attribute_list fl) (ind_indicator ind)
  /\ mal_dupe fl = contains (mal_attribute_list fl) (ind_indicator ind)
  /\ (families_apart env ->
      forall p p', event fl = Some p -> mal_event fl = Some p' -> p <> p').
Proof.
  unfold compute_flags. intros H.
  apply bind_inv in H as (itype & s1 & Htype & H).
  assert (s1 = s) as ->.
  { destruct (ind_type ind) as [t|]; [|discriminate].
    destruct (IndicatorType env (upper t)); [|discriminate].
    injection Htype as _ <-. reflexivity. }
  rewrite (bind_returned get _ s s s eq_refl) in H.
  apply bind_inv in H as (mal & s2 & Hmal & H).
  rewrite (bind_returned get _ s2 s2 s2 eq_refl) in H.
  injection H as <- <-. simpl.
  repeat (split; [reflexivity|]).
  intros Hapart p p' Hp Hp'. subst mal.
  apply find_event_Some in Hp as (e & He & Hinfo).
  destruct (find_or_create_family_event_cases env ind s)
    as [E|[(title & q & Htitle & Hq & E)|(title & created & _ & _ & E)]];
    rewrite E in Hmal; injection Hmal as Hmal _.
  - discriminate.
  - subst p'. apply find_event_Some in Hq as (e' & He' & Hinfo').
    intros Heq. subst q. assert (e' = e) by congruence. subst e'.
    apply (Hapart ind title itype Htitle). congruence.
  - subst p'. apply lookup_lt_Some in He. lia.
Qed.

(** A container that held the value when the flags were computed has its
    flag set. *)
Lemma flag_set (env : collaborators) ind s fl s' pos e v :
  compute_flags env ind s = (Ret fl, s') ->
  feeds s' !! pos = Some e ->
  ind_indicator ind = Some v ->
  In v (values_of e) ->
  (event fl = Some pos -> evt_dupe fl = true)
  /\ (mal_event fl = Some pos -> mal_dupe fl = true).
Proof.
  intros H He Hv Hin.
  destruct (compute_flags_inv env ind s fl s' H) as (Ha & Hm & Hed & Hmd & _).
  split; intros Hpos.
  - rewrite Hed, Ha, Hpos, (index_of_at pos s' e He), Hv. apply contains_value_index, Hin.
  - rewrite Hmd, Hm, Hpos, (index_of_at pos s' e He), Hv. apply contains_value_index, Hin.
Qed.

(** *** Attached values and duplicates *)

Lemma attach_value_elsewhere b target v V pos :
  (b = true -> target <> Some pos) ->
  attach_value b target v V !! pos = V !! pos.
Proof.
  intros H. unfold attach_value. destruct b; [|reflexivity].
  destruct target as [p|]; [|reflexivity].
  apply list_lookup_alter_ne. intros ->. apply H; reflexivity.
Qed.

Lemma attach_value_no_duplicates b target v (V : list (list string)) :
  Forall (fun l => NoDup l) V ->
  (b = true -> forall p l, target = Some p -> V !! p = Some l -> ~ In v l) ->
  Forall (fun l => NoDup l) (attach_value b target v V).
Proof.
  intros HV Hnew. unfold attach_value. destruct b; [|exact HV].
  destruct target as [p|]; [|exact HV].
  apply Forall_alter; [exact HV|]. intros l Hl Hnd.
  apply NoDup_app. split; [exact Hnd|]. split; [|apply NoDup_singleton].
  intros x Hx Hxv. apply list_elem_of_singleton in Hxv as ->.
  apply (Hnew eq_refl p l eq_refl Hl). apply list_elem_of_In, Hx.
Qed.

(** A worker that runs alone, from its flags to its appends, leaves no
    container with a value twice. *)
Lemma keeps_no_duplicates_add_indicator_event (env : collaborators) ind :
  value_kept env -> families_apart env ->
  keeps preserves_no_duplicates (add_indicator_event env ind).
Proof.
  intros Hkept Hapart s Hnd. unfold add_indicator_event, bind.
  pose proof (keeps_no_duplicates_compute_flags env ind s Hnd) as Hnd1.
  destruct (compute_flags env ind s) as [[fl|e] s1] eqn:E; simpl in Hnd1; [|exact Hnd1].
  destruct (compute_flags_inv env ind s fl s1 E) as (Ha & Hm & Hed & Hmd & Hne).
  destruct (apply_flags_effect env ind fl s1) as (b1 & b2 & value & Hv & Hd1 & Hd2 & Hgen & _).
  apply no_duplicates_vals. rewrite Hv. apply no_duplicates_vals in Hnd1.
  assert (Hvalue : b1 = true \/ b2 = true -> ind_indicator ind = Some value).
  { intros Hb. destruct (Hgen Hb) as (type & Hg). apply (Hkept ind type value Hg). }
  assert (Hfresh : forall p l (dupe : bool) (idx : gmap string uuid),
            idx = index_of (Some p) s1 -> dupe = contains idx (ind_indicator ind) ->
            dupe = false -> ind_indicator ind = Some value ->
            vals s1 !! p = Some l -> ~ In value l).
  { intros p l dupe idx -> -> Hdupe Hval Hl Hin.
    unfold vals in Hl. rewrite list_lookup_fmap in Hl.
    destruct (feeds s1 !! p) as [e|] eqn:He; [|discriminate]. injection Hl as <-.
    rewrite (index_of_at p s1 e He), Hval in Hdupe.
    apply contains_value_index in Hin. congruence. }
  apply attach_value_no_duplicates.
  - apply attach_value_no_duplicates; [exact Hnd1|].
    intros -> p l Hp Hl.
    apply (Hfresh p l (evt_dupe fl) (attribute_list fl)); auto.
    rewrite Ha, Hp. reflexivity.
  - intros -> p' l Hp' Hl.
    rewrite attach_value_elsewhere in Hl.
    + apply (Hfresh p' l (mal_dupe fl) (mal_attribute_list fl)); auto.
      rewrite Hm, Hp'. reflexivity.
    + intros _ Hp. apply (Hne Hapart p' p' Hp Hp'). reflexivity.
Qed.

Lemma keeps_no_duplicates_indicator_thread (env : collaborators) ind :
  value_kept env -> families_apart env ->
  keeps preserves_no_duplicates (indicator_thread env ind).
Proof.
  intros Hkept Hapart. unfold indicator_thread.
  destruct (truthy_str (ind_indicator ind)); [|apply (keeps_raise preserves_no_duplicates)].
  apply (keeps_bind preserves_no_duplicates);
    [apply keeps_no_duplicates_add_indicator_event; assumption|intros r].
  frame_with quiet.
Qed.

Lemma keeps_no_duplicates_batch (env : collaborators) batch :
  value_kept env -> families_apart env ->
  keeps preserves_no_duplicates (process_indicator_batch env batch).
Proof.
  intros Hkept Hapart. unfold process_indicator_batch.
  apply (keeps_bind preserves_no_duplicates); [frame_with quiet|intros _].
  apply (keeps_bind preserves_no_duplicates);
    [|intros; apply keeps_collect_results; apply _].
  apply keeps_submit_map; [apply _|]. intros ind.
  apply keeps_no_duplicates_indicator_thread; assumption.
Qed.

(** C5, as the code has it.  A worker whose duplicate flags were computed
    when a container already held the indicator's value appends nothing to
    that container, whatever ran between the flags and the appends, and it
    returns 0 for it, which the batch tallies as a skipped update.  So
    when the workers of a batch run one after the other, and
    [gen_indicator] keeps the indicator's value and family titles are not
    type titles, a batch leaves no container with a value twice. *)
Theorem C5_flagged_duplicate_is_not_attached (env : collaborators) :
  (forall ind fl s0 s0' s1 pos e v,
      compute_flags env ind s0 = (Ret fl, s0') ->
      feeds s0' !! pos = Some e ->
      ind_indicator ind = Some v ->
      In v (values_of e) ->
      vals (snd (apply_flags env ind fl s1)) !! pos = vals s1 !! pos
      /\ (forall r, fst (apply_flags env ind fl s1) = Ret r ->
            (event fl = Some pos -> fst r = 0%nat)
            /\ (mal_event fl = Some pos -> snd r = 0%nat)))
  /\ (value_kept env -> families_apart env ->
      forall batch s,
        no_duplicates s ->
        no_duplicates (snd (process_indicator_batch env batch s))).
Proof.
  split.
  - intros ind fl s0 s0' s1 pos e v Hflags He Hv Hin.
    destruct (flag_set env ind s0 fl s0' pos e v Hflags He Hv Hin) as [Hevt Hmal].
    destruct (apply_flags_effect env ind fl s1)
      as (b1 & b2 & value & Hvals & Hd1 & Hd2 & _ & Hret).
    split.
    + rewrite Hvals.
      rewrite attach_value_elsewhere, attach_value_elsewhere; [reflexivity| |].
      * intros Hb Hp. specialize (Hd1 Hb). specialize (Hevt Hp). congruence.
      * intros Hb Hp. specialize (Hd2 Hb). specialize (Hmal Hp). congruence.
    + intros r Hr. rewrite (Hret r Hr). simpl. split; intros Hp.
      * destruct b1; [|reflexivity]. specialize (Hd1 eq_refl). specialize (Hevt Hp).
        congruence.
      * destruct b2; [|reflexivity]. specialize (Hd2 eq_refl). specialize (Hmal Hp).
        congruence.
  - intros Hkept Hapart batch s. apply (keeps_no_duplicates_batch env batch Hkept Hapart s).
Qed.

Lemma sample_value_kept conf pages search save :
  value_kept (Sample.world conf pages search save).
Proof.
  intros ind type value. simpl. destruct (ind_indicator ind); [|discriminate].
  intros [= _ <-]. reflexivity.
Qed.

Lemma sample_families_apart conf pages search save :
  families_apart (Sample.world conf pages search save).
Proof. intros ind title itype. simpl. discriminate. Qed.

Lemma C5_flagged_duplicate_is_not_attached_witness :
  vals (snd (apply_flags Sample.quiet_world Sample.evil
               (Sample.second_flags Sample.started)
               (Sample.after_first Sample.started))) !! 0%nat
  = vals (Sample.after_first Sample.started) !! 0%nat
  /\ no_duplicates (snd (process_indicator_batch Sample.quiet_world
                           [Sample.evil; Sample.evil; Sample.other] Sample.started)).
Proof.
  split.
  - refine (proj1 (proj1 (C5_flagged_duplicate_is_not_attached Sample.quiet_world)
                     Sample.evil (Sample.second_flags Sample.started)
                     (Sample.after_first Sample.started)
                     (Sample.after_first Sample.started)
                     (Sample.after_first Sample.started)
                     0%nat
                     {| info := "Indicator Type: Domain"; event_uuid := 7%nat;
                        attributes :=
                          [ {| att_type := "domain"; att_value := "evil.example";
                               att_uuid := 0%nat; att_tags := [];
                               att_first_seen := Some 900;
                               att_last_seen := Some 1000 |} ];
                        objects := []; threat_level_id := 4 |}
                     "evil.example"%string _ _ _ _)).
    + vm_compute. reflexivity.
    + vm_compute. reflexivity.
    + reflexivity.
    + left. reflexivity.
  - apply (proj2 (C5_flagged_duplicate_is_not_attached Sample.quiet_world)).
    + apply sample_value_kept.
    + apply sample_families_apart.
    + constructor; [constructor|constructor].
Defined.

(** The split of a worker into its two steps is the worker: scheduled
    twice in a row, it does what [indicator_thread] does. *)
Lemma run_schedule_alone (env : collaborators) ind s :
  run_schedule env [0; 0]%nat [Submitted ind] s
  = ([Finished (fst (indicator_thread env ind s))], snd (indicator_thread env ind s)).
Proof.
  cbn [run_schedule lookup list_lookup step_worker].
  unfold indicator_thread, indicator_thread_begin, indicator_thread_finish,
    add_indicator_event.
  destruct (truthy_str (ind_indicator ind)); [|reflexivity].
  unfold bind.
  destruct (compute_flags env ind s) as [[fl|e] s1]; [|reflexivity].
  cbn [insert list_insert lookup list_lookup step_worker fst snd].
  unfold indicator_thread_finish, bind.
  destruct (apply_flags env ind fl s1) as [[r|e] s2]; [|reflexivity].
  unfold modify, get. cbn [fst snd].
  destruct (batch_update (set_batch_update S s2) mod 100 =? 0)%nat; reflexivity.
Qed.

(** C5 as the specification words it does not hold within a batch: nothing is
    held between a worker's flags and its appends, so when two workers of
    the pool handle the same indicator and both compute their flags before
    either appends, both find the container without the value, both
    attach it and both report 1. *)
Lemma C5_same_batch_attaches_twice :
  value_kept Sample.quiet_world
  /\ families_apart Sample.quiet_world
  /\ no_duplicates Sample.started
  /\ fst (run_schedule Sample.quiet_world [0; 1; 0; 1]%nat
            [Submitted Sample.evil; Submitted Sample.evil] Sample.started)
     = [Finished (Ret (1, 0)%nat); Finished (Ret (1, 0)%nat)]
  /\ vals (snd (run_schedule Sample.quiet_world [0; 1; 0; 1]%nat
                  [Submitted Sample.evil; Submitted Sample.evil] Sample.started))
     = [["evil.example"; "evil.example"]]%string
  /\ ~ no_duplicates (snd (run_schedule Sample.quiet_world [0; 1; 0; 1]%nat
                             [Submitted Sample.evil; Submitted Sample.evil]
                             Sample.started)).
Proof.
  split; [apply sample_value_kept|]. split; [apply sample_families_apart|].
  split; [constructor; [constructor|constructor]|].
  split; [vm_compute; reflexivity|]. split; [vm_compute; reflexivity|].
  intros H. apply no_duplicates_vals in H.
  assert (E : vals (snd (run_schedule Sample.quiet_world [0; 1; 0; 1]%nat
                           [Submitted Sample.evil; Submitted Sample.evil] Sample.started))
              = [["evil.example"; "evil.example"]]%string) by (vm_compute; reflexivity).
  rewrite E in H. apply Forall_cons_1 in H as [H _].
  apply NoDup_cons in H as [H _]. apply H. left.
Qed.

(** * Further properties of the code *)

(** ** The retrying transport: calls, sleeps and the result *)

Section TransportFacts.
Import Transport.

Variable f : nat -> outcome.

Lemma sleeps_app (t u : trace) : sleeps (t ++ u) = sleeps t ++ sleeps u.
Proof. unfold sleeps. apply omap_app. Qed.

Lemma accepted_failed (o : outcome) :
  accepted o = None <-> failed o = true.
Proof.
  unfold accepted, failed. destruct o as [r|e]; [|tauto].
  destruct (errors r) as [errs|]; [|split; discriminate].
  destruct (err_code errs =? 404); simpl; split; (discriminate || reflexivity).
Qed.

(** What one attempt does: one call, then either a [return] of an accepted
    response, with nothing slept, or the loop goes on, after a sleep of
    [timeout i] unless the attempt was the last. *)
Lemma attempt_shape i t :
  exists c t',
    attempt f i t = (Ret c, t ++ Called i :: t')
    /\ calls t' = []
    /\ match c with
       | Return r => accepted (f i) = Some r /\ t' = []
       | Continue =>
           accepted (f i) = None
           /\ sleeps t' = if (i + 1 <? MAX_RETRIES)%nat then [timeout i] else []
       end.
Proof.
  unfold attempt. destruct (i + 1 <? MAX_RETRIES)%nat;
  unfold try_except, call, bind, emit, modify, log_error, log_warning, emit, modify, ret, raise;
  unfold accepted;
  (destruct (f i) as [r|e]; simpl;
   [|eexists _, _; rewrite <- ?app_assoc; simpl; split; [reflexivity|];
     split; [reflexivity|]; split; reflexivity]);
  (destruct (errors r) as [errs|]; simpl;
   [|eexists _, _; split; [reflexivity|]; split; [reflexivity|]; split; reflexivity]);
  (destruct (err_code errs =? 404); simpl;
   [eexists _, _; split; [reflexivity|]; split; [reflexivity|]; split; reflexivity|]);
  try (destruct (err_message errs); simpl);
  eexists _, _; rewrite <- ?app_assoc; simpl; (split; [reflexivity|]);
  (split; [reflexivity|]); split; reflexivity.
Qed.

End TransportFacts.

(** X1.  [_retry] never raises.  It calls the operation [n] times, numbered
    from 0, for some [n] between 1 and [MAX_RETRIES], and sleeps between
    two calls only: [n - 1] times, 0.3 * 2 ** i seconds after call [i], and
    never after the last call. *)
Theorem X1_retry_calls_and_sleeps (f : nat -> outcome) (t : trace) :
  exists v n,
    fst (_retry f t) = Ret v
    /\ (1 <= n <= MAX_RETRIES)%nat
    /\ calls (snd (_retry f t)) = calls t ++ seq 0 n
    /\ Transport.sleeps (snd (_retry f t))
       = Transport.sleeps t ++ (timeout <$> seq 0 (n - 1)).
Proof.
  unfold _retry. change (seq 0 MAX_RETRIES) with [0; 1; 2]%nat.
  destruct (attempt_shape f 0 t) as (c0 & t0 & E0 & C0 & S0).
  destruct c0 as [|r0].
  - rewrite (retry_loop_step_continue f _ _ _ _ E0).
    destruct (attempt_shape f 1 (t ++ Called 0 :: t0)) as (c1 & t1 & E1 & C1 & S1).
    destruct c1 as [|r1].
    + rewrite (retry_loop_step_continue f _ _ _ _ E1).
      destruct (attempt_shape f 2 ((t ++ Called 0 :: t0) ++ Called 1 :: t1))
        as (c2 & t2 & E2 & C2 & S2).
      destruct c2 as [|r2].
      * rewrite (retry_loop_step_continue f _ _ _ _ E2). simpl.
        exists None, 3%nat. split; [reflexivity|]. split; [unfold MAX_RETRIES; lia|].
        destruct S0 as [_ S0], S1 as [_ S1], S2 as [_ S2].
        repeat (rewrite ?calls_app, ?sleeps_app; simpl).
        rewrite C0, C1, C2, S0, S1, S2. simpl. rewrite <- !app_assoc. split; reflexivity.
      * rewrite (retry_loop_step_return f _ _ _ _ _ E2). simpl.
        exists (Some r2), 3%nat. split; [reflexivity|]. split; [unfold MAX_RETRIES; lia|].
        destruct S0 as [_ S0], S1 as [_ S1], S2 as [_ ->].
        repeat (rewrite ?calls_app, ?sleeps_app; simpl).
        rewrite C0, C1, S0, S1. simpl. rewrite <- !app_assoc. split; reflexivity.
    + rewrite (retry_loop_step_return f _ _ _ _ _ E1). simpl.
      exists (Some r1), 2%nat. split; [reflexivity|]. split; [unfold MAX_RETRIES; lia|].
      destruct S0 as [_ S0], S1 as [_ ->].
      repeat (rewrite ?calls_app, ?sleeps_app; simpl).
      rewrite C0, S0. simpl. rewrite <- !app_assoc. split; reflexivity.
  - rewrite (retry_loop_step_return f _ _ _ _ _ E0). simpl.
    exists (Some r0), 1%nat. split; [reflexivity|]. split; [unfold MAX_RETRIES; lia|].
    destruct S0 as [_ ->].
    repeat (rewrite ?calls_app, ?sleeps_app; simpl). split; reflexivity.
Qed.

(** The result of [_retry], for the trace it starts from. *)
Lemma retry_result (f : nat -> outcome) (t : trace) :
  fst (_retry f t) = Ret (Transport.first_accepted f).
Proof.
  unfold _retry, Transport.first_accepted.
  change (seq 0 MAX_RETRIES) with [0; 1; 2]%nat.
  destruct (attempt_shape f 0 t) as (c0 & t0 & E0 & _ & S0).
  destruct c0 as [|r0]; cbn [omap list_omap].
  - destruct S0 as [-> _]. rewrite (retry_loop_step_continue f _ _ _ _ E0).
    destruct (attempt_shape f 1 (t ++ Called 0 :: t0)) as (c1 & t1 & E1 & _ & S1).
    destruct c1 as [|r1].
    + destruct S1 as [-> _]. rewrite (retry_loop_step_continue f _ _ _ _ E1).
      destruct (attempt_shape f 2 ((t ++ Called 0 :: t0) ++ Called 1 :: t1))
        as (c2 & t2 & E2 & _ & S2).
      destruct c2 as [|r2].
      * destruct S2 as [-> _]. rewrite (retry_loop_step_continue f _ _ _ _ E2).
        reflexivity.
      * destruct S2 as [-> _]. rewrite (retry_loop_step_return f _ _ _ _ _ E2).
        reflexivity.
    + destruct S1 as [-> _]. rewrite (retry_loop_step_return f _ _ _ _ _ E1).
      reflexivity.
  - destruct S0 as [-> _]. rewrite (retry_loop_step_return f _ _ _ _ _ E0). reflexivity.
Qed.

(** X2.  [_retry] returns the first response, among the three attempts it
    may make, that has no [errors] key or whose first error is the 404
    code, and [None] when no attempt gives one.  A response with any other
    error code is never returned. *)
Theorem X2_retry_returns_first_accepted (f : nat -> outcome) (t : trace) :
  fst (_retry f t) = Ret (Transport.first_accepted f)
  /\ match fst (_retry f t) with
     | Ret (Some r) =>
         match errors r with
         | Some errs => err_code errs = 404
         | None => True
         end
     | _ => True
     end.
Proof.
  split; [apply retry_result|].
  rewrite retry_result.
  unfold Transport.first_accepted.
  change (seq 0 MAX_RETRIES) with [0; 1; 2]%nat.
  assert (A : forall o r', Transport.accepted o = Some r' ->
                match errors r' with Some errs => err_code errs = 404 | None => True end).
  { intros o r'. unfold Transport.accepted. destruct o as [r0|]; [|discriminate].
    destruct (errors r0) as [errs|] eqn:E.
    - destruct (err_code errs =? 404) eqn:C; [|discriminate].
      intros [= <-]. rewrite E. apply Z.eqb_eq, C.
    - intros [= <-]. rewrite E. exact I. }
  cbn [omap list_omap].
  destruct (Transport.accepted (f 0%nat)) eqn:E0; [eapply A, E0|].
  destruct (Transport.accepted (f 1%nat)) eqn:E1; [eapply A, E1|].
  destruct (Transport.accepted (f 2%nat)) eqn:E2; [eapply A, E2|exact I].
Qed.

(** ** The counters of the client *)

Lemma on_wire_retry (f : nat -> outcome) (c : MispCounters.counters) :
  exists t,
    MispCounters.on_wire (_retry f) c
    = (Ret (Transport.first_accepted f),
       {| MispCounters.deleted_attribute_count := MispCounters.deleted_attribute_count c;
          MispCounters.deleted_event_count := MispCounters.deleted_event_count c;
          MispCounters.deleted_tag_count := MispCounters.deleted_tag_count c;
          MispCounters.wire := t |}).
Proof.
  unfold MispCounters.on_wire. pose proof (retry_result f (MispCounters.wire c)) as H.
  destruct (_retry f (MispCounters.wire c)) as [r t]. simpl in H. subst r.
  exists t. reflexivity.
Qed.

Lemma progress_counters count msg (c : MispCounters.counters) :
  exists t,
    MispCounters.progress count msg c
    = (Ret tt,
       {| MispCounters.deleted_attribute_count := MispCounters.deleted_attribute_count c;
          MispCounters.deleted_event_count := MispCounters.deleted_event_count c;
          MispCounters.deleted_tag_count := MispCounters.deleted_tag_count c;
          MispCounters.wire := t |}).
Proof.
  unfold MispCounters.progress.
  destruct ((count mod 50 =? 0) && negb (count =? 0))%nat.
  - eexists. reflexivity.
  - exists (MispCounters.wire c). destruct c; reflexivity.
Qed.

(** What [MISP.add_sighting] returns, and what it does to the counter. *)
Lemma add_sighting_run (f : nat -> outcome) (c : MispClient.client) :
  match Transport.first_accepted f with
  | None =>
      fst (MispClient.add_sighting f c) = Raise TypeError
      /\ MispClient.added_sighting_count (snd (MispClient.add_sighting f c))
         = MispClient.added_sighting_count c
  | Some r =>
      fst (MispClient.add_sighting f c) = Ret tt
      /\ MispClient.added_sighting_count (snd (MispClient.add_sighting f c))
         = (MispClient.added_sighting_count c + if Transport.clean r then 1 else 0)%nat
  end.
Proof.
  assert (W : exists t, MispClient.on_wire (_retry f) c
                        = (Ret (Transport.first_accepted f),
                           {| MispClient.added_sighting_count := MispClient.added_sighting_count c;
                              MispClient.wire := t |})).
  { unfold MispClient.on_wire. pose proof (retry_result f (MispClient.wire c)) as H.
    destruct (_retry f (MispClient.wire c)) as [r t]. simpl in H. subst r.
    exists t. reflexivity. }
  destruct W as [t W].
  unfold MispClient.add_sighting, bind. rewrite W.
  destruct (Transport.first_accepted f) as [r|]; [|split; reflexivity].
  unfold Transport.clean. destruct (errors r) as [errs|].
  - split; [reflexivity|]. simpl. lia.
  - unfold get. cbn [MispClient.added_sighting_count].
    destruct ((MispClient.added_sighting_count c mod 50 =? 0)%nat
              && negb (MispClient.added_sighting_count c =? 0)%nat);
      simpl; (split; [reflexivity|lia]).
Qed.

(** X3.  [MISP.add_sighting] raises [TypeError] when no attempt of the
    transport gives an accepted response, the counter being left as it
    was; otherwise it returns, and [added_sighting_count] has grown by one
    exactly when the response has no [errors] key (a 404 is not counted). *)
Theorem X3_add_sighting_counts_clean_responses (f : nat -> outcome)
        (c : MispClient.client) :
  match Transport.first_accepted f with
  | None =>
      fst (MispClient.add_sighting f c) = Raise TypeError
      /\ MispClient.added_sighting_count (snd (MispClient.add_sighting f c))
         = MispClient.added_sighting_count c
  | Some r =>
      fst (MispClient.add_sighting f c) = Ret tt
      /\ MispClient.added_sighting_count (snd (MispClient.add_sighting f c))
         = (MispClient.added_sighting_count c + if Transport.clean r then 1 else 0)%nat
  end.
Proof. apply add_sighting_run. Qed.

(** X4.  [MISP.delete_attribute] never raises, whatever the transport
    does: it guards the [None] of an exhausted [_retry].  The attribute
    counter grows by one exactly when the response is a non-empty
    dictionary without an [errors] key; the other counters are as they
    were. *)
Theorem X4_delete_attribute_never_raises (f : nat -> outcome)
        (c : MispCounters.counters) :
  fst (MispCounters.delete_attribute f c) = Ret tt
  /\ MispCounters.deleted_attribute_count (snd (MispCounters.delete_attribute f c))
     = (MispCounters.deleted_attribute_count c
        + match Transport.first_accepted f with
          | Some r => if Transport.truthy_response r && Transport.clean r then 1 else 0
          | None => 0
          end)%nat
  /\ MispCounters.deleted_event_count (snd (MispCounters.delete_attribute f c))
     = MispCounters.deleted_event_count c
  /\ MispCounters.deleted_tag_count (snd (MispCounters.delete_attribute f c))
     = MispCounters.deleted_tag_count c.
Proof.
  unfold MispCounters.delete_attribute, bind, get.
  destruct (progress_counters (MispCounters.deleted_attribute_count c)
              "attributes deleted" c) as [t1 ->].
  match goal with |- context [MispCounters.on_wire (_retry f) ?c1] =>
    destruct (on_wire_retry f c1) as [t2 ->] end.
  cbn [MispCounters.deleted_attribute_count MispCounters.deleted_event_count
       MispCounters.deleted_tag_count].
  destruct (Transport.first_accepted f) as [r|]; [|simpl; repeat split; lia].
  destruct (Transport.truthy_response r), (Transport.clean r); simpl; repeat split; lia.
Qed.

(** What [MISP.delete_event] returns and counts. *)
Lemma delete_event_run (f : nat -> outcome)
        (c : MispCounters.counters) :
  match Transport.first_accepted f with
  | None =>
      fst (MispCounters.delete_event f c) = Raise TypeError
      /\ MispCounters.deleted_event_count (snd (MispCounters.delete_event f c))
         = MispCounters.deleted_event_count c
  | Some r =>
      fst (MispCounters.delete_event f c) = Ret tt
      /\ MispCounters.deleted_event_count (snd (MispCounters.delete_event f c))
         = (MispCounters.deleted_event_count c + if Transport.clean r then 1 else 0)%nat
  end.
Proof.
  unfold MispCounters.delete_event, bind, get.
  destruct (progress_counters (MispCounters.deleted_event_count c)
              "events deleted" c) as [t1 ->].
  match goal with |- context [MispCounters.on_wire (_retry f) ?c1] =>
    destruct (on_wire_retry f c1) as [t2 ->] end.
  cbn [MispCounters.deleted_event_count].
  destruct (Transport.first_accepted f) as [r|]; [|split; reflexivity].
  destruct (Transport.clean r); simpl; split; try reflexivity; lia.
Qed.

(** X5.  [MISP.delete_event] raises [TypeError] when no attempt of the
    transport gives an accepted response, the event counter being left as
    it was; otherwise it returns, and [deleted_event_count] has grown by
    one exactly when the response has no [errors] key. *)
Theorem X5_delete_event_counts_or_raises (f : nat -> outcome)
        (c : MispCounters.counters) :
  match Transport.first_accepted f with
  | None =>
      fst (MispCounters.delete_event f c) = Raise TypeError
      /\ MispCounters.deleted_event_count (snd (MispCounters.delete_event f c))
         = MispCounters.deleted_event_count c
  | Some r =>
      fst (MispCounters.delete_event f c) = Ret tt
      /\ MispCounters.deleted_event_count (snd (MispCounters.delete_event f c))
         = (MispCounters.deleted_event_count c + if Transport.clean r then 1 else 0)%nat
  end.
Proof. apply delete_event_run. Qed.

(** X6.  [MISP.clear_tag] makes no call for a falsy tag and returns the
    tag counter as it is.  For a truthy tag it raises [TypeError] when the
    transport is exhausted, and otherwise returns the counter after the
    call: one more than before exactly when the response has no [errors]
    key. *)
Theorem X6_clear_tag_returns_the_counter (f : nat -> outcome)
        (c : MispCounters.counters) :
  MispCounters.clear_tag false f c = (Ret (MispCounters.deleted_tag_count c), c)
  /\ match Transport.first_accepted f with
     | None => fst (MispCounters.clear_tag true f c) = Raise TypeError
     | Some r =>
         fst (MispCounters.clear_tag true f c)
         = Ret (MispCounters.deleted_tag_count c + if Transport.clean r then 1 else 0)%nat
         /\ MispCounters.deleted_tag_count (snd (MispCounters.clear_tag true f c))
            = (MispCounters.deleted_tag_count c + if Transport.clean r then 1 else 0)%nat
     end.
Proof.
  split; [reflexivity|].
  unfold MispCounters.clear_tag, bind, get.
  destruct (progress_counters (MispCounters.deleted_tag_count c)
              "tags deleted" c) as [t1 ->].
  match goal with |- context [MispCounters.on_wire (_retry f) ?c1] =>
    destruct (on_wire_retry f c1) as [t2 ->] end.
  destruct (Transport.first_accepted f) as [r|]; [|reflexivity].
  destruct (Transport.clean r); simpl; split; try reflexivity; f_equal; lia.
Qed.

(** X7.  The size of the thread pool: a truthy [max_threads] is taken as it
    is; without one the pool has four threads per processor, one processor
    being assumed when [os.cpu_count()] gives none, and never more than 32
    threads nor fewer than 4. *)
Theorem X7_thread_count_default_bounds (max_threads cpu_count : option Z) :
  match cpu_count with Some n => 0 <= n | None => True end ->
  match max_threads with
  | Some m =>
      if m =? 0 then 4 <= MispCounters.thread_count max_threads cpu_count <= 32
      else MispCounters.thread_count max_threads cpu_count = m
  | None => 4 <= MispCounters.thread_count max_threads cpu_count <= 32
  end
  /\ MispCounters.thread_count None None = 4.
Proof.
  intros Hcpu. split; [|reflexivity].
  unfold MispCounters.thread_count, MispCounters.or_else.
  assert (B : 4 <= Z.min 32 (match cpu_count with
                             | Some n => if n =? 0 then 1 else n
                             | None => 1
                             end * 4) <= 32).
  { destruct cpu_count as [n|]; [|lia].
    destruct (n =? 0) eqn:E; [lia|]. apply Z.eqb_neq in E. lia. }
  destruct max_threads as [m|]; [|exact B].
  destruct (m =? 0); [exact B|reflexivity].
Qed.

Lemma X7_thread_count_default_bounds_witness :
  4 <= MispCounters.thread_count None (Some 16) <= 32
  /\ MispCounters.thread_count None None = 4.
Proof.
  apply (X7_thread_count_default_bounds None (Some 16)). simpl. lia.
Defined.

(** ** Attaching an attribute: result, values and the dirty set *)

Import Views.

#[local] Instance same_titles_preorder : PreOrder same_titles.
Proof. split; [intros s; reflexivity|intros a b c H1 H2; unfold same_titles in *; congruence]. Qed.

#[local] Instance same_titles_quiet : Quiet same_titles.
Proof. split; try apply _; intros; reflexivity. Qed.

#[local] Instance same_titles_dirty : QuietDirty same_titles.
Proof. intros f s. reflexivity. Qed.

Lemma keeps_titles_update_event_at pos f :
  (forall e, info (f e) = info e) -> keeps same_titles (update_event_at pos f).
Proof.
  intros Hf s. unfold same_titles, titles. simpl.
  rewrite (list_fmap_alter info f id (feeds s) pos)
    by (apply Forall_forall; intros e _; apply Hf).
  apply list_alter_id. reflexivity.
Qed.

Lemma keeps_titles_add_attribute_tag pos tag u :
  keeps same_titles (add_attribute_tag pos tag u).
Proof. apply keeps_titles_update_event_at. reflexivity. Qed.

Lemma keeps_dirty_update_event_at pos f : keeps same_dirty (update_event_at pos f).
Proof. intros s. reflexivity. Qed.

Lemma for_each_returns {S X} (xs : list X) (body : X -> M S unit) :
  (forall x s, fst (body x s) = Ret tt) -> forall s, fst (for_each xs body s) = Ret tt.
Proof.
  intros H. induction xs as [|x rest IH]; intros s; [reflexivity|].
  simpl. unfold bind. specialize (H x s). destruct (body x s) as [r s1].
  simpl in H. subst r. apply IH.
Qed.

(** The state in which [add_attribute] hands over to the tagging. *)
Lemma add_and_tag_attribute_accepted (env : collaborators) ind type value pos when s :
  attribute_accepted env type value = true ->
  exists s1 s2,
    s1 = snd (update_event_at pos
                (set_attributes (fun atts => atts ++
                   [new_attribute type value (uuid_source s) when []]))
                (bump_uuid_source s))
    /\ process_attribute_tags env ind (uuid_source s) pos s1 = (Ret tt, s2)
    /\ add_and_tag_attribute env ind type value pos when s
       = (Ret 1%nat, add_log (LogRecord DEBUG "Added indicators to event") s2).
Proof.
  intros Hacc.
  set (s1 := snd (update_event_at pos
                    (set_attributes (fun atts => atts ++
                       [new_attribute type value (uuid_source s) when []]))
                    (bump_uuid_source s))).
  pose proof (process_attribute_tags_returns env ind (uuid_source s) pos s1) as Hr.
  destruct (process_attribute_tags env ind (uuid_source s) pos s1) as [r s2] eqn:E.
  simpl in Hr. subst r. exists s1, s2. split; [reflexivity|]. split; [exact E|].
  unfold add_and_tag_attribute, try_except, add_attribute. rewrite Hacc.
  assert (E1 : (s0 <- get ;;
                (let u := uuid_source s0 in
                 modify bump_uuid_source ;;;
                 update_event_at pos (set_attributes (fun atts => atts ++
                   [ {| att_type := type; att_value := value; att_uuid := u;
                        att_tags := []; att_first_seen := first_seen when;
                        att_last_seen := last_seen when |} ])) ;;;
                 ret u)) s = (Ret (uuid_source s), s1)) by reflexivity.
  rewrite (bind_returned _ _ _ _ _ E1).
  unfold bind. rewrite E. reflexivity.
Qed.

(** X8.  [add_and_tag_attribute] never raises.  It returns 1 exactly when
    PyMISP accepts the attribute, and then the value is appended to the
    container; for a refused attribute it returns 0, and neither the
    registry nor the dirty set changes. *)
Theorem X8_add_and_tag_attribute_result (env : collaborators) ind type value pos when s :
  fst (add_and_tag_attribute env ind type value pos when s)
  = Ret (if attribute_accepted env type value then 1 else 0)%nat
  /\ vals (snd (add_and_tag_attribute env ind type value pos when s))
     = attach_value (attribute_accepted env type value) (Some pos) value (vals s)
  /\ (if attribute_accepted env type value then True
      else feeds (snd (add_and_tag_attribute env ind type value pos when s)) = feeds s
           /\ dirty_feeds (snd (add_and_tag_attribute env ind type value pos when s))
              = dirty_feeds s).
Proof.
  destruct (attribute_accepted env type value) eqn:Hacc.
  - destruct (add_and_tag_attribute_accepted env ind type value pos when s Hacc)
      as (s1 & s2 & Hs1 & Htag & ->).
    split; [reflexivity|]. split; [|exact I]. simpl.
    change (vals (add_log (LogRecord DEBUG "Added indicators to event") s2)) with (vals s2).
    pose proof (keeps_values_process_attribute_tags env ind (uuid_source s) pos s1) as Hv.
    rewrite Htag in Hv. simpl in Hv. rewrite Hv, Hs1.
    apply (vals_append pos (new_attribute type value (uuid_source s) when [])).
  - unfold add_and_tag_attribute, try_except, add_attribute. rewrite Hacc.
    simpl. repeat split; reflexivity.
Qed.

(** X9.  When the derivation of the tags raises, [process_attribute_tags]
    logs the exception and swallows it: the attribute that was just added
    stays attached and [add_and_tag_attribute] still returns 1, but the
    container is not marked dirty. *)
Theorem X9_failed_tagging_attaches_without_marking_dirty
        (env : collaborators) ind type value pos when s e missing :
  attribute_accepted env type value = true ->
  derive_tags env ind (MISSING_GALAXIES s) = TaggingRaised e missing ->
  fst (add_and_tag_attribute env ind type value pos when s) = Ret 1%nat
  /\ vals (snd (add_and_tag_attribute env ind type value pos when s))
     = attach_value true (Some pos) value (vals s)
  /\ dirty_feeds (snd (add_and_tag_attribute env ind type value pos when s))
     = dirty_feeds s
  /\ In (LogRecord ERROR (exn_name e))
        (log (snd (add_and_tag_attribute env ind type value pos when s))).
Proof.
  intros Hacc Htags.
  destruct (add_and_tag_attribute_accepted env ind type value pos when s Hacc)
    as (s1 & s2 & Hs1 & Htag & E).
  pose proof (X := vals_append pos (new_attribute type value (uuid_source s) when [])
                     (bump_uuid_source s)).
  rewrite E. split; [reflexivity|]. simpl.
  unfold process_attribute_tags, try_except, bind, get in Htag.
  replace (MISSING_GALAXIES s1) with (MISSING_GALAXIES s) in Htag by (rewrite Hs1; reflexivity).
  rewrite Htags in Htag. simpl in Htag. injection Htag as <-.
  split; [|split].
  - rewrite Hs1. exact X.
  - rewrite Hs1. reflexivity.
  - simpl. apply in_or_app. left. apply in_or_app. left. apply in_or_app. right.
    left. reflexivity.
Qed.

Lemma X9_failed_tagging_attaches_without_marking_dirty_witness :
  fst (add_and_tag_attribute
         (Cases.tagless KeyError) Sample.evil "domain" "evil.example" 0 (calculate_seen Sample.evil)
         Sample.started) = Ret 1%nat
  /\ vals (snd (add_and_tag_attribute
         (Cases.tagless KeyError) Sample.evil "domain" "evil.example" 0 (calculate_seen Sample.evil)
         Sample.started))
     = attach_value true (Some 0%nat) "evil.example" (vals Sample.started)
  /\ dirty_feeds (snd (add_and_tag_attribute
         (Cases.tagless KeyError) Sample.evil "domain" "evil.example" 0 (calculate_seen Sample.evil)
         Sample.started))
     = dirty_feeds Sample.started
  /\ In (LogRecord ERROR (exn_name KeyError))
        (log (snd (add_and_tag_attribute
         (Cases.tagless KeyError) Sample.evil "domain" "evil.example" 0 (calculate_seen Sample.evil)
         Sample.started))).
Proof.
  apply (X9_failed_tagging_attaches_without_marking_dirty
           (Cases.tagless KeyError) Sample.evil "domain" "evil.example" 0%nat
           (calculate_seen Sample.evil) Sample.started KeyError None);
    reflexivity.
Defined.




(** ** An indicator that is an object *)

(** X11.  An indicator for which [gen_indicator] builds a [MISPObject] is
    attached as an object to the type container and to the family
    container, but both results are 0 and the dirty set is as it was: the
    batch counts it as skipped twice and its flush does not save the
    containers for it.  No attribute is added and nothing is logged. *)
Theorem X11_object_indicator_marks_nothing_dirty (env : collaborators) ind fl o s :
  truthy_str (ind_indicator ind) = true ->
  gen_indicator env ind = GenObject o ->
  negb (log_duplicates_as_sightings (settings env)) && (mal_dupe fl && evt_dupe fl) = false ->
  fst (apply_flags env ind fl s) = Ret (0%nat, 0%nat)
  /\ feeds (snd (apply_flags env ind fl s))
     = attach_object o (mal_event fl) (attach_object o (event fl) (feeds s))
  /\ vals (snd (apply_flags env ind fl s)) = vals s
  /\ dirty_feeds (snd (apply_flags env ind fl s)) = dirty_feeds s
  /\ log (snd (apply_flags env ind fl s)) = log s.
Proof.
  intros Hv Hgen Hskip. unfold apply_flags. rewrite Hskip, Hv, Hgen.
  pose proof (keeps_values_add_indicator_obj o (event fl) (mal_event fl) s) as Hvals.
  unfold add_indicator_obj, attach_object in *. unfold same_values in Hvals.
  destruct (event fl) as [p|], (mal_event fl) as [p'|];
    (split; [reflexivity|]); (split; [reflexivity|]);
    (split; [exact Hvals|]); split; reflexivity.
Qed.

Lemma X11_object_indicator_marks_nothing_dirty_witness :
  fst (apply_flags Cases.object_world Sample.evil Cases.fresh_flags Sample.started)
  = Ret (0%nat, 0%nat)
  /\ feeds (snd (apply_flags Cases.object_world Sample.evil Cases.fresh_flags Sample.started))
     = attach_object Cases.file_object (mal_event Cases.fresh_flags)
         (attach_object Cases.file_object (event Cases.fresh_flags) (feeds Sample.started))
  /\ vals (snd (apply_flags Cases.object_world Sample.evil Cases.fresh_flags Sample.started))
     = vals Sample.started
  /\ dirty_feeds (snd (apply_flags Cases.object_world Sample.evil Cases.fresh_flags Sample.started))
     = dirty_feeds Sample.started
  /\ log (snd (apply_flags Cases.object_world Sample.evil Cases.fresh_flags Sample.started))
     = log Sample.started.
Proof.
  apply (X11_object_indicator_marks_nothing_dirty
           Cases.object_world Sample.evil Cases.fresh_flags Cases.file_object Sample.started);
    reflexivity.
Defined.

(** ** Workers that return *)

Section Returning.
Context {S : Type}.

Lemma never_raises_ret {A} (a : A) : never_raises (@ret S A a).
Proof. intros s. reflexivity. Qed.

Lemma never_raises_get : never_raises (@get S).
Proof. intros s. reflexivity. Qed.

Lemma never_raises_modify (f : S -> S) : never_raises (modify f).
Proof. intros s. reflexivity. Qed.

Lemma never_raises_bind {A B} (m : M S A) (k : A -> M S B) :
  never_raises m -> (forall a, never_raises (k a)) -> never_raises (bind m k).
Proof.
  intros Hm Hk s. unfold bind. specialize (Hm s).
  destruct (m s) as [[a|e] s1]; simpl in *; [apply Hk|discriminate].
Qed.

Lemma never_raises_for_each {X} (xs : list X) (body : X -> M S unit) :
  (forall x, never_raises (body x)) -> never_raises (for_each xs body).
Proof.
  intros H. induction xs as [|x rest IH]; [apply never_raises_ret|].
  simpl. apply never_raises_bind; [apply H|intros _; exact IH].
Qed.

Lemma never_raises_returned {A} (m : M S A) s :
  never_raises m -> exists a, fst (m s) = Ret a.
Proof.
  intros H. specialize (H s). destruct (m s) as [[a|e] s1]; [eauto|discriminate].
Qed.

End Returning.

Lemma never_raises_log_at l msg : never_raises (log_at l msg).
Proof. intros s. reflexivity. Qed.

Lemma never_raises_update_event_at pos f : never_raises (update_event_at pos f).
Proof. intros s. reflexivity. Qed.

Lemma send_sighting_result (env : collaborators) x s :
  fst (send_sighting env x s)
  = match Transport.first_accepted (misp_add_sighting env x) with
    | None => Raise TypeError
    | Some _ => Ret tt
    end.
Proof.
  unfold send_sighting, bind, modify, on_client.
  pose proof (add_sighting_run (misp_add_sighting env x) (misp (add_sent_sighting x s))) as H.
  destruct (MispClient.add_sighting (misp_add_sighting env x) (misp (add_sent_sighting x s)))
    as [r c].
  destruct (Transport.first_accepted (misp_add_sighting env x)); destruct H as [H _];
    simpl in H; subst r; reflexivity.
Qed.

Lemma never_raises_add_report_sighting (env : collaborators) when v u t :
  sightings_go_through env -> never_raises (add_report_sighting env when v u t).
Proof.
  intros Hgo. unfold add_report_sighting.
  destruct (negb (as_int (last_seen when) =? 0) && negb (as_int (last_seen when) =? t));
    [|apply never_raises_ret].
  apply never_raises_bind; [|intros _; apply never_raises_log_at].
  intros s. rewrite send_sighting_result.
  destruct (Hgo {| sight_value := v; sight_uuid := u; sight_timestamp := last_seen when |})
    as [r ->].
  reflexivity.
Qed.

Lemma never_raises_attach_to_event (env : collaborators) ind fl type value when ds :
  never_raises (attach_to_event env ind fl type value when ds).
Proof.
  intros s. destruct (attach_to_event_effect env ind fl type value when ds s)
    as (b & sighted & -> & _). reflexivity.
Qed.

Lemma never_raises_attach_to_family (env : collaborators) ind fl type value when ds :
  never_raises (attach_to_family env ind fl type value when ds).
Proof.
  intros s. destruct (attach_to_family_effect env ind fl type value when ds s)
    as (b & sighted & -> & _). reflexivity.
Qed.

Lemma never_raises_add_indicator_obj o evt mal : never_raises (add_indicator_obj o evt mal).
Proof.
  unfold add_indicator_obj. apply never_raises_bind.
  - destruct evt; [apply never_raises_update_event_at|apply never_raises_ret].
  - intros _. destruct mal; [apply never_raises_update_event_at|apply never_raises_ret].
Qed.

Lemma never_raises_apply_flags (env : collaborators) ind fl :
  log_duplicates_as_sightings (settings env) = false \/ sightings_go_through env ->
  never_raises (apply_flags env ind fl).
Proof.
  intros H. unfold apply_flags.
  destruct (negb (log_duplicates_as_sightings (settings env)) && (mal_dupe fl && evt_dupe fl)).
  { apply never_raises_bind; [apply never_raises_modify|intros _; apply never_raises_ret]. }
  destruct (truthy_str (ind_indicator ind)).
  2:{ apply never_raises_bind; [apply never_raises_log_at|intros _; apply never_raises_ret]. }
  destruct (gen_indicator env ind) as [|o|type value|].
  - apply never_raises_ret.
  - apply never_raises_bind; [apply never_raises_add_indicator_obj|].
    intros _. apply never_raises_ret.
  - apply never_raises_bind; [apply never_raises_attach_to_event|intros feed].
    apply never_raises_bind; [apply never_raises_attach_to_family|intros fam].
    apply never_raises_bind; [apply never_raises_get|intros s0].
    apply never_raises_bind.
    + destruct H as [-> | Hgo].
      * rewrite andb_false_r. apply never_raises_ret.
      * destruct (_ && _ && _); [|apply never_raises_ret].
        apply never_raises_add_report_sighting, Hgo.
    + intros _. apply never_raises_bind; [|intros _; apply never_raises_ret].
      destruct (_ || _); [apply never_raises_log_at|apply never_raises_ret].
  - apply never_raises_bind; [apply never_raises_log_at|intros _; apply never_raises_ret].
Qed.

Lemma never_raises_find_or_create_family_event (env : collaborators) ind :
  never_raises (find_or_create_family_event env ind).
Proof.
  intros s. destruct (find_or_create_family_event_cases env ind s)
    as [-> | [(title & p & _ & _ & ->) | (title & created & _ & _ & ->)]]; reflexivity.
Qed.

Lemma usable_inv (env : collaborators) ind :
  usable env ind = true ->
  truthy_str (ind_indicator ind) = true
  /\ exists t v, ind_type ind = Some t /\ IndicatorType env (upper t) = Some v.
Proof.
  unfold usable. intros H. apply andb_true_iff in H as [Hv Ht]. split; [exact Hv|].
  destruct (ind_type ind) as [t|]; [|discriminate].
  destruct (IndicatorType env (upper t)) as [v|] eqn:E; [|discriminate]. eauto.
Qed.

Lemma never_raises_indicator_thread (env : collaborators) ind :
  log_duplicates_as_sightings (settings env) = false \/ sightings_go_through env ->
  usable env ind = true ->
  never_raises (indicator_thread env ind).
Proof.
  intros H Hu. apply usable_inv in Hu as (Hv & t & v & Ht & Hk).
  unfold indicator_thread. rewrite Hv.
  apply never_raises_bind.
  - unfold add_indicator_event. apply never_raises_bind; [|intros fl; apply never_raises_apply_flags, H].
    unfold compute_flags. rewrite Ht, Hk.
    apply never_raises_bind; [apply never_raises_ret|intros itype].
    apply never_raises_bind; [apply never_raises_get|intros s0].
    apply never_raises_bind; [apply never_raises_find_or_create_family_event|intros mal].
    apply never_raises_bind; [apply never_raises_get|intros s1]. apply never_raises_ret.
  - intros r. apply never_raises_bind; [apply never_raises_modify|intros _].
    apply never_raises_bind; [apply never_raises_get|intros s1].
    apply never_raises_bind; [|intros _; apply never_raises_ret].
    destruct (_ =? _)%nat; [apply never_raises_log_at|apply never_raises_ret].
Qed.

(** X12.  As long as no sighting exhausts the transport (none is sent when
    [log_duplicates_as_sightings] is off), a worker raises exactly for the
    indicators that have no value, no type, or a type that [IndicatorType]
    does not know: what else fails in the class (a refused attribute, the
    derivation of the tags, the lookup of an attribute) is caught and
    logged on the way.  The helpers of the other modules are the total
    functions of [collaborators]. *)
Theorem X12_worker_raises_only_for_unusable_indicators (env : collaborators) ind s :
  log_duplicates_as_sightings (settings env) = false \/ sightings_go_through env ->
  is_raise (fst (indicator_thread env ind s)) = negb (usable env ind).
Proof.
  intros H. destruct (usable env ind) eqn:Hu.
  - apply never_raises_indicator_thread; assumption.
  - apply indicator_thread_raises. unfold usable in Hu.
    destruct (truthy_str (ind_indicator ind)); [|left; reflexivity]. right.
    destruct (ind_type ind) as [t|]; [|left; reflexivity]. right.
    exists t. split; [reflexivity|].
    destruct (IndicatorType env (upper t)); [discriminate|reflexivity].
Qed.

Lemma X12_worker_raises_only_for_unusable_indicators_witness :
  is_raise (fst (indicator_thread Sample.quiet_world Sample.evil Sample.started))
  = negb (usable Sample.quiet_world Sample.evil).
Proof.
  apply (X12_worker_raises_only_for_unusable_indicators
           Sample.quiet_world Sample.evil Sample.started).
  left. reflexivity.
Defined.

(** ** The tally of a batch *)

Lemma run_pool_inv {A X} (f : X -> M importer A) xs : forall s r,
  In r (fst (run_pool (f <$> xs) s)) -> exists x s1, In x xs /\ r = fst (f x s1).
Proof.
  induction xs as [|x rest IH]; intros s r Hin; [destruct Hin|].
  rewrite fmap_cons in Hin. cbn [run_pool] in Hin.
  destruct (f x s) as [r0 s1] eqn:E.
  specialize (IH s1 r). destruct (run_pool (f <$> rest) s1) as [rs s2].
  simpl in Hin, IH. destruct Hin as [<-|Hin].
  - exists x, s. rewrite E. split; [left|]; reflexivity.
  - destruct (IH Hin) as (y & s0 & Hy & ->). exists y, s0. split; [right; exact Hy|reflexivity].
Qed.

Lemma run_pool_length {A} (tasks : list (M importer A)) : forall s,
  length (fst (run_pool tasks s)) = length tasks.
Proof.
  induction tasks as [|task rest IH]; intros s; [reflexivity|].
  cbn [run_pool]. destruct (task s) as [r s1]. specialize (IH s1).
  destruct (run_pool rest s1) as [rs s2]. simpl in *. rewrite IH. reflexivity.
Qed.

(** Collecting the futures either meets one that raised, or counts each of
    them once under each heading. *)
Lemma collect_results_tally futures : forall t s,
  match fst (collect_results futures t s) with
  | Ret t' =>
      (total_this_round t' = total_this_round t + length futures
       /\ feed_success t' + feed_failed t'
          = feed_success t + feed_failed t + length futures
       /\ fam_success t' + fam_failed t'
          = fam_success t + fam_failed t + length futures)%nat
  | Raise _ => exists fut, In fut futures /\ is_raise fut = true
  end.
Proof.
  induction futures as [|fut rest IH]; intros t s.
  - simpl. lia.
  - cbn [collect_results]. unfold bind, future_result. destruct fut as [r|e].
    + specialize (IH (count_result t r) s).
      destruct (fst (collect_results rest (count_result t r) s)) as [t'|e'].
      * destruct IH as (H1 & H2 & H3). unfold count_result in *. simpl in *.
        destruct (fst r =? 0)%nat, (snd r =? 0)%nat; simpl in *; lia.
      * destruct IH as (bad & Hin & Hbad). exists bad. split; [right; exact Hin|exact Hbad].
    + simpl. exists (Raise e). split; [left|]; reflexivity.
Qed.

(** X13.  [process_indicator_batch] either returns a tally in which every
    indicator of the batch is counted once as processed, once as a feed
    success or a feed failure, and once as a family success or a family
    failure, or one of its workers raised. *)
Theorem X13_batch_tally_counts_every_indicator (env : collaborators) batch s :
  match fst (process_indicator_batch env batch s) with
  | Ret t =>
      (total_this_round t = length batch
       /\ feed_success t + feed_failed t = length batch
       /\ fam_success t + fam_failed t = length batch)%nat
  | Raise _ =>
      exists ind s1, In ind batch /\ is_raise (fst (indicator_thread env ind s1)) = true
  end.
Proof.
  unfold process_indicator_batch. unfold bind at 1. unfold modify at 1.
  rewrite (bind_returned _ _ _ _ _ (submit_all_run_pool _ _)).
  match goal with |- context [collect_results ?fs ?t ?s1] =>
    pose proof (collect_results_tally fs t s1) as H;
    pose proof (run_pool_length (indicator_thread env <$> batch)
                  (set_batch_update (fun _ => 0%nat) s)) as L;
    destruct (fst (collect_results fs t s1)) as [t'|e] end.
  - rewrite L, length_fmap in H. simpl in H. exact H.
  - destruct H as (fut & Hin & Hbad).
    apply run_pool_inv in Hin as (ind & s1 & Hind & ->). eauto.
Qed.

(** ** Sightings *)

Lemma send_sighting_state (env : collaborators) x s :
  sightings (snd (send_sighting env x s)) = sightings s ++ [x]
  /\ skipped (snd (send_sighting env x s)) = skipped s
  /\ log (snd (send_sighting env x s)) = log s
  /\ feeds (snd (send_sighting env x s)) = feeds s
  /\ dirty_feeds (snd (send_sighting env x s)) = dirty_feeds s.
Proof.
  unfold send_sighting, bind, modify, on_client.
  destruct (MispClient.add_sighting (misp_add_sighting env x) (misp (add_sent_sighting x s)))
    as [[[]|e] c]; repeat split; reflexivity.
Qed.

(** X14.  [add_sighting_to_attribute] never raises.  For a value of the
    container whose attribute the server returns, it sends one sighting,
    with the attribute's uuid and the indicator's [last_seen], exactly when
    [last_seen] is later than the attribute's timestamp; otherwise it sends
    none and counts the indicator as skipped.  When the sighting exhausts
    the transport the error is logged and the call still returns. *)
Theorem X14_sighting_only_when_newer (env : collaborators) a att_list when u ou ts s :
  att_list !! a = Some u ->
  misp_get_attribute env u = Ret (ou, ts) ->
  fst (add_sighting_to_attribute env (Some a) att_list when s) = Ret tt
  /\ (if as_int (last_seen when) >? ts
      then sightings (snd (add_sighting_to_attribute env (Some a) att_list when s))
           = sightings s ++ [ {| sight_value := a; sight_uuid := ou;
                                 sight_timestamp := last_seen when |} ]
           /\ skipped (snd (add_sighting_to_attribute env (Some a) att_list when s))
              = skipped s
           /\ (Transport.first_accepted
                 (misp_add_sighting env {| sight_value := a; sight_uuid := ou;
                                           sight_timestamp := last_seen when |}) = None ->
               In (LogRecord ERROR "Could not add sighting")
                  (log (snd (add_sighting_to_attribute env (Some a) att_list when s))))
      else sightings (snd (add_sighting_to_attribute env (Some a) att_list when s))
           = sightings s
           /\ skipped (snd (add_sighting_to_attribute env (Some a) att_list when s))
              = S (skipped s)).
Proof.
  intros Hatt Hget. split; [apply add_sighting_to_attribute_returns|].
  set (x := {| sight_value := a; sight_uuid := ou; sight_timestamp := last_seen when |}).
  assert (E : add_sighting_to_attribute env (Some a) att_list when s
              = if as_int (last_seen when) >? ts then
                  match send_sighting env x s with
                  | (Ret _, s1) => (Ret tt, add_log (LogRecord DEBUG "Adding sighting") s1)
                  | (Raise e, s1) =>
                      (Ret tt, add_log (LogRecord ERROR "Could not add sighting")
                                 (snd (log_exception e s1)))
                  end
                else (Ret tt, set_skipped S
                                (add_log (LogRecord DEBUG "Skipping addition as already present")
                                   s))).
  { unfold add_sighting_to_attribute, try_except, bind. rewrite Hatt. simpl. rewrite Hget.
    simpl. destruct (as_int (last_seen when) >? ts); [|reflexivity].
    fold x. destruct (send_sighting env x s) as [[[]|e] s1]; reflexivity. }
  rewrite E. clear E.
  destruct (as_int (last_seen when) >? ts); [|split; reflexivity].
  pose proof (send_sighting_state env x s) as (Hs & Hk & _).
  pose proof (send_sighting_result env x s) as Hr.
  destruct (send_sighting env x s) as [[[]|e] s1]; simpl in *.
  - split; [exact Hs|]. split; [exact Hk|].
    intros Hnone. rewrite Hnone in Hr. discriminate.
  - split; [exact Hs|]. split; [exact Hk|]. intros _.
    apply in_or_app. right. left. reflexivity.
Qed.

Lemma X14_sighting_only_when_newer_witness :
  fst (add_sighting_to_attribute Sample.quiet_world (Some "evil.example"%string)
         {[ "evil.example"%string := 3%nat ]} (calculate_seen Sample.evil) Sample.started)
  = Ret tt
  /\ sightings (snd (add_sighting_to_attribute Sample.quiet_world (Some "evil.example"%string)
         {[ "evil.example"%string := 3%nat ]} (calculate_seen Sample.evil) Sample.started))
     = [ {| sight_value := "evil.example"; sight_uuid := Some 3%nat;
            sight_timestamp := Some 1000 |} ].
Proof.
  pose proof (X14_sighting_only_when_newer Sample.quiet_world "evil.example"
                {[ "evil.example"%string := 3%nat ]} (calculate_seen Sample.evil)
                3%nat (Some 3%nat) 0 Sample.started eq_refl eq_refl) as [H1 [H2 _]].
  split; [exact H1|exact H2].
Defined.

(** X15.  [add_report_sighting] sends nothing when the indicator has no
    [last_seen], a [last_seen] of 0, or the [last_seen] that was recorded
    for it already.  Otherwise it sends one sighting, and nothing catches
    what the client raises: when the sighting exhausts the transport the
    [TypeError] leaves the method. *)
Theorem X15_report_sighting_lets_the_error_out (env : collaborators) when v u t s :
  fst (add_report_sighting env when v u t s)
  = (if (as_int (last_seen when) =? 0) || (as_int (last_seen when) =? t) then Ret tt
     else match Transport.first_accepted
                  (misp_add_sighting env {| sight_value := v; sight_uuid := u;
                                            sight_timestamp := last_seen when |}) with
          | None => Raise TypeError
          | Some _ => Ret tt
          end)
  /\ sightings (snd (add_report_sighting env when v u t s))
     = (if (as_int (last_seen when) =? 0) || (as_int (last_seen when) =? t)
        then sightings s
        else sightings s ++ [ {| sight_value := v; sight_uuid := u;
                                 sight_timestamp := last_seen when |} ]).
Proof.
  set (x := {| sight_value := v; sight_uuid := u; sight_timestamp := last_seen when |}).
  assert (E : add_report_sighting env when v u t s
              = if (as_int (last_seen when) =? 0) || (as_int (last_seen when) =? t)
                then (Ret tt, s)
                else match send_sighting env x s with
                     | (Ret _, s1) =>
                         (Ret tt, add_log (LogRecord DEBUG "Adding sighting (report)") s1)
                     | (Raise e, s1) => (Raise e, s1)
                     end).
  { unfold add_report_sighting.
    destruct (as_int (last_seen when) =? 0), (as_int (last_seen when) =? t); reflexivity. }
  rewrite E. clear E.
  destruct ((as_int (last_seen when) =? 0) || (as_int (last_seen when) =? t));
    [split; reflexivity|].
  pose proof (send_sighting_state env x s) as (Hs & _).
  pose proof (send_sighting_result env x s) as Hr.
  destruct (send_sighting env x s) as [[[]|e] s1]; simpl in *.
  - split; [|exact Hs]. destruct (Transport.first_accepted _); [reflexivity|discriminate].
  - split; [|exact Hs]. destruct (Transport.first_accepted _); [discriminate|exact Hr].
Qed.

(** ** The laundry and the flush *)

(** The count filed with a title is the dirty count of the title. *)
Lemma get_laundry_count (s : importer) k e c :
  In (k, (e, c)) (get_laundry s) -> dirty_feeds s !! k = Some c.
Proof.
  unfold get_laundry.
  set (step := fun (laundry : list (string * (MISPEvent * nat))) fe =>
                 match dirty_feeds s !! info fe with
                 | Some count => dict_set (info fe) (fe, count) laundry
                 | None => laundry
                 end).
  assert (G : forall l acc,
    (forall k e c, In (k, (e, c)) acc -> dirty_feeds s !! k = Some c) ->
    forall k e c, In (k, (e, c)) (fold_left step l acc) -> dirty_feeds s !! k = Some c).
  { induction l as [|fe l IH]; intros acc Hacc; simpl; [exact Hacc|].
    apply IH. intros k' e' c'. unfold step.
    destruct (dirty_feeds s !! info fe) as [n|] eqn:E; [|apply Hacc].
    intros H. apply dict_set_In in H as [[[= -> ->] ->]|H]; [exact E|].
    apply Hacc in H. exact H. }
  apply (G (feeds s) []). intros ? ? ? [].
Qed.

(** X16.  [get_laundry] files one entry per dirty title that an event of
    the registry bears, and no other: the titles are filed once each, and
    an entry holds an event of the registry with that title and the dirty
    count of the title. *)
Theorem X16_laundry_is_the_dirty_part_of_the_registry (s : importer) :
  NoDup (map fst (get_laundry s))
  /\ (forall k, In k (map fst (get_laundry s))
                <-> is_Some (dirty_feeds s !! k)
                    /\ exists fe, In fe (feeds s) /\ info fe = k)
  /\ (forall k e c, In (k, (e, c)) (get_laundry s) ->
                    info e = k /\ In e (feeds s) /\ dirty_feeds s !! k = Some c).
Proof.
  destruct (get_laundry_spec s) as [Hcover Hwf].
  destruct (get_laundry_keys s) as [Hnd Hdom].
  split; [exact Hnd|]. split.
  - intros k. split.
    + intros Hk. split; [apply Hdom, Hk|].
      apply in_map_iff in Hk as ([k' [e c]] & Hk' & Hentry). simpl in Hk'. subst k'.
      destruct (Hwf k e c Hentry) as [He Hin]. eauto.
    + intros [Hdirty (fe & Hfe & <-)]. apply Hcover; assumption.
  - intros k e c Hentry. destruct (Hwf k e c Hentry) as [He Hin].
    split; [exact He|]. split; [exact Hin|]. eapply get_laundry_count, Hentry.
Qed.

Lemma pop_dirty_other saved : forall s s' k,
  ~ In k saved ->
  for_each saved pop_dirty s = (Ret tt, s') ->
  dirty_feeds s' !! k = dirty_feeds s !! k.
Proof.
  induction saved as [|x rest IH]; intros s s' k Hk; simpl.
  - intros [= <-]. reflexivity.
  - intros H. apply bind_inv in H as ([] & s1 & Hpop & H).
    rewrite (IH s1 s' k); [|intros Hin; apply Hk; right; exact Hin|exact H].
    unfold pop_dirty in Hpop. rewrite (bind_returned get _ s s s eq_refl) in Hpop.
    destruct (dirty_feeds s !! x); [|discriminate].
    injection Hpop as <-. simpl. apply lookup_delete_ne.
    intros ->. apply Hk. left. reflexivity.
Qed.

(** What the flush of a state returns to be popped: the titles of the
    laundry, the dirty set being as it was. *)
Lemma clean_laundry_inv (env : collaborators) s saved s1 :
  clean_laundry env s = (Ret saved, s1) ->
  dirty_feeds s1 = dirty_feeds s
  /\ forall k, In k saved <-> In k (map fst (get_laundry s)).
Proof.
  intros Hclean.
  pose proof (keeps_clean_laundry env same_dirty s) as Hd.
  rewrite Hclean in Hd. split; [exact Hd|]. clear Hd.
  unfold clean_laundry in Hclean.
  rewrite (bind_returned get _ s s s eq_refl) in Hclean.
  apply bind_inv in Hclean as ([] & sa & _ & Hclean).
  apply bind_inv in Hclean as ([] & sb & _ & Hclean).
  unfold clean_laundry_from in Hclean.
  set (f := fun feed_data : string * (MISPEvent * nat) =>
              event_thread env (fst (snd feed_data)) (snd (snd feed_data))) in Hclean.
  rewrite (bind_returned _ _ _ _ _ (submit_all_run_pool (f <$> get_laundry s) sb))
    in Hclean.
  apply collect_futures in Hclean as [Hfutures _].
  destruct (get_laundry_spec s) as [_ Hwf].
  intros k. split.
  - intros Hk.
    assert (Hfut : In (Ret k) (fst (run_pool (f <$> get_laundry s) sb))).
    { rewrite Hfutures. apply list_elem_of_In, list_elem_of_fmap. exists k.
      split; [reflexivity|apply list_elem_of_In, Hk]. }
    apply run_pool_inv in Hfut as ([k' [e c]] & s0 & Hentry & Hr).
    unfold f in Hr. simpl in Hr. symmetry in Hr.
    destruct (event_thread env e c s0) as [r s2] eqn:E. simpl in Hr. subst r.
    apply event_thread_title in E. destruct (Hwf k' e c Hentry) as [He _].
    apply in_map_iff. exists (k', (e, c)). split; [simpl; congruence|exact Hentry].
  - intros Hk. apply in_map_iff in Hk as ([k' [e c]] & Hk' & Hentry). simpl in Hk'. subst k'.
    destruct (run_pool_In f same_dirty
                (fun x => keeps_event_thread env same_dirty (fst (snd x)) (snd (snd x)))
                (get_laundry s) (k, (e, c)) sb Hentry) as (s2 & Hfut & _).
    rewrite Hfutures in Hfut.
    apply list_elem_of_In, list_elem_of_fmap in Hfut as (r & Hr & Hsaved).
    unfold f in Hr. simpl in Hr.
    destruct (event_thread env e c s2) as [r' s3] eqn:E. simpl in Hr. subst r'.
    apply event_thread_title in E. destruct (Hwf k e c Hentry) as [He _].
    apply list_elem_of_In in Hsaved. congruence.
Qed.

(** X17.  After a flush that returned, no event that was in the registry is
    dirty, whether its save succeeded or not, and the dirty titles that no
    event of the registry bears are as they were. *)
Theorem X17_flush_leaves_no_registry_event_dirty (env : collaborators) s s' :
  flush env s = (Ret tt, s') ->
  (forall fe, In fe (feeds s) -> dirty_feeds s' !! info fe = None)
  /\ (forall k, (forall fe, In fe (feeds s) -> info fe <> k) ->
                dirty_feeds s' !! k = dirty_feeds s !! k).
Proof.
  intros Hflush. unfold flush in Hflush.
  apply bind_inv in Hflush as (saved & s1 & Hclean & Hpop).
  apply clean_laundry_inv in Hclean as [Hd Hsaved].
  destruct (get_laundry_spec s) as [Hcover Hwf].
  split.
  - intros fe Hfe. destruct (dirty_feeds s !! info fe) as [n|] eqn:E.
    + apply (pop_dirty_all saved s1 s' _); [|exact Hpop].
      apply Hsaved, Hcover; [exact Hfe|]. rewrite E. eauto.
    + apply (pop_dirty_stays_clean saved s1 s' _); [|exact Hpop]. rewrite Hd. exact E.
  - intros k Hk. rewrite <- Hd. apply (pop_dirty_other saved s1 s' k); [|exact Hpop].
    intros Hin. apply Hsaved in Hin.
    apply in_map_iff in Hin as ([k' [e c]] & Hk' & Hentry). simpl in Hk'. subst k'.
    destruct (Hwf k e c Hentry) as [He Hin]. exact (Hk e Hin He).
Qed.

Lemma X17_flush_leaves_no_registry_event_dirty_witness :
  (forall fe, In fe (feeds Sample.started_dirty) ->
              dirty_feeds (snd (flush Sample.quiet_world Sample.started_dirty)) !! info fe = None)
  /\ (forall k, (forall fe, In fe (feeds Sample.started_dirty) -> info fe <> k) ->
                dirty_feeds (snd (flush Sample.quiet_world Sample.started_dirty)) !! k
                = dirty_feeds Sample.started_dirty !! k).
Proof.
  apply (X17_flush_leaves_no_registry_event_dirty Sample.quiet_world Sample.started_dirty).
  reflexivity.
Defined.

(** A try that ends in an exception the loop does not catch: it leaves
    [event_thread] at once, nothing being logged. *)
Lemma event_thread_unexpected (env : collaborators) evt n e s :
  save_error (misp_update_event env evt 1) = Some e ->
  ~ In e [SSLError; ConnectionError; MISPServerError] ->
  event_thread env evt n s = (Raise e, s).
Proof.
  intros Hsave He. unfold event_thread. cbn [save_loop]. rewrite Hsave.
  unfold bind, try_except_only, raise.
  assert (C : existsb (exn_eqb e) [SSLError; ConnectionError; MISPServerError] = false).
  { destruct e; try reflexivity; exfalso; apply He; simpl; tauto. }
  rewrite C. reflexivity.
Qed.

Lemma for_collect_raises {A} (futures : list (result A)) s :
  (exists fut, In fut futures /\ is_raise fut = true) ->
  is_raise (fst (for_collect futures future_result s)) = true.
Proof.
  induction futures as [|fut rest IH]; intros (bad & Hin & Hbad); [destruct Hin|].
  cbn [for_collect]. unfold bind at 1. unfold future_result at 1.
  destruct fut as [a|e]; [|reflexivity].
  destruct Hin as [<-|Hin]; [discriminate|].
  unfold bind. specialize (IH (ex_intro _ bad (conj Hin Hbad))).
  destruct (for_collect rest future_result s) as [[ys|e] s1]; [discriminate|reflexivity].
Qed.

(** X18.  A save that raises anything but the three exceptions
    [event_thread] catches is not retried: the exception leaves the thread,
    and with it the flush, before any title is popped.  The dirty set is
    as it was, the containers saved by the other threads included. *)
Theorem X18_unexpected_save_error_aborts_the_flush (env : collaborators) s title count :
  dirty_feeds s !! title = Some count ->
  (exists evt, In evt (feeds s) /\ info evt = title) ->
  (forall evt, In evt (feeds s) -> info evt = title ->
     exists e, save_error (misp_update_event env evt 1) = Some e
               /\ ~ In e [SSLError; ConnectionError; MISPServerError]) ->
  is_raise (fst (flush env s)) = true
  /\ dirty_feeds (snd (flush env s)) = dirty_feeds s.
Proof.
  intros Hdirty (evt & Hevt & Htitle) Hfail.
  destruct (get_laundry_spec s) as [Hcover Hwf].
  assert (Hkey : In title (map fst (get_laundry s))).
  { rewrite <- Htitle. apply Hcover; [exact Hevt|]. rewrite Htitle, Hdirty. eauto. }
  apply in_map_iff in Hkey as ([k [e c]] & Hk & Hentry). simpl in Hk. subst k.
  destruct (Hwf title e c Hentry) as [He Hin].
  destruct (Hfail e Hin He) as (err & Hsave & Herr).
  assert (Hraise : is_raise (fst (clean_laundry env s)) = true).
  { unfold clean_laundry. rewrite (bind_returned get _ s s s eq_refl). cbv zeta.
    apply raises_bind_r. intros _ sa. apply raises_bind_r. intros _ sb.
    unfold clean_laundry_from.
    set (f := fun feed_data : string * (MISPEvent * nat) =>
                event_thread env (fst (snd feed_data)) (snd (snd feed_data))).
    rewrite (bind_returned _ _ _ _ _ (submit_all_run_pool (f <$> get_laundry s) sb)).
    apply for_collect_raises.
    destruct (run_pool_In f same_dirty
                (fun x => keeps_event_thread env same_dirty (fst (snd x)) (snd (snd x)))
                (get_laundry s) (title, (e, c)) sb Hentry) as (s2 & Hfut & _).
    exists (fst (f (title, (e, c)) s2)). split; [exact Hfut|].
    unfold f. simpl. rewrite (event_thread_unexpected env e c err s2 Hsave Herr).
    reflexivity. }
  pose proof (keeps_clean_laundry env same_dirty s) as Hd.
  unfold flush, bind.
  destruct (clean_laundry env s) as [[saved|e'] s1]; [discriminate|].
  split; [reflexivity|exact Hd].
Qed.

Lemma X18_unexpected_save_error_aborts_the_flush_witness :
  is_raise (fst (flush (Sample.world Sample.default_settings [] (Ret []) (Some PyMISPError))
                   Sample.started_dirty)) = true
  /\ dirty_feeds (snd (flush (Sample.world Sample.default_settings [] (Ret []) (Some PyMISPError))
                         Sample.started_dirty))
     = dirty_feeds Sample.started_dirty.
Proof.
  apply (X18_unexpected_save_error_aborts_the_flush
           (Sample.world Sample.default_settings [] (Ret []) (Some PyMISPError))
           Sample.started_dirty "Indicator Type: Domain" 1%nat).
  - reflexivity.
  - exists Sample.domain_event. split; [left|]; reflexivity.
  - intros evt [<-|[]] _. exists PyMISPError. split; [reflexivity|].
    simpl. intros [H|[H|[H|[]]]]; discriminate.
Defined.

(** ** Refreshing a saved event in memory *)

Lemma refresh_tolerance_bounds (env : collaborators) :
  30 <= refresh_tolerance env <= 300.
Proof. unfold refresh_tolerance. lia. Qed.

Lemma find_event_None title (l : list MISPEvent) :
  find_event title l = None <-> ~ In title (info <$> l).
Proof.
  induction l as [|e rest IH]; simpl; [tauto|].
  destruct (String.eqb title (info e)) eqn:E.
  - apply String.eqb_eq in E. split; [discriminate|]. intros H. exfalso. apply H. left.
    symmetry. exact E.
  - apply String.eqb_neq in E. destruct (find_event title rest) as [p|]; simpl.
    + split; [discriminate|]. intros H.
      assert (C : @None nat = Some p -> False) by discriminate.
      exfalso. apply C. symmetry. apply IH. intros Hin. apply H. right. exact Hin.
    + split; [|reflexivity]. intros _ [H|H]; [congruence|].
      exact (proj1 IH eq_refl H).
Qed.

Lemma find_event_app title (l1 l2 : list MISPEvent) :
  find_event title (l1 ++ l2)
  = match find_event title l1 with
    | Some p => Some p
    | None => (fun p => length l1 + p)%nat <$> find_event title l2
    end.
Proof.
  induction l1 as [|e rest IH]; simpl.
  - destruct (find_event title l2); reflexivity.
  - destruct (String.eqb title (info e)); [reflexivity|]. rewrite IH.
    destruct (find_event title rest); [reflexivity|].
    destruct (find_event title l2); reflexivity.
Qed.

Lemma find_event_lt title (l : list MISPEvent) p :
  find_event title l = Some p -> (p < length l)%nat.
Proof.
  intros H. apply find_event_Some in H as (e & He & _).
  apply lookup_lt_Some in He. exact He.
Qed.

(** In a registry whose titles are all different, the event at [pos] is
    the only one with its title. *)
Lemma title_gone (l : list MISPEvent) pos e :
  NoDup (info <$> l) -> l !! pos = Some e -> ~ In (info e) (info <$> delete pos l).
Proof.
  intros Hnd Hpos Hin.
  apply list_elem_of_In, list_elem_of_fmap in Hin as (e' & He' & Hin).
  apply list_elem_of_lookup in Hin as [j Hj].
  assert (Hpos' : (info <$> l) !! pos = Some (info e))
    by (rewrite list_lookup_fmap, Hpos; reflexivity).
  destruct (decide (j < pos)%nat) as [Hlt|Hge].
  - rewrite list_lookup_delete_lt in Hj by exact Hlt.
    assert (Hj' : (info <$> l) !! j = Some (info e))
      by (rewrite list_lookup_fmap, Hj; simpl; congruence).
    pose proof (NoDup_lookup _ _ _ _ Hnd Hpos' Hj'). lia.
  - rewrite list_lookup_delete_ge in Hj by lia.
    assert (Hj' : (info <$> l) !! S j = Some (info e))
      by (rewrite list_lookup_fmap, Hj; simpl; congruence).
    pose proof (NoDup_lookup _ _ _ _ Hnd Hpos' Hj'). lia.
Qed.

(** The refresh, once it is decided, for a search that returns one event. *)
Lemma refresh_in_memory_one (env : collaborators) evt d s pos newer :
  d > refresh_tolerance env * 1000 ->
  find_event (info evt) (feeds s) = Some pos ->
  misp_search_event env (event_uuid evt) = Ret [newer] ->
  fst (refresh_in_memory env evt d s) = Ret tt
  /\ feeds (snd (refresh_in_memory env evt d s)) = delete pos (feeds s) ++ [newer]
  /\ dirty_feeds (snd (refresh_in_memory env evt d s)) = dirty_feeds s.
Proof.
  intros Hd Hfind Hsearch. pose proof (find_event_lt _ _ _ Hfind) as Hlt.
  assert (E : exists s', refresh_in_memory env evt d s = (Ret tt, s')
                         /\ feeds s' = delete pos (feeds s) ++ [newer]
                         /\ dirty_feeds s' = dirty_feeds s).
  { unfold refresh_in_memory, try_except.
    replace (d >? refresh_tolerance env * 1000) with true by (symmetry; apply Z.gtb_lt; lia).
    unfold bind, get, log_at, modify. rewrite Hfind, Hsearch. cbn [default refresh_each].
    unfold bind, get, modify. simpl.
    apply Nat.ltb_lt in Hlt. rewrite Hlt. simpl. eexists. split; [reflexivity|]. split; reflexivity. }
  destruct E as (s' & -> & Hf & Hdirty). split; [reflexivity|]. split; assumption.
Qed.

Lemma named_cons title e (l : list MISPEvent) :
  named title (e :: l) = if String.eqb title (info e) then Some e else named title l.
Proof.
  unfold named. simpl. destruct (String.eqb title (info e)); [reflexivity|].
  destruct (find_event title l); reflexivity.
Qed.

Lemma named_delete title : forall (l : list MISPEvent) pos e,
  l !! pos = Some e -> info e <> title -> named title (delete pos l) = named title l.
Proof.
  induction l as [|x rest IH]; intros pos e Hpos Hne; [discriminate|].
  destruct pos as [|k]; simpl in Hpos.
  - injection Hpos as ->. simpl. rewrite named_cons.
    replace (String.eqb title (info e)) with false; [reflexivity|].
    symmetry. apply String.eqb_neq. congruence.
  - change (delete (S k) (x :: rest)) with (x :: delete k rest).
    rewrite !named_cons. destruct (String.eqb title (info x)); [reflexivity|].
    apply (IH k e Hpos Hne).
Qed.

Lemma named_app title (l1 l2 : list MISPEvent) :
  named title (l1 ++ l2)
  = match named title l1 with Some e => Some e | None => named title l2 end.
Proof.
  induction l1 as [|x rest IH]; simpl.
  - destruct (named title l2); reflexivity.
  - rewrite !named_cons. destruct (String.eqb title (info x)); [reflexivity|exact IH].
Qed.

Lemma named_None title (l : list MISPEvent) :
  ~ In title (info <$> l) -> named title l = None.
Proof.
  intros H. unfold named. apply find_event_None in H. rewrite H. reflexivity.
Qed.

(** X19.  The refresh interval is kept between 30 and 300 seconds, so a
    save that took 30 seconds or less never triggers a refresh, whatever is
    configured: [event_thread] then leaves the importer as it is, without
    a search. *)
Theorem X19_fast_save_is_never_refreshed (env : collaborators) evt d s :
  d <= 30000 ->
  30 <= refresh_tolerance env <= 300
  /\ refresh_in_memory env evt d s = (Ret tt, s).
Proof.
  intros Hd. pose proof (refresh_tolerance_bounds env) as B. split; [exact B|].
  unfold refresh_in_memory, try_except.
  replace (d >? refresh_tolerance env * 1000) with false; [reflexivity|].
  symmetry. rewrite Z.gtb_ltb. apply Z.ltb_ge. lia.
Qed.

Lemma X19_fast_save_is_never_refreshed_witness :
  30 <= refresh_tolerance Sample.quiet_world <= 300
  /\ refresh_in_memory Sample.quiet_world Sample.domain_event 10 Sample.started
     = (Ret tt, Sample.started).
Proof.
  apply (X19_fast_save_is_never_refreshed Sample.quiet_world Sample.domain_event 10
           Sample.started).
  lia.
Defined.

(** X20.  After a save that took more than 300 seconds, when the search by
    uuid returns one event, that event takes the place of the saved one in
    the registry: the old object is removed and the new one appended, so
    the registry keeps its length, a lookup by the title finds the new
    object (in a registry whose titles are all different, the new event
    bearing the old title), and every other title finds what it found
    before.  The dirty set is not touched. *)
Theorem X20_refresh_replaces_the_saved_event (env : collaborators) evt d s pos newer :
  d > 300000 ->
  find_event (info evt) (feeds s) = Some pos ->
  misp_search_event env (event_uuid evt) = Ret [newer] ->
  info newer = info evt ->
  NoDup (titles s) ->
  fst (refresh_in_memory env evt d s) = Ret tt
  /\ feeds (snd (refresh_in_memory env evt d s)) = delete pos (feeds s) ++ [newer]
  /\ length (feeds (snd (refresh_in_memory env evt d s))) = length (feeds s)
  /\ named (info evt) (feeds (snd (refresh_in_memory env evt d s))) = Some newer
  /\ (forall title, title <> info evt ->
        named title (feeds (snd (refresh_in_memory env evt d s)))
        = named title (feeds s))
  /\ dirty_feeds (snd (refresh_in_memory env evt d s)) = dirty_feeds s.
Proof.
  intros Hd Hfind Hsearch Hinfo Hnd.
  pose proof (refresh_tolerance_bounds env) as B.
  destruct (refresh_in_memory_one env evt d s pos newer) as (Hret & Hfeeds & Hdirty);
    [lia|exact Hfind|exact Hsearch|].
  destruct (find_event_Some _ _ _ Hfind) as (old & Hold & Htitle).
  split; [exact Hret|]. split; [exact Hfeeds|]. rewrite Hfeeds.
  split; [|split; [|split; [|exact Hdirty]]].
  - rewrite length_app, length_delete by eauto. simpl.
    apply lookup_lt_Some in Hold. lia.
  - rewrite named_app, named_None.
    + rewrite named_cons. rewrite Hinfo, String.eqb_refl. reflexivity.
    + rewrite <- Htitle. apply title_gone; assumption.
  - intros title Hne. rewrite named_app.
    rewrite (named_delete title (feeds s) pos old Hold) by congruence.
    destruct (named title (feeds s)); [reflexivity|].
    rewrite named_cons. replace (String.eqb title (info newer)) with false; [reflexivity|].
    symmetry. apply String.eqb_neq. congruence.
Qed.

Lemma X20_refresh_replaces_the_saved_event_witness :
  named (info Sample.domain_event)
    (feeds (snd (refresh_in_memory Cases.refreshing Sample.domain_event 400000 Sample.started)))
  = Some Cases.refreshed_event.
Proof.
  assert (Hd : 400000 > 300000) by lia.
  assert (Hnd : NoDup (titles Sample.started)) by (apply NoDup_singleton).
  exact (proj1 (proj2 (proj2 (proj2
           (X20_refresh_replaces_the_saved_event Cases.refreshing Sample.domain_event 400000
              Sample.started 0%nat Cases.refreshed_event Hd eq_refl eq_refl eq_refl Hnd))))).
Defined.

(** ** The checkpoint and the galaxy file *)

Lemma warn_each_state (l : list string) : forall s,
  exists s',
    for_each l (fun _galaxy => log_at WARNING "No galaxy mapping found for malware family.") s
    = (Ret tt, s')
    /\ log s' = log s ++ ((fun _ => no_galaxy_mapping) <$> l)
    /\ timestamp_file s' = timestamp_file s
    /\ galaxy_miss_file s' = galaxy_miss_file s
    /\ feeds s' = feeds s
    /\ dirty_feeds s' = dirty_feeds s.
Proof.
  induction l as [|g rest IH]; intros s.
  - exists s. simpl. rewrite app_nil_r. repeat split; reflexivity.
  - destruct (IH (add_log no_galaxy_mapping s)) as (s' & E & Hlog & Ht & Hg & Hf & Hd).
    exists s'. split; [|split; [|repeat split; assumption]].
    + cbn [for_each]. unfold bind at 1. unfold log_at at 1. unfold modify at 1. exact E.
    + rewrite Hlog. simpl. rewrite <- app_assoc. reflexivity.
Qed.

(** X21.  [_note_timestamp] always returns.  It writes the integer part of
    its argument to the checkpoint file; the galaxy file is written only
    when [MISSING_GALAXIES] is a non-empty list, with that list, one
    warning per entry being logged; otherwise the galaxy file is as it
    was and nothing is logged.  The registry and the dirty set are not
    touched. *)
Theorem X21_note_timestamp_writes_both_files (t : timestamp_arg) (s : importer) :
  fst (_note_timestamp t s) = Ret tt
  /\ timestamp_file (snd (_note_timestamp t s)) = Some (py_int t)
  /\ galaxy_miss_file (snd (_note_timestamp t s))
     = match MISSING_GALAXIES s with
       | Some (g :: gs) => Some (g :: gs)
       | _ => galaxy_miss_file s
       end
  /\ log (snd (_note_timestamp t s))
     = log s ++ ((fun _ => no_galaxy_mapping) <$> default [] (MISSING_GALAXIES s))
  /\ feeds (snd (_note_timestamp t s)) = feeds s
  /\ dirty_feeds (snd (_note_timestamp t s)) = dirty_feeds s.
Proof.
  unfold _note_timestamp, bind, modify, get. cbn [MISSING_GALAXIES set_timestamp_file].
  destruct (MISSING_GALAXIES s) as [[|g gs]|].
  - simpl. rewrite app_nil_r. repeat split; reflexivity.
  - destruct (warn_each_state (g :: gs) (set_timestamp_file (py_int t) s))
      as (s' & -> & Hlog & Ht & Hg & Hf & Hd).
    cbn [fst snd timestamp_file galaxy_miss_file log feeds dirty_feeds set_galaxy_miss_file].
    split; [reflexivity|]. split; [rewrite Ht; reflexivity|]. split; [reflexivity|].
    split; [rewrite Hlog; reflexivity|]. split; [rewrite Hf|rewrite Hd]; reflexivity.
  - simpl. rewrite app_nil_r. repeat split; reflexivity.
Qed.

(** ** The index of report indicators *)

#[local] Instance same_index_preorder : PreOrder same_index.
Proof.
  split; [intros s; split; reflexivity|].
  intros a b c [H1 H2] [H3 H4]. split; congruence.
Qed.

Lemma keeps_index_attribute_search (env : collaborators) name type :
  keeps same_index (attribute_search env name type).
Proof.
  intros s. unfold attribute_search, try_except_only, bind.
  destruct (misp_search_attributes env type) as [found|e]; [split; reflexivity|].
  simpl. destruct (exn_eqb e SSLError || (exn_eqb e ConnectionError || false));
    split; reflexivity.
Qed.

Lemma merge_results_state futures : forall acc s r s',
  merge_results futures acc s = (r, s') -> s' = s.
Proof.
  induction futures as [|fut rest IH]; intros acc s r s'; simpl.
  - intros [= _ <-]. reflexivity.
  - unfold bind, future_result. destruct fut as [[found|]|e].
    + apply IH.
    + intros [= _ <-]. reflexivity.
    + intros [= _ <-]. reflexivity.
Qed.

(** X22.  When the build of the index returns, the registry is as it was,
    and every entry of [existing_indicators] was either there before or
    belongs to an event that is not in the registry: the attributes the
    searches find in the feed containers themselves stay out of the index
    of report indicators. *)
Theorem X22_feed_attributes_stay_out_of_the_report_index (env : collaborators) s s' :
  find_report_indicators env s = (Ret tt, s') ->
  feeds s' = feeds s
  /\ forall k d, existing_indicators s' !! k = Some d ->
       existing_indicators s !! k = Some d
       \/ ~ In (de_event_uuid d) (event_uuid <$> feeds s).
Proof.
  intros H. unfold find_report_indicators in H.
  set (f := fun p : string * string => attribute_search env (fst p) (snd p)) in H.
  set (types := filter (fun p => negb (String.eqb (snd p) "")) (INDICATOR_TYPES env)) in H.
  rewrite (bind_returned _ _ _ _ _ (submit_all_run_pool (f <$> types) s)) in H.
  pose proof (run_pool_keeps f same_index
                (fun p => keeps_index_attribute_search env (fst p) (snd p)) types s)
    as [Hex Hfeeds].
  apply bind_inv in H as (retrieved & s1 & Hmerge & H).
  apply merge_results_state in Hmerge. subst s1.
  unfold bind, get, modify, log_at, modify in H. injection H as <-.
  cbn [feeds existing_indicators add_log set_existing_indicators].
  split; [exact Hfeeds|].
  intros k d Hk. apply lookup_union_Some_raw in Hk as [Hk|[_ Hk]].
  - right. apply map_lookup_filter_Some in Hk as [_ Hk]. simpl in Hk.
    rewrite Hfeeds in Hk. intros Hin. apply Hk, list_elem_of_In, Hin.
  - left. rewrite <- Hex. exact Hk.
Qed.

Lemma X22_feed_attributes_stay_out_of_the_report_index_witness :
  feeds (snd (find_report_indicators Cases.indexed Sample.started)) = feeds Sample.started
  /\ forall k d,
       existing_indicators (snd (find_report_indicators Cases.indexed Sample.started)) !! k
       = Some d ->
       existing_indicators Sample.started !! k = Some d
       \/ ~ In (de_event_uuid d) (event_uuid <$> feeds Sample.started).
Proof.
  apply (X22_feed_attributes_stay_out_of_the_report_index Cases.indexed Sample.started).
  reflexivity.
Defined.

(** ** A run whose feed has nothing new *)

Lemma merge_results_returns (values : list (gmap string dedup_entry)) : forall acc s,
  exists retrieved, merge_results (Ret <$> (Some <$> values)) acc s = (Ret retrieved, s).
Proof.
  induction values as [|v rest IH]; intros acc s.
  - exists acc. reflexivity.
  - rewrite !fmap_cons. cbn [merge_results]. unfold bind, future_result. apply IH.
Qed.

(** When every search answers, the index is built. *)
Lemma find_report_indicators_returns (env : collaborators) :
  (forall type, exists found, misp_search_attributes env type = Ret found) ->
  forall s, fst (find_report_indicators env s) = Ret tt.
Proof.
  intros Hsearch s. unfold find_report_indicators.
  set (f := fun p : string * string => attribute_search env (fst p) (snd p)).
  set (types := filter (fun p => negb (String.eqb (snd p) "")) (INDICATOR_TYPES env)).
  set (h := fun p : string * string =>
              dict_of match misp_search_attributes env (snd p) with
                      | Ret found => found
                      | Raise _ => []
                      end).
  set (g := fun p : string * string => Some (h p)).
  assert (Hf : forall x, In x types -> forall s1, fst (f x s1) = Ret (g x)).
  { intros x _ s1. unfold f, g, h, attribute_search, try_except_only, bind.
    destruct (Hsearch (snd x)) as [found ->]. reflexivity. }
  rewrite (bind_returned _ _ _ _ _ (submit_all_run_pool (f <$> types) s)).
  rewrite (run_pool_returns f g types Hf s).
  replace (g <$> types) with (Some <$> (h <$> types))
    by (rewrite <- list_fmap_compose; reflexivity).
  destruct (merge_results_returns (h <$> types) ∅ (snd (run_pool (f <$> types) s)))
    as [retrieved E].
  cbv beta. rewrite (bind_returned _ _ _ _ _ E). reflexivity.
Qed.

(** X23.  When the feed yields no page at all and the duplicate searches
    answer, the run returns, and the checkpoint it commits is the moment
    taken before the feed was queried, truncated to whole seconds. *)
Theorem X23_run_without_pages_commits_the_request_time
        (env : collaborators) (mins : Z) (s : importer) :
  (forall start del, get_indicators env start del = []) ->
  (forall type, exists found, misp_search_attributes env type = Ret found) ->
  fst (process_indicators env mins s) = Ret tt
  /\ timestamp_file (snd (process_indicators env mins s))
     = Some (Z.quot (time_send_request_us env) 1000000).
Proof.
  intros Hfeed Hsearch.
  assert (R : fst (process_indicators env mins s) = Ret tt).
  { unfold process_indicators.
    assert (N : never_raises (process_indicators env mins)).
    { unfold process_indicators.
      apply never_raises_bind; [apply never_raises_log_at|intros _].
      apply never_raises_bind; [apply never_raises_get|intros s0].
      apply never_raises_bind; [apply never_raises_modify|intros _].
      apply never_raises_bind; [apply never_raises_modify|intros _].
      apply never_raises_bind.
      { intros s1. rewrite (find_report_indicators_returns env Hsearch). reflexivity. }
      intros _. apply never_raises_bind; [apply never_raises_log_at|intros _].
      rewrite Hfeed. apply never_raises_bind; [apply never_raises_ret|intros count].
      apply never_raises_bind; [|intros _; apply never_raises_log_at].
      destruct (count =? 0)%nat; [|apply never_raises_ret].
      intros s1. destruct (note_timestamp_writes (OfFloat (time_send_request_us env)) s1)
        as [-> _]. reflexivity. }
    specialize (N s). unfold process_indicators in N.
    match goal with |- fst ?x = _ => destruct x as [[[]|e] s1] end;
      [reflexivity|discriminate]. }
  split; [exact R|].
  destruct (process_indicators env mins s) as [r s'] eqn:E. simpl in R. subst r.
  apply (no_pages_commits_request_time env mins s s' Hfeed E).
Qed.

Lemma X23_run_without_pages_commits_the_request_time_witness :
  fst (process_indicators Sample.quiet_world 60 Sample.started) = Ret tt
  /\ timestamp_file (snd (process_indicators Sample.quiet_world 60 Sample.started))
     = Some (Z.quot (time_send_request_us Sample.quiet_world) 1000000).
Proof.
  apply (X23_run_without_pages_commits_the_request_time Sample.quiet_world 60 Sample.started).
  - reflexivity.
  - intros type. exists []. reflexivity.
Defined.

(** ** The batches of a page *)

Lemma slices_lookup {A} (size : nat) :
  (0 < size)%nat ->
  forall rounds (l : list A) i,
    (length l <= rounds)%nat ->
    slices size rounds l !! i
    = if (i * size <? length l)%nat then Some (take size (drop (i * size) l)) else None.
Proof.
  intros Hsize. induction rounds as [|n IH]; intros l i Hlen.
  - destruct l; [|simpl in Hlen; lia].
    replace (i * size <? length (@nil A))%nat with false; [reflexivity|].
    symmetry. apply Nat.ltb_ge. simpl. lia.
  - destruct l as [|x l'].
    { replace (i * size <? length (@nil A))%nat with false; [reflexivity|].
      symmetry. apply Nat.ltb_ge. simpl. lia. }
    change (slices size (S n) (x :: l'))
      with (take size (x :: l') :: slices size n (drop size (x :: l'))).
    destruct i as [|j].
    + reflexivity.
    + change ((take size (x :: l') :: slices size n (drop size (x :: l'))) !! S j)
        with (slices size n (drop size (x :: l')) !! j).
      rewrite IH by (rewrite length_drop; simpl in *; lia).
      rewrite length_drop, drop_drop.
      replace (size + j * size)%nat with (S j * size)%nat by lia.
      destruct (j * size <? length (x :: l') - size)%nat eqn:E1,
               (S j * size <? length (x :: l'))%nat eqn:E2; try reflexivity.
      * apply Nat.ltb_lt in E1. apply Nat.ltb_ge in E2. lia.
      * apply Nat.ltb_ge in E1. apply Nat.ltb_lt in E2. lia.
Qed.

(** X24.  The batches of a page are its consecutive slices of
    [IND_BATCH_SIZE] indicators: batch [i] holds the indicators from
    position [i * IND_BATCH_SIZE] on, [IND_BATCH_SIZE] of them or what is
    left, and there is no batch past the end of the page.  So every batch
    but the last is full, and an empty page has no batch. *)
Theorem X24_batches_are_consecutive_slices (env : collaborators)
        (page : list indicator) (i : nat) :
  ind_batches env page !! i
  = (if (i * Z.to_nat (IND_BATCH_SIZE env) <? length page)%nat
     then Some (take (Z.to_nat (IND_BATCH_SIZE env))
                     (drop (i * Z.to_nat (IND_BATCH_SIZE env)) page))
     else None)
  /\ match ind_batches env page !! i, ind_batches env page !! S i with
     | Some batch, Some _ => length batch = Z.to_nat (IND_BATCH_SIZE env)
     | _, _ => True
     end
  /\ ind_batches env [] = [].
Proof.
  assert (Hsize : (0 < Z.to_nat (IND_BATCH_SIZE env))%nat)
    by (unfold IND_BATCH_SIZE; lia).
  pose proof (slices_lookup (Z.to_nat (IND_BATCH_SIZE env)) Hsize (length page) page) as L.
  unfold ind_batches. split; [apply L; lia|]. split; [|reflexivity].
  rewrite !L by lia.
  destruct (i * Z.to_nat (IND_BATCH_SIZE env) <? length page)%nat; [|exact I].
  destruct (S i * Z.to_nat (IND_BATCH_SIZE env) <? length page)%nat eqn:E; [|exact I].
  apply Nat.ltb_lt in E. rewrite length_take, length_drop. lia.
Qed.

(** ** importer.py: the clean-up *)

Section CleanUp.
Import Importer.

Variable svc : services.

(** One delete of the pool: it never stops the pool, and counts. *)
Lemma delete_task (event : found_event) (s : CrowdstrikeToMISPImporter) :
  MispCounters.deleted_event_count (misp_client (snd (delete_event svc event s)))
  = (MispCounters.deleted_event_count (misp_client s)
     + if deleted svc event then 1 else 0)%nat
  /\ log (snd (delete_event svc event s)) = log s
  /\ event_ids (snd (delete_event svc event s)) = event_ids s.
Proof.
  unfold delete_event, on_client, deleted.
  pose proof (delete_event_run (misp_delete_event svc event) (misp_client s)) as H.
  destruct (MispCounters.delete_event (misp_delete_event svc event) (misp_client s))
    as [r c].
  destruct (Transport.first_accepted (misp_delete_event svc event)) as [resp|];
    destruct H as [_ H]; simpl in *; (split; [|split; reflexivity]); lia.
Qed.

Lemma executor_map_deletes (events : list found_event) : forall s,
  fst (executor_map (delete_event svc <$> events) s) = Ret tt
  /\ MispCounters.deleted_event_count
       (misp_client (snd (executor_map (delete_event svc <$> events) s)))
     = (MispCounters.deleted_event_count (misp_client s)
        + length (List.filter (deleted svc) events))%nat
  /\ log (snd (executor_map (delete_event svc <$> events) s)) = log s
  /\ event_ids (snd (executor_map (delete_event svc <$> events) s)) = event_ids s.
Proof.
  induction events as [|event rest IH]; intros s.
  - simpl. repeat split; try reflexivity. lia.
  - rewrite fmap_cons. cbn [executor_map].
    destruct (IH (snd (delete_event svc event s))) as (Hr & Hc & Hl & He).
    destruct (delete_task event s) as (Hc1 & Hl1 & He1).
    split; [exact Hr|]. split; [|split; congruence].
    rewrite Hc, Hc1. simpl. destruct (deleted svc event); simpl; lia.
Qed.

End CleanUp.

(** X25.  [perform_threaded_delete] lets through what the search raises,
    before any delete.  When the search returns, it returns, whatever the
    deletes do: a delete whose transport is exhausted raises in its thread
    and nobody asks for its result.  [deleted_event_count] grows by the
    number of events whose delete was answered without an [errors] key. *)
Theorem X25_threaded_delete_swallows_failed_deletes
        (svc : Importer.services) (tag_to_hunt : string) (do_min : bool)
        (s : Importer.CrowdstrikeToMISPImporter) :
  match Importer.search_index svc
          {| Importer.tags := [tag_to_hunt]; Importer.org := Importer.org_id svc;
             Importer.minimal := negb (Importer.force svc) && negb do_min |} with
  | Ret events =>
      fst (Importer.perform_threaded_delete svc tag_to_hunt do_min s) = Ret tt
      /\ MispCounters.deleted_event_count
           (Importer.misp_client (snd (Importer.perform_threaded_delete svc tag_to_hunt do_min s)))
         = (MispCounters.deleted_event_count (Importer.misp_client s)
            + length (List.filter (Importer.deleted svc) events))%nat
  | Raise e =>
      fst (Importer.perform_threaded_delete svc tag_to_hunt do_min s) = Raise e
      /\ Importer.misp_client (snd (Importer.perform_threaded_delete svc tag_to_hunt do_min s))
         = Importer.misp_client s
  end.
Proof.
  unfold Importer.perform_threaded_delete, bind, Importer.log_at, modify.
  destruct (Importer.search_index svc _) as [events|e]; [|split; reflexivity].
  destruct (executor_map_deletes svc events
              (Importer.add_log
                 (LogRecord INFO "Start clean up of CrowdStrike events from MISP.") s))
    as (Hr & Hc & _).
  split; [exact Hr|exact Hc].
Qed.

Lemma never_raises_executor_map_deletes (svc : Importer.services) events :
  never_raises (Importer.executor_map (Importer.delete_event svc <$> events)).
Proof.
  intros s. destruct (executor_map_deletes svc events s) as [-> _]. reflexivity.
Qed.

Lemma never_raises_importer_log_at l msg : never_raises (Importer.log_at l msg).
Proof. intros s. reflexivity. Qed.

Lemma never_raises_perform_threaded_delete (svc : Importer.services) tag do_min :
  (forall params, exists events, Importer.search_index svc params = Ret events) ->
  never_raises (Importer.perform_threaded_delete svc tag do_min).
Proof.
  intros Hsearch. unfold Importer.perform_threaded_delete.
  apply never_raises_bind; [apply never_raises_importer_log_at|intros _].
  destruct (Hsearch {| Importer.tags := [tag]; Importer.org := Importer.org_id svc;
                       Importer.minimal := negb (Importer.force svc) && negb do_min |})
    as [events E].
  cbv zeta. rewrite E.
  apply never_raises_bind; [intros s; reflexivity|intros evs].
  apply never_raises_executor_map_deletes.
Qed.

(** X26.  As long as the searches answer, [clean_crowdstrike_events]
    returns, whichever kinds of events it is asked to clean and whatever
    the deletes do: a clean-up stops on a failed search only, never on a
    failed delete. *)
Theorem X26_clean_up_stops_on_a_failed_search_only
        (svc : Importer.services) (clean_reports clean_indicators clean_actors : bool)
        (s : Importer.CrowdstrikeToMISPImporter) :
  (forall params, exists events, Importer.search_index svc params = Ret events) ->
  (exists events, Importer.search_families svc = Ret events) ->
  fst (Importer.clean_crowdstrike_events svc clean_reports clean_indicators clean_actors s)
  = Ret tt.
Proof.
  intros Hsearch [families Hfam].
  assert (N : never_raises (Importer.clean_crowdstrike_events svc clean_reports
                              clean_indicators clean_actors)).
  { unfold Importer.clean_crowdstrike_events.
    apply never_raises_bind.
    { unfold Importer.display_banner. apply never_raises_for_each.
      intros r. apply never_raises_modify. }
    intros _. apply never_raises_bind.
    { destruct clean_actors; [|apply never_raises_ret].
      apply never_raises_for_each. intros adv.
      apply never_raises_bind; [apply never_raises_perform_threaded_delete, Hsearch|].
      intros _. apply never_raises_importer_log_at. }
    intros _. apply never_raises_bind.
    { destruct clean_reports; [|apply never_raises_ret].
      apply never_raises_for_each. intros rep.
      apply never_raises_bind; [apply never_raises_perform_threaded_delete, Hsearch|].
      intros _. apply never_raises_importer_log_at. }
    intros _. apply never_raises_bind; [|intros _; apply never_raises_importer_log_at].
    destruct clean_indicators; [|apply never_raises_ret].
    apply never_raises_bind.
    { apply never_raises_for_each. intros t.
      apply never_raises_perform_threaded_delete, Hsearch. }
    intros _. apply never_raises_bind.
    { apply never_raises_for_each. intros t.
      apply never_raises_perform_threaded_delete, Hsearch. }
    intros _. apply never_raises_bind; [|intros _; apply never_raises_importer_log_at].
    unfold Importer.perform_threaded_family_delete.
    apply never_raises_bind; [apply never_raises_importer_log_at|intros _].
    rewrite Hfam. apply never_raises_bind; [intros s0; reflexivity|intros evs].
    apply never_raises_executor_map_deletes. }
  specialize (N s).
  destruct (Importer.clean_crowdstrike_events svc clean_reports clean_indicators
              clean_actors s) as [[[]|e] s']; [reflexivity|discriminate].
Qed.

Lemma X26_clean_up_stops_on_a_failed_search_only_witness :
  fst (Importer.clean_crowdstrike_events ImporterCases.server true true true
         ImporterCases.fresh) = Ret tt.
Proof.
  apply (X26_clean_up_stops_on_a_failed_search_only ImporterCases.server true true true
           ImporterCases.fresh).
  - intros params. exists ImporterCases.three_events. reflexivity.
  - exists []. reflexivity.
Defined.

(** ** importer.py: the import of existing events *)

Lemma find_app {A} (p : A -> bool) (l1 l2 : list A) :
  List.find p (l1 ++ l2)
  = match List.find p l1 with Some x => Some x | None => List.find p l2 end.
Proof.
  induction l1 as [|x rest IH]; [reflexivity|]. simpl.
  destruct (p x); [reflexivity|exact IH].
Qed.

Section ImportFromMisp.
Import Importer.

(** What the loop does with one event. *)
Lemma register_filed style event u s :
  known_style style = true ->
  Indicators.truthy_str (fe_info event) = true ->
  fe_uuid event = Some u ->
  exists s',
    register style event s = (Ret tt, s')
    /\ event_ids s' = <[key_of style event := u]> (event_ids s)
    /\ actor_ids s'
       = (if String.eqb style "actors" then <[key_of style event := u]> (actor_ids s)
          else actor_ids s)
    /\ indicator_ids s'
       = (if String.eqb style "indicators"
          then <[key_of style event := u]> (indicator_ids s)
          else indicator_ids s)
    /\ log s' = log s.
Proof.
  intros Hstyle Hinfo Hu. unfold register, key_of, uuid_of, known_style in *.
  rewrite Hinfo, Hu.
  destruct (String.eqb style "actors") eqn:Ea.
  { apply String.eqb_eq in Ea. subst style. simpl. eexists. repeat split; reflexivity. }
  destruct (String.eqb style "reports") eqn:Er.
  { apply String.eqb_eq in Er. subst style. simpl. eexists. repeat split; reflexivity. }
  destruct (String.eqb style "indicators") eqn:Ei; [|discriminate].
  apply String.eqb_eq in Ei. subst style. simpl. eexists. repeat split; reflexivity.
Qed.

Lemma register_untitled style event s :
  Indicators.truthy_str (fe_info event) = false ->
  register style event s = (Ret tt, add_log (LogRecord WARNING "Event missing info field.") s).
Proof. intros H. unfold register. rewrite H. reflexivity. Qed.

Lemma last_filed_cons style k event rest :
  last_filed style k (event :: rest)
  = match last_filed style k rest with
    | Some e => Some e
    | None =>
        if Indicators.truthy_str (fe_info event) && String.eqb (key_of style event) k
        then Some event else None
    end.
Proof.
  unfold last_filed, filed. rewrite filter_cons.
  destruct (decide (Indicators.truthy_str (fe_info event) = true)) as [H|H].
  - rewrite H. simpl. rewrite find_app. simpl.
    destruct (String.eqb (key_of style event) k); reflexivity.
  - apply not_true_is_false in H. rewrite H. simpl.
    destruct (List.find _ _); reflexivity.
Qed.

Lemma for_each_register style (events : list found_event) :
  known_style style = true ->
  Forall (fun e => is_Some (fe_uuid e)) (filed events) ->
  forall s,
    exists s',
      for_each events (register style) s = (Ret tt, s')
      /\ (forall k, event_ids s' !! k
                    = match last_filed style k events with
                      | Some e => fe_uuid e
                      | None => event_ids s !! k
                      end)
      /\ (forall k, actor_ids s' !! k
                    = if String.eqb style "actors"
                      then match last_filed style k events with
                           | Some e => fe_uuid e
                           | None => actor_ids s !! k
                           end
                      else actor_ids s !! k)
      /\ (forall k, indicator_ids s' !! k
                    = if String.eqb style "indicators"
                      then match last_filed style k events with
                           | Some e => fe_uuid e
                           | None => indicator_ids s !! k
                           end
                      else indicator_ids s !! k).
Proof.
  intros Hstyle. induction events as [|event rest IH]; intros Hu s.
  - exists s. split; [reflexivity|]. unfold last_filed. simpl.
    repeat split; intros k; try reflexivity; destruct (String.eqb style _); reflexivity.
  - unfold filed in Hu. rewrite filter_cons in Hu.
    destruct (decide (Indicators.truthy_str (fe_info event) = true)) as [Hinfo|Hinfo].
    + apply Forall_cons in Hu as [[u Hevent] Hrest].
      destruct (register_filed style event u s Hstyle Hinfo Hevent)
        as (s1 & E1 & He1 & Ha1 & Hi1 & _).
      destruct (IH Hrest s1) as (s' & E & He & Ha & Hi).
      exists s'. split; [cbn [for_each]; rewrite (bind_returned _ _ _ _ _ E1); exact E|].
      split; [|split]; intros k; rewrite last_filed_cons, Hinfo; simpl.
      * rewrite He, He1. destruct (last_filed style k rest); [reflexivity|].
        destruct (String.eqb (key_of style event) k) eqn:Ek.
        -- apply String.eqb_eq in Ek. subst k. rewrite lookup_insert_eq. exact (eq_sym Hevent).
        -- apply String.eqb_neq in Ek. rewrite lookup_insert_ne by exact Ek. reflexivity.
      * rewrite Ha, Ha1. destruct (String.eqb style "actors"); [|reflexivity].
        destruct (last_filed style k rest); [reflexivity|].
        destruct (String.eqb (key_of style event) k) eqn:Ek.
        -- apply String.eqb_eq in Ek. subst k. rewrite lookup_insert_eq. exact (eq_sym Hevent).
        -- apply String.eqb_neq in Ek. rewrite lookup_insert_ne by exact Ek. reflexivity.
      * rewrite Hi, Hi1. destruct (String.eqb style "indicators"); [|reflexivity].
        destruct (last_filed style k rest); [reflexivity|].
        destruct (String.eqb (key_of style event) k) eqn:Ek.
        -- apply String.eqb_eq in Ek. subst k. rewrite lookup_insert_eq. exact (eq_sym Hevent).
        -- apply String.eqb_neq in Ek. rewrite lookup_insert_ne by exact Ek. reflexivity.
    + apply not_true_is_false in Hinfo.
      destruct (IH Hu (add_log (LogRecord WARNING "Event missing info field.") s))
        as (s' & E & He & Ha & Hi).
      exists s'. split.
      { cbn [for_each]. rewrite (bind_returned _ _ _ _ _ (register_untitled style event s Hinfo)).
        exact E. }
      split; [|split]; intros k; rewrite last_filed_cons, Hinfo; simpl.
      * rewrite He. destruct (last_filed style k rest); reflexivity.
      * rewrite Ha. destruct (String.eqb style "actors"); [|reflexivity].
        destruct (last_filed style k rest); reflexivity.
      * rewrite Hi. destruct (String.eqb style "indicators"); [|reflexivity].
        destruct (last_filed style k rest); reflexivity.
Qed.

End ImportFromMisp.

(** X27.  [import_from_misp], for one of the three styles it knows and
    events that all have a uuid: it returns, and [event_ids] then maps a
    key to the uuid of the last event of the search that is filed under
    it, the other keys being as they were.  An event is filed under its
    title, or under the first word of its title for the reports, so that
    two reports whose titles begin with the same word share an entry, which
    the later one takes.  The events without a title are not filed.  For
    the actors and the indicators, [actor_ids] resp. [indicator_ids] gets
    the same entries. *)
Theorem X27_import_files_the_last_event_under_each_key
        (svc : Importer.services) (tags : list string) (style : string)
        (events : list Importer.found_event) (s : Importer.CrowdstrikeToMISPImporter) :
  Importer.search_by_tags svc tags = Ret events ->
  Importer.known_style style = true ->
  Forall (fun e => is_Some (Importer.fe_uuid e)) (Importer.filed events) ->
  fst (Importer.import_from_misp svc tags style s) = Ret tt
  /\ (forall k, Importer.event_ids (snd (Importer.import_from_misp svc tags style s)) !! k
                = match Importer.last_filed style k events with
                  | Some e => Importer.fe_uuid e
                  | None => Importer.event_ids s !! k
                  end)
  /\ (forall k, Importer.actor_ids (snd (Importer.import_from_misp svc tags style s)) !! k
                = if String.eqb style "actors"
                  then match Importer.last_filed style k events with
                       | Some e => Importer.fe_uuid e
                       | None => Importer.actor_ids s !! k
                       end
                  else Importer.actor_ids s !! k)
  /\ (forall k, Importer.indicator_ids (snd (Importer.import_from_misp svc tags style s)) !! k
                = if String.eqb style "indicators"
                  then match Importer.last_filed style k events with
                       | Some e => Importer.fe_uuid e
                       | None => Importer.indicator_ids s !! k
                       end
                  else Importer.indicator_ids s !! k).
Proof.
  intros Hsearch Hstyle Hu.
  destruct (for_each_register style events Hstyle Hu s) as (s' & E & H).
  unfold Importer.import_from_misp, bind. rewrite Hsearch, E. split; [reflexivity|exact H].
Qed.

Lemma X27_import_files_the_last_event_under_each_key_witness :
  Importer.event_ids
    (snd (Importer.import_from_misp ImporterCases.server [] "reports" ImporterCases.fresh))
  !! "CSA-1"%string = Some 3%nat.
Proof.
  assert (Hu : Forall (fun e => is_Some (Importer.fe_uuid e))
                      (Importer.filed (ImporterCases.three_events
                                       ++ [ImporterCases.untitled 4%nat]))).
  { repeat constructor; eexists; reflexivity. }
  exact (proj1 (proj2
           (X27_import_files_the_last_event_under_each_key ImporterCases.server []
              "reports" (ImporterCases.three_events ++ [ImporterCases.untitled 4%nat])
              ImporterCases.fresh eq_refl eq_refl Hu)) "CSA-1"%string).
Defined.

Lemma first_word_prefix (title : string) :
  String.prefix (Importer.first_word title) title = true.
Proof.
  induction title as [|c rest IH]; [reflexivity|]. simpl.
  destruct (Ascii.eqb c " "); [reflexivity|]. simpl.
  destruct (ascii_dec c c) as [_|H]; [exact IH|contradiction].
Qed.

Lemma first_word_no_space (title : string) :
  ~ In " "%char (list_ascii_of_string (Importer.first_word title)).
Proof.
  induction title as [|c rest IH]; [intros []|]. simpl.
  destruct (Ascii.eqb c " ") eqn:E; [intros []|].
  simpl. intros [H|H]; [|exact (IH H)].
  subst c. discriminate.
Qed.

(** X28.  [threaded_report_search] files an event that has a title and a
    uuid under the first word of the title: the key is the title up to its
    first space, and after the call both [event_ids] and [report_ids] have
    the event's uuid under it.  It then returns the number of attributes of
    the event, and raises [TypeError] when the event has none to count, the
    event staying filed. *)
Theorem X28_report_is_filed_under_the_first_word
        (evts : Importer.found_event) (s : Importer.CrowdstrikeToMISPImporter)
        (title : string) (u : Importer.uuid) :
  Importer.fe_info evts = Some title ->
  title <> ""%string ->
  Importer.fe_uuid evts = Some u ->
  String.prefix (Importer.first_word title) title = true
  /\ ~ In " "%char (list_ascii_of_string (Importer.first_word title))
  /\ Importer.event_ids (snd (Importer.threaded_report_search evts s))
     !! Importer.first_word title = Some u
  /\ Importer.report_ids (snd (Importer.threaded_report_search evts s))
     !! Importer.first_word title
     = Some {| Importer.re_uuid := u;
               Importer.re_attributes := Importer.fe_attributes evts |}
  /\ fst (Importer.threaded_report_search evts s)
     = match Importer.fe_attributes evts with
       | Some attributes => Ret (length attributes)
       | None => Raise TypeError
       end.
Proof.
  intros Hinfo Htitle Hu.
  split; [apply first_word_prefix|]. split; [apply first_word_no_space|].
  assert (Ht : Indicators.truthy_str (Importer.fe_info evts) = true).
  { rewrite Hinfo. simpl. apply negb_true_iff, String.eqb_neq, Htitle. }
  unfold Importer.threaded_report_search, Importer.uuid_of. rewrite Ht, Hinfo, Hu.
  unfold bind, ret, modify, get. cbn [default].
  cbn [Importer.report_ids Importer.set_report_id Importer.set_event_id Importer.event_ids].
  rewrite lookup_insert_eq. cbn [Importer.re_attributes].
  destruct (Importer.fe_attributes evts) as [attributes|]; simpl;
    rewrite !lookup_insert_eq; repeat split; reflexivity.
Qed.

Lemma X28_report_is_filed_under_the_first_word_witness :
  Importer.event_ids
    (snd (Importer.threaded_report_search (ImporterCases.report "CSA-1 Alpha" 1%nat)
            ImporterCases.fresh))
  !! "CSA-1"%string = Some 1%nat
  /\ fst (Importer.threaded_report_search (ImporterCases.report "CSA-1 Alpha" 1%nat)
            ImporterCases.fresh) = Raise TypeError.
Proof.
  assert (Hne : "CSA-1 Alpha"%string <> ""%string) by discriminate.
  pose proof (X28_report_is_filed_under_the_first_word
                (ImporterCases.report "CSA-1 Alpha" 1%nat) ImporterCases.fresh
                "CSA-1 Alpha" 1%nat eq_refl Hne eq_refl) as (_ & _ & H1 & _ & H2).
  split; [exact H1|exact H2].
Defined.

(** ** importer.py: the settings the constructor needs *)

Lemma confirm_None items (import_settings : gmap string string) :
  Importer.confirm items import_settings = None
  <-> Forall (fun item => is_Some (import_settings !! item)) items.
Proof.
  induction items as [|item rest IH]; simpl.
  - split; [constructor|reflexivity].
  - destruct (import_settings !! item) as [v|] eqn:E.
    + rewrite IH. split; [intros H; constructor; [eauto|exact H]|].
      intros H. apply Forall_cons in H as [_ H]. exact H.
    + split; [discriminate|]. intros H. apply Forall_cons in H as [[v Hv] _].
      rewrite E in Hv. discriminate.
Qed.

Lemma confirm_Some items (import_settings : gmap string string) item :
  Importer.confirm items import_settings = Some item ->
  exists before after,
    items = before ++ item :: after
    /\ import_settings !! item = None
    /\ Forall (fun k => is_Some (import_settings !! k)) before.
Proof.
  induction items as [|x rest IH]; simpl; [discriminate|].
  destruct (import_settings !! x) as [v|] eqn:E.
  - intros H. destruct (IH H) as (before & after & -> & Hnone & Hbefore).
    exists (x :: before), after. split; [reflexivity|]. split; [exact Hnone|].
    constructor; [rewrite E; eauto|exact Hbefore].
  - intros [= <-]. exists [], rest. split; [reflexivity|]. split; [exact E|constructor].
Qed.

(** X29.  The constructor ends in [SystemExit], with one error logged, for
    the first of the six confirmed settings that is missing, those before
    it in the list being present.  With the six present it reads two more,
    [misp_enable_ssl] and [max_threads], which nothing has confirmed: a
    missing one is a [KeyError] and nothing is logged.  The client is
    built only when the eight are there, with their values. *)
Theorem X29_constructor_confirms_six_settings_and_reads_eight
        (import_settings : gmap string string) :
  match fst (Importer.check_settings import_settings) with
  | Importer.SystemExit item =>
      (exists before after,
         Importer.confirm_settings = before ++ item :: after
         /\ Forall (fun k => is_Some (import_settings !! k)) before)
      /\ import_settings !! item = None
      /\ length (snd (Importer.check_settings import_settings)) = 1%nat
  | Importer.KeyErrorFor key =>
      Forall (fun k => is_Some (import_settings !! k)) Importer.confirm_settings
      /\ (key = "misp_enable_ssl" \/ key = "max_threads")%string
      /\ import_settings !! key = None
      /\ snd (Importer.check_settings import_settings) = []
  | Importer.ClientArguments url key ssl threads =>
      Forall (fun k => is_Some (import_settings !! k)) Importer.confirm_settings
      /\ import_settings !! "misp_url"%string = Some url
      /\ import_settings !! "misp_auth_key"%string = Some key
      /\ import_settings !! "misp_enable_ssl"%string = Some ssl
      /\ import_settings !! "max_threads"%string = Some threads
  end.
Proof.
  unfold Importer.check_settings.
  destruct (Importer.confirm Importer.confirm_settings import_settings) as [item|] eqn:E.
  - simpl. apply confirm_Some in E as (before & after & Hitems & Hnone & Hbefore).
    split; [eauto|]. split; [exact Hnone|reflexivity].
  - apply confirm_None in E. pose proof E as All.
    unfold Importer.confirm_settings in E.
    apply Forall_cons in E as [[url Hurl] E]. apply Forall_cons in E as [[key Hkey] _].
    rewrite Hurl, Hkey.
    destruct (import_settings !! "misp_enable_ssl"%string) as [ssl|] eqn:Hssl;
      [|simpl; repeat split; auto].
    destruct (import_settings !! "max_threads"%string) as [threads|] eqn:Hthreads;
      simpl; repeat split; auto.
Qed.

(** ** The save loop *)

(** A try that succeeds within the refresh interval ends the loop. *)
Lemma save_loop_fast_success (env : collaborators) evt try rest s :
  save_error (misp_update_event env evt try) = None ->
  elapsed_ms (misp_update_event env evt try) <= 30000 ->
  save_loop env evt (try :: rest) s = (Ret true, add_log updated s).
Proof.
  intros Hsave Hfast. cbn [save_loop]. rewrite Hsave.
  unfold bind at 1. unfold try_except_only, ret. cbn [negb].
  unfold bind at 1. unfold log_at at 1. unfold modify at 1.
  unfold bind.
  pose proof (refresh_tolerance_bounds env) as B.
  unfold refresh_in_memory, try_except.
  replace (elapsed_ms (misp_update_event env evt try) >? refresh_tolerance env * 1000)
    with false; [reflexivity|].
  symmetry. rewrite Z.gtb_ltb. apply Z.ltb_ge. lia.
Qed.

(** X30.  [event_thread] saves an event at most three times and stops at
    the first try that succeeds: when the first [k] tries (k < 3) end in
    one of the three exceptions it catches and the next one succeeds,
    within 30 seconds of the start, it returns the title having logged two
    warnings per failed try and the update, and nothing else: no error
    record and no record of a further try.  The registry and the dirty
    set are as they were. *)
Theorem X30_save_stops_at_the_first_success (env : collaborators) evt n s (k : nat) :
  (k < 3)%nat ->
  (forall try, (1 <= try <= k)%nat ->
     exists e, save_error (misp_update_event env evt try) = Some e
               /\ In e [SSLError; ConnectionError; MISPServerError]) ->
  save_error (misp_update_event env evt (S k)) = None ->
  elapsed_ms (misp_update_event env evt (S k)) <= 30000 ->
  fst (event_thread env evt n s) = Ret (info evt)
  /\ log (snd (event_thread env evt n s))
     = log s ++ concat (replicate k failed_try) ++ [updated]
  /\ feeds (snd (event_thread env evt n s)) = feeds s
  /\ dirty_feeds (snd (event_thread env evt n s)) = dirty_feeds s.
Proof.
  intros Hk Hfail Hok Hfast.
  assert (E : exists s', save_loop env evt [1; 2; 3]%nat s = (Ret true, s')
                         /\ log s' = log s ++ concat (replicate k failed_try) ++ [updated]
                         /\ feeds s' = feeds s /\ dirty_feeds s' = dirty_feeds s).
  { destruct k as [|[|[|k]]]; [| | |lia].
    - rewrite (save_loop_fast_success env evt 1 _ s Hok Hfast).
      eexists. split; [reflexivity|]. repeat split; reflexivity.
    - destruct (Hfail 1%nat) as (e1 & H1 & C1); [lia|].
      rewrite (save_loop_failed_try env evt 1 _ e1 _ H1 C1).
      rewrite (save_loop_fast_success env evt 2 _ _ Hok Hfast).
      eexists. split; [reflexivity|]. simpl. rewrite <- !app_assoc.
      repeat split; reflexivity.
    - destruct (Hfail 1%nat) as (e1 & H1 & C1); [lia|].
      destruct (Hfail 2%nat) as (e2 & H2 & C2); [lia|].
      rewrite (save_loop_failed_try env evt 1 _ e1 _ H1 C1).
      rewrite (save_loop_failed_try env evt 2 _ e2 _ H2 C2).
      rewrite (save_loop_fast_success env evt 3 _ _ Hok Hfast).
      eexists. split; [reflexivity|]. simpl. rewrite <- !app_assoc.
      repeat split; reflexivity. }
  destruct E as (s' & E & Hlog & Hfeeds & Hdirty).
  unfold event_thread. rewrite (bind_returned _ _ _ _ _ E). simpl.
  repeat split; assumption.
Qed.

Lemma X30_save_stops_at_the_first_success_witness :
  fst (event_thread (Cases.flaky 2) Sample.domain_event 1 Sample.started_dirty)
  = Ret (info Sample.domain_event)
  /\ log (snd (event_thread (Cases.flaky 2) Sample.domain_event 1 Sample.started_dirty))
     = log Sample.started_dirty ++ concat (replicate 2 failed_try) ++ [updated]
  /\ feeds (snd (event_thread (Cases.flaky 2) Sample.domain_event 1 Sample.started_dirty))
     = feeds Sample.started_dirty
  /\ dirty_feeds (snd (event_thread (Cases.flaky 2) Sample.domain_event 1 Sample.started_dirty))
     = dirty_feeds Sample.started_dirty.
Proof.
  apply (X30_save_stops_at_the_first_success (Cases.flaky 2) Sample.domain_event 1%nat
           Sample.started_dirty 2%nat).
  - lia.
  - intros try Htry. exists ConnectionError. split; [|simpl; tauto].
    simpl. replace (try <=? 2)%nat with true; [reflexivity|].
    symmetry. apply Nat.leb_le. lia.
  - reflexivity.
  - simpl. lia.
Defined.
